(** * Sticky-error cursors of package [parse]

    A shallow embedding of the Go package [parse]: the [BinaryReader] and
    the [BinaryWriter] of [binary.go] and the [TextReader], together with
    the parts of the Go standard library they are written against ([io],
    [bufio], [unicode/utf8], [encoding/binary], [math]).

    Conventions.
    - A Go [byte] is a [Byte.byte]; a [[]byte] and a [string] are both
      [list byte].
    - Fixed-width integers are [Z] with the wrap-around of every conversion
      written out ([int64], [uint8], ...).
    - A [float32]/[float64] is an IEEE-754 datum given by its sign,
      exponent and fraction fields; [math.Float32bits] packs them into the
      bit pattern and [math.Float32frombits] unpacks it.
    - A method with a pointer receiver becomes a function returning the new
      receiver next to its results; a method that may panic returns an
      [outcome], which keeps the receiver as it was when the panic started.
    - The unbounded [for] loops of the text reader take a fuel argument and
      return [None] when it runs out; the methods supply enough fuel and are
      proved never to run out. *)

From Stdlib Require Import ZArith List Lia Bool.
From Stdlib Require Import Strings.String Strings.Byte.
Import ListNotations.

Local Open Scope Z_scope.

(** ** Go values *)

Definition byte : Type := Byte.byte.

(** Go strings and byte slices written as literals. *)
Definition bytes (s : string) : list byte := list_byte_of_string s.

Definition Z_of_byte (b : byte) : Z := Z.of_N (Byte.to_N b).

(** The conversion [byte(v)] of an unsigned integer: the low eight bits. *)
Definition byte_of_Z (v : Z) : byte :=
  match Byte.of_N (Z.to_N (Z.land v 255)) with
  | Some b => b
  | None => x00
  end.

Definition bytes_eqb (a b : list byte) : bool :=
  if list_eq_dec Byte.byte_eq_dec a b then true else false.

(** Conversions between integer types: truncation to the width, then the
    unsigned or the two's complement reading. *)
Definition unsigned (w : Z) (z : Z) : Z := z mod 2 ^ w.
Definition signed (w : Z) (z : Z) : Z :=
  (z + 2 ^ (w - 1)) mod 2 ^ w - 2 ^ (w - 1).

Definition uint8 := unsigned 8.
Definition uint16 := unsigned 16.
Definition uint32 := unsigned 32.
Definition uint64 := unsigned 64.
Definition int8 := signed 8.
Definition int16 := signed 16.
Definition int32 := signed 32.
Definition int64 := signed 64.

(** [len(p)] as an [int]. *)
Definition len {A} (p : list A) : Z := Z.of_nat (List.length p).

(** Go's [error] values that the package can meet.  Errors are compared by
    identity, here by constructor. *)
Inductive error : Type :=
| io_EOF
| io_ErrUnexpectedEOF
| bufio_ErrBufferFull
| bufio_ErrInvalidUnreadRune
| errors_New (msg : string).

Definition error_eq_dec (a b : error) : {a = b} + {a <> b}.
Proof. decide equality. apply string_dec. Defined.

Definition is_EOF (e : error) : bool :=
  match e with io_EOF => true | _ => false end.

(** The result of a call that may panic.  A panic leaves every store made
    before it in place, so both cases carry the receiver. *)
Inductive outcome (S A : Type) : Type :=
| Return (a : A) (s : S)
| Panic (msg : string) (s : S).
Arguments Return {S A} a s.
Arguments Panic {S A} msg s.

Definition state_of {S A} (o : outcome S A) : S :=
  match o with Return _ s => s | Panic _ s => s end.

Definition panicked {S A} (o : outcome S A) : bool :=
  match o with Return _ _ => false | Panic _ _ => true end.

(** ** encoding/binary *)

Module binary.

Inductive ByteOrder : Type := LittleEndian | BigEndian.

(** [Uint16], [Uint32] and [Uint64] index [b] up to the width and panic
    (here [None]) on a shorter slice. *)
Definition Uint16 (o : ByteOrder) (b : list byte) : option Z :=
  match b with
  | b0 :: b1 :: _ =>
    let b0 := Z_of_byte b0 in let b1 := Z_of_byte b1 in
    Some match o with
         | LittleEndian => Z.lor b0 (Z.shiftl b1 8)
         | BigEndian => Z.lor b1 (Z.shiftl b0 8)
         end
  | _ => None
  end.

Definition Uint32 (o : ByteOrder) (b : list byte) : option Z :=
  match b with
  | b0 :: b1 :: b2 :: b3 :: _ =>
    let b0 := Z_of_byte b0 in let b1 := Z_of_byte b1 in
    let b2 := Z_of_byte b2 in let b3 := Z_of_byte b3 in
    Some match o with
         | LittleEndian =>
           Z.lor (Z.lor (Z.lor b0 (Z.shiftl b1 8)) (Z.shiftl b2 16))
                 (Z.shiftl b3 24)
         | BigEndian =>
           Z.lor (Z.lor (Z.lor b3 (Z.shiftl b2 8)) (Z.shiftl b1 16))
                 (Z.shiftl b0 24)
         end
  | _ => None
  end.

Definition Uint64 (o : ByteOrder) (b : list byte) : option Z :=
  match b with
  | b0 :: b1 :: b2 :: b3 :: b4 :: b5 :: b6 :: b7 :: _ =>
    let b0 := Z_of_byte b0 in let b1 := Z_of_byte b1 in
    let b2 := Z_of_byte b2 in let b3 := Z_of_byte b3 in
    let b4 := Z_of_byte b4 in let b5 := Z_of_byte b5 in
    let b6 := Z_of_byte b6 in let b7 := Z_of_byte b7 in
    Some match o with
         | LittleEndian =>
           Z.lor (Z.lor (Z.lor (Z.lor (Z.lor (Z.lor (Z.lor
             b0 (Z.shiftl b1 8)) (Z.shiftl b2 16)) (Z.shiftl b3 24))
             (Z.shiftl b4 32)) (Z.shiftl b5 40)) (Z.shiftl b6 48))
             (Z.shiftl b7 56)
         | BigEndian =>
           Z.lor (Z.lor (Z.lor (Z.lor (Z.lor (Z.lor (Z.lor
             b7 (Z.shiftl b6 8)) (Z.shiftl b5 16)) (Z.shiftl b4 24))
             (Z.shiftl b3 32)) (Z.shiftl b2 40)) (Z.shiftl b1 48))
             (Z.shiftl b0 56)
         end
  | _ => None
  end.

(** [PutUint16(b, v)] and its siblings store into the first bytes of [b]
    and panic (here [None]) on a shorter slice. *)
Definition PutUint16 (o : ByteOrder) (b : list byte) (v : Z)
  : option (list byte) :=
  match b with
  | _ :: _ :: rest =>
    Some match o with
         | LittleEndian =>
           byte_of_Z v :: byte_of_Z (Z.shiftr v 8) :: rest
         | BigEndian =>
           byte_of_Z (Z.shiftr v 8) :: byte_of_Z v :: rest
         end
  | _ => None
  end.

Definition PutUint32 (o : ByteOrder) (b : list byte) (v : Z)
  : option (list byte) :=
  match b with
  | _ :: _ :: _ :: _ :: rest =>
    Some match o with
         | LittleEndian =>
           byte_of_Z v :: byte_of_Z (Z.shiftr v 8)
             :: byte_of_Z (Z.shiftr v 16) :: byte_of_Z (Z.shiftr v 24)
             :: rest
         | BigEndian =>
           byte_of_Z (Z.shiftr v 24) :: byte_of_Z (Z.shiftr v 16)
             :: byte_of_Z (Z.shiftr v 8) :: byte_of_Z v :: rest
         end
  | _ => None
  end.

Definition PutUint64 (o : ByteOrder) (b : list byte) (v : Z)
  : option (list byte) :=
  match b with
  | _ :: _ :: _ :: _ :: _ :: _ :: _ :: _ :: rest =>
    Some match o with
         | LittleEndian =>
           byte_of_Z v :: byte_of_Z (Z.shiftr v 8)
             :: byte_of_Z (Z.shiftr v 16) :: byte_of_Z (Z.shiftr v 24)
             :: byte_of_Z (Z.shiftr v 32) :: byte_of_Z (Z.shiftr v 40)
             :: byte_of_Z (Z.shiftr v 48) :: byte_of_Z (Z.shiftr v 56)
             :: rest
         | BigEndian =>
           byte_of_Z (Z.shiftr v 56) :: byte_of_Z (Z.shiftr v 48)
             :: byte_of_Z (Z.shiftr v 40) :: byte_of_Z (Z.shiftr v 32)
             :: byte_of_Z (Z.shiftr v 24) :: byte_of_Z (Z.shiftr v 16)
             :: byte_of_Z (Z.shiftr v 8) :: byte_of_Z v :: rest
         end
  | _ => None
  end.

End binary.

(** ** math *)

Module math.

(** An IEEE-754 datum by its three fields.  Every bit pattern is one:
    zeros, subnormals and normals, the infinities (exponent all ones,
    fraction zero) and the NaNs (exponent all ones, any other fraction,
    which is the payload). *)
Record float : Type := mkFloat { sign : bool; exponent : Z; fraction : Z }.

(** The fields of a format with [ebits] exponent bits and [fbits] fraction
    bits hold what fits in them. *)
Definition fits (ebits fbits : Z) (f : float) : bool :=
  ((0 <=? exponent f) && (exponent f <? 2 ^ ebits)) &&
  ((0 <=? fraction f) && (fraction f <? 2 ^ fbits)).

(** The bit pattern: sign, then exponent, then fraction. *)
Definition bits (ebits fbits : Z) (f : float) : Z :=
  (if sign f then 2 ^ (fbits + ebits) else 0)
  + exponent f * 2 ^ fbits + fraction f.

Definition frombits (ebits fbits : Z) (b : Z) : float :=
  mkFloat (Z.odd (b / 2 ^ (fbits + ebits)))
          ((b / 2 ^ fbits) mod 2 ^ ebits)
          (b mod 2 ^ fbits).

Definition Float32bits (f : float) : Z := bits 8 23 f.
Definition Float32frombits (b : Z) : float := frombits 8 23 b.
Definition Float64bits (f : float) : Z := bits 11 52 f.
Definition Float64frombits (b : Z) : float := frombits 11 52 b.

End math.

(** ** unicode/utf8 *)

Definition rune : Type := Z.

Module utf8.

Definition RuneError : rune := 0xFFFD.
Definition MaxRune : rune := 0x10FFFF.

(** The entry of the table [first] for a leading byte: plain ASCII, an
    invalid leading byte, or the leader of a sequence of [sz] bytes whose
    second byte must lie in [lo..hi]. *)
Inductive firstInfo : Type :=
| ASCII
| Invalid
| Lead (sz : nat) (lo hi : Z).

Definition first (p0 : Z) : firstInfo :=
  if p0 <? 0x80 then ASCII
  else if p0 <? 0xC2 then Invalid
  else if p0 <? 0xE0 then Lead 2 0x80 0xBF
  else if p0 =? 0xE0 then Lead 3 0xA0 0xBF
  else if p0 <? 0xED then Lead 3 0x80 0xBF
  else if p0 =? 0xED then Lead 3 0x80 0x9F
  else if p0 <? 0xF0 then Lead 3 0x80 0xBF
  else if p0 =? 0xF0 then Lead 4 0x90 0xBF
  else if p0 <? 0xF4 then Lead 4 0x80 0xBF
  else if p0 =? 0xF4 then Lead 4 0x80 0x8F
  else Invalid.

Definition cont (b : Z) : bool := (0x80 <=? b) && (b <=? 0xBF).

(** [DecodeRune(p)]: the first rune of [p] and its width in bytes; an
    invalid or truncated encoding gives [(RuneError, 1)], an empty slice
    [(RuneError, 0)]. *)
Definition DecodeRune (p : list byte) : rune * Z :=
  match p with
  | [] => (RuneError, 0)
  | p0 :: tl =>
    let p0 := Z_of_byte p0 in
    match first p0 with
    | ASCII => (p0, 1)
    | Invalid => (RuneError, 1)
    | Lead sz lo hi =>
      if (List.length p <? sz)%nat then (RuneError, 1) else
      match tl with
      | [] => (RuneError, 1)
      | b1 :: tl =>
        let b1 := Z_of_byte b1 in
        if (b1 <? lo) || (hi <? b1) then (RuneError, 1) else
        if (sz <=? 2)%nat then
          (Z.lor (Z.shiftl (Z.land p0 0x1F) 6) (Z.land b1 0x3F), 2)
        else
        match tl with
        | [] => (RuneError, 1)
        | b2 :: tl =>
          let b2 := Z_of_byte b2 in
          if negb (cont b2) then (RuneError, 1) else
          if (sz <=? 3)%nat then
            (Z.lor (Z.lor (Z.shiftl (Z.land p0 0x0F) 12)
                          (Z.shiftl (Z.land b1 0x3F) 6))
                   (Z.land b2 0x3F), 3)
          else
          match tl with
          | [] => (RuneError, 1)
          | b3 :: _ =>
            let b3 := Z_of_byte b3 in
            if negb (cont b3) then (RuneError, 1) else
            (Z.lor (Z.lor (Z.lor (Z.shiftl (Z.land p0 0x07) 18)
                                 (Z.shiftl (Z.land b1 0x3F) 12))
                          (Z.shiftl (Z.land b2 0x3F) 6))
                   (Z.land b3 0x3F), 4)
          end
        end
      end
    end
  end.

Definition enc3 (r : rune) : list byte :=
  [byte_of_Z (Z.lor 0xE0 (Z.shiftr r 12));
   byte_of_Z (Z.lor 0x80 (Z.land (Z.shiftr r 6) 0x3F));
   byte_of_Z (Z.lor 0x80 (Z.land r 0x3F))].

(** [string(r)] for a rune [r], that is [AppendRune(nil, r)]: the UTF-8
    encoding of [r], and that of [RuneError] for a surrogate or a value
    out of range. *)
Definition AppendRune (r : rune) : list byte :=
  if (0 <=? r) && (r <? 0x80) then [byte_of_Z r]
  else if (0 <=? r) && (r <=? 0x7FF) then
    [byte_of_Z (Z.lor 0xC0 (Z.shiftr r 6));
     byte_of_Z (Z.lor 0x80 (Z.land r 0x3F))]
  else if (r <? 0) || (MaxRune <? r) || ((0xD800 <=? r) && (r <=? 0xDFFF))
  then enc3 RuneError
  else if r <=? 0xFFFF then enc3 r
  else
    [byte_of_Z (Z.lor 0xF0 (Z.shiftr r 18));
     byte_of_Z (Z.lor 0x80 (Z.land (Z.shiftr r 12) 0x3F));
     byte_of_Z (Z.lor 0x80 (Z.land (Z.shiftr r 6) 0x3F));
     byte_of_Z (Z.lor 0x80 (Z.land r 0x3F))].

End utf8.

(** ** io *)

Module io.

(** An [io.Reader] is modelled by what a reader delivers over its life:
    the bytes it still holds, then, on every read past them, the error
    [fail] ([io_EOF] for a source that ends cleanly, anything else for a
    source that breaks). *)
Record Reader : Type := mkReader { data : list byte; fail : error }.

(** [ReadFull(r, buf)] fills [buf] or fails: the new contents of [buf],
    the count and the error.  [io.EOF] is reported only when nothing was
    read; a clean end after some bytes becomes [io.ErrUnexpectedEOF]. *)
Definition ReadFull (r : Reader) (buf : list byte)
  : (list byte * Z * option error) * Reader :=
  let want := List.length buf in
  let have := List.length (data r) in
  if (want <=? have)%nat then
    ((firstn want (data r), len buf, None),
     mkReader (skipn want (data r)) (fail r))
  else
    let e := if (have =? 0)%nat then fail r
             else if is_EOF (fail r) then io_ErrUnexpectedEOF
             else fail r in
    ((data r ++ skipn have buf, len (data r), Some e),
     mkReader [] (fail r)).

(** [ReadAll(r)] reads to the end; a clean end is not an error. *)
Definition ReadAll (r : Reader) : (list byte * option error) * Reader :=
  ((data r, if is_EOF (fail r) then None else Some (fail r)),
   mkReader [] (fail r)).

(** [io.Writer]: an interface, so a class.  [Write] returns the count it
    reports and its error next to the new sink; nothing here forces an
    implementation to report an error with a short count. *)
Class Writer (W : Type) : Type :=
  Write : W -> list byte -> (Z * option error) * W.

End io.

(** A [bytes.Buffer]: accepts everything. *)
Definition bytes_Buffer : Type := list byte.

#[export] Instance bytes_Buffer_Writer : io.Writer bytes_Buffer :=
  fun w p => ((len p, None), w ++ p).

(** A sink with room for [room] more bytes.  When [p] does not fit it takes
    what fits and reports that count with [short]: an error for a
    well-behaved writer, [None] for one that reports short counts with a
    nil error. *)
Record limitedWriter : Type := mkLimited {
  taken : list byte;
  room : nat;
  short : option error
}.

#[export] Instance limitedWriter_Writer : io.Writer limitedWriter :=
  fun w p =>
    if (List.length p <=? room w)%nat then
      ((len p, None),
       mkLimited (taken w ++ p) (room w - List.length p) (short w))
    else
      ((Z.of_nat (room w), short w),
       mkLimited (taken w ++ firstn (room w) p) 0 (short w)).

(** ** bufio *)

Module bufio.

(** A [bufio.Reader] over a source: the logical stream that is left
    (buffered or not), the size of the buffer, and the bytes of the rune
    that [UnreadRune] may give back (empty when the last call was not a
    successful [ReadRune]). *)
Record Reader : Type := mkReader {
  rd : io.Reader;
  size : nat;
  lastRune : list byte
}.

(** [NewReaderSize]: a buffer of at least 16 bytes; [NewReader]: 4096. *)
Definition NewReaderSize (rd : io.Reader) (size : nat) : Reader :=
  mkReader rd (Nat.max size 16) [].

Definition NewReader (rd : io.Reader) : Reader := NewReaderSize rd 4096.

Definition pending (b : Reader) : list byte := io.data (rd b).

Definition advance (b : Reader) (k : nat) (last : list byte) : Reader :=
  mkReader (io.mkReader (skipn k (pending b)) (io.fail (rd b)))
           (size b) last.

Definition ReadRune (b : Reader) : (rune * Z * option error) * Reader :=
  match pending b with
  | [] => ((0, 0, Some (io.fail (rd b))), mkReader (rd b) (size b) [])
  | _ =>
    let '(c, w) := utf8.DecodeRune (pending b) in
    ((c, w, None),
     advance b (Z.to_nat w) (firstn (Z.to_nat w) (pending b)))
  end.

Definition UnreadRune (b : Reader) : option error * Reader :=
  match lastRune b with
  | [] => (Some bufio_ErrInvalidUnreadRune, b)
  | l =>
    (None,
     mkReader (io.mkReader (l ++ pending b) (io.fail (rd b))) (size b) [])
  end.

(** [Peek(n)]: the next [n] bytes without advancing; fewer, with the
    source's error, when the stream ends before, and [ErrBufferFull] when
    [n] exceeds the buffer. *)
Definition Peek (b : Reader) (n : nat)
  : (list byte * option error) * Reader :=
  let b' := mkReader (rd b) (size b) [] in
  if (size b <? n)%nat then
    ((firstn (size b) (pending b), Some bufio_ErrBufferFull), b')
  else if (n <=? List.length (pending b))%nat then
    ((firstn n (pending b), None), b')
  else ((pending b, Some (io.fail (rd b))), b').

Definition Discard (b : Reader) (n : nat) : (Z * option error) * Reader :=
  if (n =? 0)%nat then ((0, None), b)
  else if (n <=? List.length (pending b))%nat then
    ((Z.of_nat n, None), advance b n [])
  else
    ((len (pending b), Some (io.fail (rd b))),
     advance b (List.length (pending b)) []).

End bufio.

(** ** Numbers and the dynamic values passed as [interface{}] *)

Inductive numtype : Type :=
| T_int8 | T_uint8 | T_int16 | T_uint16 | T_int32 | T_uint32
| T_int64 | T_uint64 | T_float32 | T_float64.

(** A value of one of the ten numeric types. *)
Inductive number : Type :=
| Int8 (v : Z) | Uint8 (v : Z)
| Int16 (v : Z) | Uint16 (v : Z)
| Int32 (v : Z) | Uint32 (v : Z)
| Int64 (v : Z) | Uint64 (v : Z)
| Float32 (f : math.float) | Float64 (f : math.float).

Definition typeof (x : number) : numtype :=
  match x with
  | Int8 _ => T_int8 | Uint8 _ => T_uint8
  | Int16 _ => T_int16 | Uint16 _ => T_uint16
  | Int32 _ => T_int32 | Uint32 _ => T_uint32
  | Int64 _ => T_int64 | Uint64 _ => T_uint64
  | Float32 _ => T_float32 | Float64 _ => T_float64
  end.

Definition between (lo v hi : Z) : bool := (lo <=? v) && (v <? hi).

(** The values a variable of the type can hold. *)
Definition representable (x : number) : bool :=
  match x with
  | Int8 v => between (- 2 ^ 7) v (2 ^ 7)
  | Uint8 v => between 0 v (2 ^ 8)
  | Int16 v => between (- 2 ^ 15) v (2 ^ 15)
  | Uint16 v => between 0 v (2 ^ 16)
  | Int32 v => between (- 2 ^ 31) v (2 ^ 31)
  | Uint32 v => between 0 v (2 ^ 32)
  | Int64 v => between (- 2 ^ 63) v (2 ^ 63)
  | Uint64 v => between 0 v (2 ^ 64)
  | Float32 f => math.fits 8 23 f
  | Float64 f => math.fits 11 52 f
  end.

(** What a caller can pass where the code takes [interface{}]: a number, a
    pointer to a numeric variable (possibly a nil pointer of that type), or
    a value of any other type. *)
Inductive data : Type :=
| Num (x : number)
| Ptr (T : numtype) (isnil : bool)
| Other.

Definition NumberSize (d : data) : Z :=
  match d with
  | Num (Int8 _) | Num (Uint8 _) | Ptr T_int8 _ | Ptr T_uint8 _ => 1
  | Num (Int16 _) | Num (Uint16 _) | Ptr T_int16 _ | Ptr T_uint16 _ => 2
  | Num (Int32 _) | Num (Uint32 _) | Num (Float32 _)
  | Ptr T_int32 _ | Ptr T_uint32 _ | Ptr T_float32 _ => 4
  | Num (Int64 _) | Num (Uint64 _) | Num (Float64 _)
  | Ptr T_int64 _ | Ptr T_uint64 _ | Ptr T_float64 _ => 8
  | Other => 0
  end.

(** [var a [8]byte; b = a[:size]] *)
Definition scratch (size : Z) : list byte :=
  firstn (Z.to_nat size) (repeat x00 8).

Definition invalid_type : string := "invalid type".
Definition nil_order : string := "expected non-nil ByteOrder".
Definition nil_dereference : string :=
  "runtime error: invalid memory address or nil pointer dereference".
Definition index_out_of_range : string :=
  "runtime error: index out of range".

(** ** BinaryReader *)

Module BinaryReader.

Record t : Type := mk {
  r : io.Reader;
  ord : binary.ByteOrder;
  n : Z;
  err : option error
}.

Definition NewBinaryReader (src : io.Reader) : t :=
  mk src binary.LittleEndian 0 None.

Definition N (c : t) : Z := n c.
Definition Err (c : t) : option error := err c.
Definition End (c : t) : Z * option error := (n c, err c).

(** A nil [order] is [None]. *)
Definition SetByteOrder (c : t) (order : option binary.ByteOrder)
  : outcome t unit :=
  match order with
  | None => Panic nil_order c
  | Some o => Return tt (mk (r c) o (n c) (err c))
  end.

Definition Add (c : t) (k : Z) (e : option error) : bool * t :=
  match err c with
  | Some _ => (true, c)
  | None =>
    let c := mk (r c) (ord c) (int64 (n c + k)) e in
    match err c with
    | Some _ => (true, c)
    | None => (false, c)
    end
  end.

(** [Bytes(p)] also returns what [p] holds afterwards. *)
Definition Bytes (c : t) (p : list byte) : (bool * list byte) * t :=
  match err c with
  | Some _ => ((true, p), c)
  | None =>
    let '((p, k, e), src) := io.ReadFull (r c) p in
    let c := mk src (ord c) (int64 (n c + int64 k)) e in
    match err c with
    | Some _ => ((true, p), c)
    | None => ((false, p), c)
    end
  end.

(** The store [*n = x] through the pointer [v]. *)
Definition store (isnil : bool) (x : option number) (c : t)
  : outcome t (bool * option number) :=
  if isnil then Panic nil_dereference c
  else match x with
       | Some x => Return (false, Some x) c
       | None => Panic index_out_of_range c
       end.

Definition byte0 (b : list byte) : option Z :=
  match b with b0 :: _ => Some (Z_of_byte b0) | [] => None end.

(** [Number(v)] returns [failed] and the number stored through [v], if
    one was stored. *)
Definition Number (c : t) (v : data) : outcome t (bool * option number) :=
  match err c with
  | Some _ => Return (true, None) c
  | None =>
    let size := NumberSize v in
    if size =? 0 then Panic invalid_type c
    else
      let b := scratch size in
      let '((failed, b), c) := Bytes c b in
      if failed then Return (true, None) c
      else
        let o := ord c in
        match v with
        | Ptr T_int8 z =>
          store z (option_map (fun u => Int8 (int8 u)) (byte0 b)) c
        | Ptr T_uint8 z =>
          store z (option_map Uint8 (byte0 b)) c
        | Ptr T_int16 z =>
          store z (option_map (fun u => Int16 (int16 u))
                              (binary.Uint16 o b)) c
        | Ptr T_uint16 z =>
          store z (option_map Uint16 (binary.Uint16 o b)) c
        | Ptr T_int32 z =>
          store z (option_map (fun u => Int32 (int32 u))
                              (binary.Uint32 o b)) c
        | Ptr T_uint32 z =>
          store z (option_map Uint32 (binary.Uint32 o b)) c
        | Ptr T_int64 z =>
          store z (option_map (fun u => Int64 (int64 u))
                              (binary.Uint64 o b)) c
        | Ptr T_uint64 z =>
          store z (option_map Uint64 (binary.Uint64 o b)) c
        | Ptr T_float32 z =>
          store z (option_map (fun u => Float32 (math.Float32frombits u))
                              (binary.Uint32 o b)) c
        | Ptr T_float64 z =>
          store z (option_map (fun u => Float64 (math.Float64frombits u))
                              (binary.Uint64 o b)) c
        | _ => Panic invalid_type c
        end
  end.

Definition All (c : t) : (option (list byte) * bool) * t :=
  match err c with
  | Some _ => ((None, true), c)
  | None =>
    let '((data, e), src) := io.ReadAll (r c) in
    let c := mk src (ord c) (int64 (n c + int64 (len data))) e in
    match err c with
    | Some _ => ((None, true), c)
    | None => ((Some data, false), c)
    end
  end.

End BinaryReader.

(** ** BinaryWriter *)

Module BinaryWriter.
Section WithWriter.

Context {W : Type} `{io.Writer W}.

Record t : Type := mk {
  w : W;
  ord : binary.ByteOrder;
  n : Z;
  err : option error
}.

Definition NewBinaryWriter (sink : W) : t :=
  mk sink binary.LittleEndian 0 None.

Definition N (c : t) : Z := n c.
Definition Err (c : t) : option error := err c.
Definition End (c : t) : Z * option error := (n c, err c).

Definition SetByteOrder (c : t) (order : option binary.ByteOrder)
  : outcome t unit :=
  match order with
  | None => Panic nil_order c
  | Some o => Return tt (mk (w c) o (n c) (err c))
  end.

Definition Add (c : t) (k : Z) (e : option error) : bool * t :=
  match err c with
  | Some _ => (true, c)
  | None =>
    let c := mk (w c) (ord c) (int64 (n c + k)) e in
    match err c with
    | Some _ => (true, c)
    | None => (false, c)
    end
  end.

Definition Bytes (c : t) (p : list byte) : bool * t :=
  match err c with
  | Some _ => (true, c)
  | None =>
    let '((k, e), sink) := io.Write (w c) p in
    let c := mk sink (ord c) (int64 (n c + int64 k)) e in
    if k <? len p then (true, c) else (false, c)
  end.

(** The tail of [Number] once [b] is filled; a [None] is the panic of a
    store past the end of [b]. *)
Definition put (c : t) (b : option (list byte)) : outcome t bool :=
  match b with
  | Some b => let '(failed, c) := Bytes c b in Return failed c
  | None => Panic index_out_of_range c
  end.

Definition set0 (b : list byte) (x : byte) : option (list byte) :=
  match b with _ :: rest => Some (x :: rest) | [] => None end.

Definition Number (c : t) (v : data) : outcome t bool :=
  match err c with
  | Some _ => Return true c
  | None =>
    let size := NumberSize v in
    if size =? 0 then Panic invalid_type c
    else
      let b := scratch size in
      let o := ord c in
      match v with
      | Num (Int8 x) => put c (set0 b (byte_of_Z (uint8 x)))
      | Num (Uint8 x) => put c (set0 b (byte_of_Z x))
      | Num (Int16 x) => put c (binary.PutUint16 o b (uint16 x))
      | Num (Uint16 x) => put c (binary.PutUint16 o b x)
      | Num (Int32 x) => put c (binary.PutUint32 o b (uint32 x))
      | Num (Uint32 x) => put c (binary.PutUint32 o b x)
      | Num (Int64 x) => put c (binary.PutUint64 o b (uint64 x))
      | Num (Uint64 x) => put c (binary.PutUint64 o b x)
      | Num (Float32 x) =>
        put c (binary.PutUint32 o b (math.Float32bits x))
      | Num (Float64 x) =>
        put c (binary.PutUint64 o b (math.Float64bits x))
      | _ => Panic invalid_type c
      end
  end.

End WithWriter.
Arguments t W : clear implicits.
End BinaryWriter.

(** ** TextReader *)

Module TextReader.

Record t : Type := mk {
  r : bufio.Reader;
  buf : list byte;
  n : Z;
  err : option error
}.

(** [NewTextReader(r)] keeps [r] when it already is a [*bufio.Reader]
    ([inr]) and wraps it otherwise ([inl]). *)
Definition NewTextReader (src : io.Reader + bufio.Reader) : t :=
  let br := match src with
            | inr br => br
            | inl rd => bufio.NewReader rd
            end in
  mk br (repeat x00 64) 0 None.

Definition N (c : t) : Z := n c.
Definition Err (c : t) : option error := err c.
Definition End (c : t) : Z * option error := (n c, err c).

(** What is left of the stream under the cursor. *)
Definition pending (c : t) : list byte := bufio.pending (r c).

Definition Next (c : t) : rune * t :=
  match err c with
  | Some _ => (-1, c)
  | None =>
    let '((x, w, e), br) := bufio.ReadRune (r c) in
    let c := mk br (buf c) (n c) e in
    match err c with
    | Some _ => (-1, c)
    | None => (x, mk (r c) (buf c) (int64 (n c + int64 w)) (err c))
    end
  end.

Definition MustNext (c : t) : rune * t :=
  match err c with
  | Some _ => (-1, c)
  | None =>
    let '(x, c) := Next c in
    if x <? 0 then
      match err c with
      | Some io_EOF =>
        (x, mk (r c) (buf c) (n c) (Some io_ErrUnexpectedEOF))
      | _ => (x, c)
      end
    else (x, c)
  end.

Definition Is (c : t) (s : list byte) : bool * t :=
  match err c with
  | Some _ => (false, c)
  | None =>
    if bytes_eqb s [] then (true, c)
    else
      let '((b, e), br) := bufio.Peek (r c) (List.length s) in
      let c := mk br (buf c) (n c) e in
      match err c with
      | Some e =>
        if is_EOF e then (false, mk (r c) (buf c) (n c) None)
        else (false, c)
      | None =>
        if negb (bytes_eqb b s) then (false, c)
        else
          let '(_, br) := bufio.Discard (r c) (List.length s) in
          (true, mk br (buf c) (int64 (n c + int64 (len s))) (err c))
      end
  end.

(** The loop of [IsAny]; [None] when the fuel runs out. *)
Fixpoint IsAny_loop (fuel : nat) (c : t) (f : rune -> bool)
  : option ((list byte * bool) * t) :=
  match fuel with
  | O => None
  | S fuel =>
    let '((x, w, e), br) := bufio.ReadRune (r c) in
    let c := mk br (buf c) (n c) e in
    match err c with
    | Some e =>
      if is_EOF e then Some ((buf c, true), mk (r c) (buf c) (n c) None)
      else Some (([], false), c)
    | None =>
      if negb (f x) then
        let '(_, br) := bufio.UnreadRune (r c) in
        Some ((buf c, true), mk br (buf c) (n c) (err c))
      else
        IsAny_loop fuel
          (mk (r c) (buf c ++ utf8.AppendRune x) (int64 (n c + int64 w))
              (err c)) f
    end
  end.

(** Every round of a loop takes at least one byte off the stream or
    returns, so one round more than bytes are left is enough. *)
Definition enough (c : t) : nat := S (List.length (pending c)).

Definition IsAny (c : t) (f : rune -> bool)
  : option ((list byte * bool) * t) :=
  match err c with
  | Some _ => Some (([], false), c)
  | None => IsAny_loop (enough c) (mk (r c) [] (n c) (err c)) f
  end.

Definition IsEOF (c : t) : bool * t :=
  match err c with
  | Some e => (is_EOF e, c)
  | None =>
    let '((_, e), br) := bufio.Peek (r c) 1 in
    (match e with Some e => is_EOF e | None => false end,
     mk br (buf c) (n c) (err c))
  end.

Fixpoint Skip_loop (fuel : nat) (c : t) (f : rune -> bool)
  : option (bool * t) :=
  match fuel with
  | O => None
  | S fuel =>
    let '((x, w, e), br) := bufio.ReadRune (r c) in
    let c := mk br (buf c) (n c) e in
    match err c with
    | Some e =>
      if is_EOF e then Some (true, mk (r c) (buf c) (n c) None)
      else Some (false, c)
    | None =>
      if negb (f x) then
        let '(_, br) := bufio.UnreadRune (r c) in
        Some (true, mk br (buf c) (n c) (err c))
      else
        Skip_loop fuel
          (mk (r c) (buf c) (int64 (n c + int64 w)) (err c)) f
    end
  end.

Definition Skip (c : t) (f : rune -> bool) : option (bool * t) :=
  match err c with
  | Some _ => Some (false, c)
  | None => Skip_loop (enough c) c f
  end.

Fixpoint Until_loop (fuel : nat) (c : t) (v : rune)
  : option ((list byte * bool) * t) :=
  match fuel with
  | O => None
  | S fuel =>
    let '((x, w, e), br) := bufio.ReadRune (r c) in
    let c := mk br (buf c) (n c) e in
    match err c with
    | Some e =>
      if is_EOF e
      then Some (([], false),
                 mk (r c) (buf c) (n c) (Some io_ErrUnexpectedEOF))
      else Some (([], false), c)
    | None =>
      if x =? v then Some ((buf c, true), c)
      else
        Until_loop fuel
          (mk (r c) (buf c ++ utf8.AppendRune x) (int64 (n c + int64 w))
              (err c)) v
    end
  end.

Definition Until (c : t) (v : rune) : option ((list byte * bool) * t) :=
  match err c with
  | Some _ => Some (([], false), c)
  | None => Until_loop (enough c) (mk (r c) [] (n c) (err c)) v
  end.

Fixpoint UntilAny_loop (fuel : nat) (c : t) (f : rune -> bool)
  : option ((list byte * bool) * t) :=
  match fuel with
  | O => None
  | S fuel =>
    let '((x, w, e), br) := bufio.ReadRune (r c) in
    let c := mk br (buf c) (n c) e in
    match err c with
    | Some e =>
      if is_EOF e
      then Some (([], false),
                 mk (r c) (buf c) (n c) (Some io_ErrUnexpectedEOF))
      else Some (([], false), c)
    | None =>
      if f x then Some ((buf c, true), c)
      else
        UntilAny_loop fuel
          (mk (r c) (buf c ++ utf8.AppendRune x) (int64 (n c + int64 w))
              (err c)) f
    end
  end.

Definition UntilAny (c : t) (f : rune -> bool)
  : option ((list byte * bool) * t) :=
  match err c with
  | Some _ => Some (([], false), c)
  | None => UntilAny_loop (enough c) (mk (r c) [] (n c) (err c)) f
  end.

Definition UntilEOF (c : t) : (list byte * bool) * t :=
  match err c with
  | Some _ => (([], false), c)
  | None =>
    let '((b, e), rd) := io.ReadAll (bufio.rd (r c)) in
    let c := mk (bufio.mkReader rd (bufio.size (r c)) []) (buf c) (n c) e in
    match err c with
    | Some _ => (([], false), c)
    | None => ((b, true), mk (r c) (buf c) (int64 (n c + int64 (len b)))
                             (err c))
    end
  end.

End TextReader.

(** Two predicates and a few streams used in the examples. *)
Definition is_semicolon (x : rune) : bool := x =? 59.
Definition clean (s : string) : io.Reader := io.mkReader (bytes s) io_EOF.
Definition broken (s : string) (msg : string) : io.Reader :=
  io.mkReader (bytes s) (errors_New msg).
Definition text (s : string) : TextReader.t :=
  TextReader.NewTextReader (inl (clean s)).

(** ** Positional reading of byte strings

    The little-endian value of a byte string and the [k] low bytes of a
    value, least significant first; [in_order] lays such a string out in a
    byte order.  They state the layout that [encoding/binary] produces. *)

Fixpoint le_sum (l : list byte) : Z :=
  match l with
  | [] => 0
  | b :: l => Z_of_byte b + 256 * le_sum l
  end.

Fixpoint le_bytes (k : nat) (v : Z) : list byte :=
  match k with
  | O => []
  | S k => byte_of_Z v :: le_bytes k (v / 256)
  end.

Definition in_order (o : binary.ByteOrder) (l : list byte) : list byte :=
  match o with
  | binary.LittleEndian => l
  | binary.BigEndian => rev l
  end.

(** A binary writer on an empty [bytes.Buffer] and a binary reader on the
    bytes [bs], both set to the byte order [o]. *)
Definition fresh_writer (o : binary.ByteOrder)
  : BinaryWriter.t bytes_Buffer :=
  state_of (BinaryWriter.SetByteOrder (BinaryWriter.NewBinaryWriter [])
                                      (Some o)).

Definition fresh_reader (o : binary.ByteOrder) (bs : list byte)
  : BinaryReader.t :=
  state_of (BinaryReader.SetByteOrder
              (BinaryReader.NewBinaryReader (io.mkReader bs io_EOF))
              (Some o)).

(** ** Reading a stream rune by rune

    [reads p xs rest]: taking runes off the front of [p] the way
    [bufio.ReadRune] does gives the runes [xs], each with its width, and
    leaves [rest]. *)
Inductive reads : list byte -> list (rune * Z) -> list byte -> Prop :=
| reads_done (p : list byte) : reads p [] p
| reads_rune (p : list byte) (x : rune) (w : Z) (xs : list (rune * Z))
             (rest : list byte) :
    p <> [] ->
    utf8.DecodeRune p = (x, w) ->
    reads (skipn (Z.to_nat w) p) xs rest ->
    reads p ((x, w) :: xs) rest.

(** [string(buf)] after appending the runes [xs] to an empty [buf]. *)
Definition spelled (xs : list (rune * Z)) : list byte :=
  List.concat (map (fun xw => utf8.AppendRune (fst xw)) xs).

(** The count after adding the widths of [xs] to [n], one rune at a time. *)
Definition counted (n : Z) (xs : list (rune * Z)) : Z :=
  fold_left (fun a xw => int64 (a + int64 (snd xw))) xs n.

Definition none_satisfies (f : rune -> bool) (xs : list (rune * Z)) : Prop :=
  Forall (fun xw => f (fst xw) = false) xs.

(** ** The calls of a cursor that report failure

    For each cursor, its calls with a failure value, the value each call
    returns to say that it failed, and a function that runs a call. *)

Module BinaryReaderCalls.

Inductive call : Type :=
| Add (k : Z) (e : option error)
| Bytes (p : list byte)
| Number (v : data)
| All.

Inductive result : Type :=
| failed_is (failed : bool)
| bytes_are (failed : bool) (p : list byte)
| number_is (failed : bool) (stored : option number)
| all_is (data : option (list byte)) (failed : bool).

Definition run (c : BinaryReader.t) (op : call)
  : outcome BinaryReader.t result :=
  match op with
  | Add k e =>
    let '(failed, c) := BinaryReader.Add c k e in
    Return (failed_is failed) c
  | Bytes p =>
    let '((failed, p), c) := BinaryReader.Bytes c p in
    Return (bytes_are failed p) c
  | Number v =>
    match BinaryReader.Number c v with
    | Return (failed, x) c => Return (number_is failed x) c
    | Panic msg c => Panic msg c
    end
  | All =>
    let '((data, failed), c) := BinaryReader.All c in
    Return (all_is data failed) c
  end.

(** [failed = true]; the buffer of [Bytes] is left as it was, nothing is
    stored by [Number], and [All] returns a nil slice. *)
Definition failure (op : call) : result :=
  match op with
  | Add _ _ => failed_is true
  | Bytes p => bytes_are true p
  | Number _ => number_is true None
  | All => all_is None true
  end.

Definition after (c : BinaryReader.t) (ops : list call) : BinaryReader.t :=
  fold_left (fun c op => state_of (run c op)) ops c.

End BinaryReaderCalls.

Module BinaryWriterCalls.
Section WithWriter.

Context {W : Type} `{io.Writer W}.

Inductive call : Type :=
| Add (k : Z) (e : option error)
| Bytes (p : list byte)
| Number (v : data).

Definition run (c : BinaryWriter.t W) (op : call)
  : outcome (BinaryWriter.t W) bool :=
  match op with
  | Add k e => let '(failed, c) := BinaryWriter.Add c k e in Return failed c
  | Bytes p => let '(failed, c) := BinaryWriter.Bytes c p in Return failed c
  | Number v => BinaryWriter.Number c v
  end.

Definition after (c : BinaryWriter.t W) (ops : list call)
  : BinaryWriter.t W :=
  fold_left (fun c op => state_of (run c op)) ops c.

End WithWriter.
End BinaryWriterCalls.

Module TextReaderCalls.

Inductive call : Type :=
| Next
| MustNext
| Is (s : list byte)
| IsAny (f : rune -> bool)
| Skip (f : rune -> bool)
| Until (v : rune)
| UntilAny (f : rune -> bool)
| UntilEOF.

Inductive result : Type :=
| rune_is (x : rune)
| ok_is (ok : bool)
| string_is (s : list byte) (ok : bool).

Definition string_result (x : (list byte * bool) * TextReader.t)
  : result * TextReader.t :=
  let '((s, ok), c) := x in (string_is s ok, c).

(** [None] only when a loop runs out of fuel. *)
Definition run (c : TextReader.t) (op : call)
  : option (result * TextReader.t) :=
  match op with
  | Next => let '(x, c) := TextReader.Next c in Some (rune_is x, c)
  | MustNext => let '(x, c) := TextReader.MustNext c in Some (rune_is x, c)
  | Is s => let '(ok, c) := TextReader.Is c s in Some (ok_is ok, c)
  | IsAny f => option_map string_result (TextReader.IsAny c f)
  | Skip f =>
    option_map (fun x => (ok_is (fst x), snd x)) (TextReader.Skip c f)
  | Until v => option_map string_result (TextReader.Until c v)
  | UntilAny f => option_map string_result (TextReader.UntilAny c f)
  | UntilEOF => Some (string_result (TextReader.UntilEOF c))
  end.

(** [-1] for the calls that return a rune, [false] for those that return
    [ok], and [("", false)] for those that return a string. *)
Definition failure (op : call) : result :=
  match op with
  | Next | MustNext => rune_is (-1)
  | Is _ | Skip _ => ok_is false
  | IsAny _ | Until _ | UntilAny _ | UntilEOF => string_is [] false
  end.

Definition after (c : TextReader.t) (ops : list call) : TextReader.t :=
  fold_left (fun c op => match run c op with
                         | Some (_, c) => c
                         | None => c
                         end) ops c.

End TextReaderCalls.

(** ** Sequences of numbers

    The explicit layout of a number in a byte order, and the calls a caller
    makes to write a list of numbers one after the other and to read a list
    of numbers of given types back, without looking at [failed] in between
    (the cursors are sticky). *)

Definition layout (o : binary.ByteOrder) (x : number) : list byte :=
  match x with
  | Int8 v => [byte_of_Z (uint8 v)]
  | Uint8 v => [byte_of_Z v]
  | Int16 v => in_order o (le_bytes 2 (uint16 v))
  | Uint16 v => in_order o (le_bytes 2 v)
  | Int32 v => in_order o (le_bytes 4 (uint32 v))
  | Uint32 v => in_order o (le_bytes 4 v)
  | Int64 v => in_order o (le_bytes 8 (uint64 v))
  | Uint64 v => in_order o (le_bytes 8 v)
  | Float32 f => in_order o (le_bytes 4 (math.Float32bits f))
  | Float64 f => in_order o (le_bytes 8 (math.Float64bits f))
  end.

Definition total_size (xs : list number) : Z :=
  fold_right (fun x a => NumberSize (Num x) + a) 0 xs.

Definition write_numbers {W : Type} `{io.Writer W}
           (c : BinaryWriter.t W) (xs : list number) : BinaryWriter.t W :=
  fold_left (fun c x => state_of (BinaryWriter.Number c (Num x))) xs c.

Fixpoint read_numbers (c : BinaryReader.t) (Ts : list numtype)
  : list (option number) * BinaryReader.t :=
  match Ts with
  | [] => ([], c)
  | T :: Ts =>
    let o := BinaryReader.Number c (Ptr T false) in
    let x := match o with Return (_, x) _ => x | Panic _ _ => None end in
    let '(xs, c) := read_numbers (state_of o) Ts in
    (x :: xs, c)
  end.

(** A sink that takes every byte and reports [trouble] with each write: a
    writer that has accepted the bytes and still has an error to report. *)
Record reportingWriter : Type := mkReporting {
  accepted : list byte;
  trouble : option error
}.

#[export] Instance reportingWriter_Writer : io.Writer reportingWriter :=
  fun w p => ((len p, trouble w), mkReporting (accepted w ++ p) (trouble w)).

(** [all_satisfy f xs]: every rune of [xs] satisfies [f]. *)
Definition all_satisfy (f : rune -> bool) (xs : list (rune * Z)) : Prop :=
  Forall (fun xw => f (fst xw) = true) xs.

(** The calls of the text reader that add to the count every byte they
    take off the stream. *)
Definition counts_what_it_takes (op : TextReaderCalls.call) : bool :=
  match op with
  | TextReaderCalls.Next | TextReaderCalls.MustNext
  | TextReaderCalls.Is _ | TextReaderCalls.IsAny _
  | TextReaderCalls.Skip _ => true
  | TextReaderCalls.Until _ | TextReaderCalls.UntilAny _
  | TextReaderCalls.UntilEOF => false
  end.
(** ** Arithmetic of bytes *)

Lemma Z_of_byte_range (b : byte) : 0 <= Z_of_byte b < 256.
Proof.
  unfold Z_of_byte. pose proof (Byte.to_N_bounded b). lia.
Qed.

Lemma byte_of_Z_of_byte (b : byte) : byte_of_Z (Z_of_byte b) = b.
Proof.
  unfold byte_of_Z.
  change 255 with (Z.ones 8). rewrite Z.land_ones by lia.
  rewrite Z.mod_small by (pose proof (Z_of_byte_range b); lia).
  unfold Z_of_byte. rewrite N2Z.id, Byte.of_to_N. reflexivity.
Qed.

Lemma Z_of_byte_of_Z (v : Z) : Z_of_byte (byte_of_Z v) = v mod 256.
Proof.
  unfold byte_of_Z.
  change 255 with (Z.ones 8). rewrite Z.land_ones by lia.
  change (2 ^ 8) with 256.
  pose proof (Z.mod_pos_bound v 256 ltac:(lia)) as Hb.
  destruct (Byte.of_N (Z.to_N (v mod 256))) as [b|] eqn:E.
  - apply Byte.to_of_N in E. unfold Z_of_byte. rewrite E. lia.
  - apply Byte.of_N_None_iff in E. lia.
Qed.

(** A disjunction of a value below [2^k] with a value shifted by [k] is
    their sum. *)
Lemma lor_shiftl_add (a b k : Z) :
  0 <= k -> 0 <= a < 2 ^ k -> Z.lor a (Z.shiftl b k) = a + b * 2 ^ k.
Proof.
  intros Hk Ha.
  assert (Z.land a (Z.shiftl b k) = 0) as Hland.
  { apply Z.bits_inj'. intros n Hn.
    rewrite Z.land_spec, Z.bits_0.
    destruct (Z.ltb_spec n k).
    - rewrite Z.shiftl_spec_low by lia. apply andb_false_r.
    - assert (Z.testbit a n = false) as ->; [|reflexivity].
      destruct (Z.eq_dec a 0) as [->|]; [apply Z.bits_0|].
      apply Z.bits_above_log2; [lia|].
      apply Z.lt_le_trans with k; [|lia].
      apply Z.log2_lt_pow2; lia. }
  pose proof (Z.add_lor_land a (Z.shiftl b k)) as Hadd.
  rewrite Hland in Hadd. rewrite Z.shiftl_mul_pow2 in * by lia. lia.
Qed.

Lemma le_sum_range (l : list byte) :
  0 <= le_sum l < 256 ^ Z.of_nat (List.length l).
Proof.
  induction l as [|b l IH]; cbn [le_sum List.length].
  - cbn. lia.
  - rewrite Nat2Z.inj_succ, Z.pow_succ_r by lia.
    pose proof (Z_of_byte_range b). lia.
Qed.

Lemma byte_of_Z_add (b : byte) (m : Z) :
  byte_of_Z (Z_of_byte b + 256 * m) = b.
Proof.
  rewrite <- (byte_of_Z_of_byte b) at 2.
  rewrite <- (byte_of_Z_of_byte (byte_of_Z _)).
  f_equal. rewrite Z_of_byte_of_Z.
  replace (Z_of_byte b + 256 * m) with (Z_of_byte b + m * 256) by lia.
  rewrite Z.mod_add by lia.
  apply Z.mod_small, Z_of_byte_range.
Qed.

Lemma le_bytes_le_sum (l : list byte) : le_bytes (List.length l) (le_sum l) = l.
Proof.
  induction l as [|b l IH]; cbn [le_sum le_bytes List.length]; [reflexivity|].
  rewrite byte_of_Z_add. f_equal.
  replace (Z_of_byte b + 256 * le_sum l)
    with (le_sum l * 256 + Z_of_byte b) by lia.
  rewrite Z.div_add_l by lia.
  rewrite Z.div_small by apply Z_of_byte_range.
  rewrite Z.add_0_r. exact IH.
Qed.

Lemma le_sum_le_bytes (k : nat) (v : Z) :
  le_sum (le_bytes k v) = v mod 256 ^ Z.of_nat k.
Proof.
  revert v. induction k as [|k IH]; intros v; cbn [le_sum le_bytes].
  - cbn. symmetry. apply Z.mod_1_r.
  - rewrite IH, Z_of_byte_of_Z, Nat2Z.inj_succ, Z.pow_succ_r by lia.
    rewrite Z.rem_mul_r by lia. reflexivity.
Qed.

Lemma le_bytes_length (k : nat) (v : Z) : List.length (le_bytes k v) = k.
Proof. revert v. induction k; intros; cbn [le_bytes List.length]; auto. Qed.

Lemma in_order_involutive o l : in_order o (in_order o l) = l.
Proof. destruct o; cbn; [reflexivity | apply rev_involutive]. Qed.

Lemma in_order_length o l : List.length (in_order o l) = List.length l.
Proof. destruct o; cbn; [reflexivity | apply length_rev]. Qed.

Lemma shiftr_div256 (v : Z) (k : Z) :
  0 <= k -> Z.shiftr v (k + 8) = Z.shiftr v k / 256.
Proof.
  intros Hk. rewrite <- Z.shiftr_shiftr by lia.
  rewrite (Z.shiftr_div_pow2 _ 8) by lia. reflexivity.
Qed.

(** Rewrites the shifts [v >> 8k] of goal into iterated divisions. *)
Ltac shifts_to_divs v :=
  repeat match goal with
         | |- context [Z.shiftr v ?k] =>
           lazymatch k with 0 => fail | _ => idtac end;
           let k' := eval compute in (k - 8) in
           change (Z.shiftr v k) with (Z.shiftr v (k' + 8));
           rewrite (shiftr_div256 v k') by lia
         end;
  rewrite ?Z.shiftr_0_r.

Lemma PutUint16_le_bytes o b v :
  List.length b = 2%nat ->
  binary.PutUint16 o b v = Some (in_order o (le_bytes 2 v)).
Proof.
  intros Hb. do 2 (destruct b as [|? b]; [discriminate|]).
  destruct b; [|discriminate].
  destruct o; cbn [binary.PutUint16 in_order le_bytes rev app];
    shifts_to_divs v; reflexivity.
Qed.

Lemma PutUint32_le_bytes o b v :
  List.length b = 4%nat ->
  binary.PutUint32 o b v = Some (in_order o (le_bytes 4 v)).
Proof.
  intros Hb. do 4 (destruct b as [|? b]; [discriminate|]).
  destruct b; [|discriminate].
  destruct o; cbn [binary.PutUint32 in_order le_bytes rev app];
    shifts_to_divs v; reflexivity.
Qed.

Lemma PutUint64_le_bytes o b v :
  List.length b = 8%nat ->
  binary.PutUint64 o b v = Some (in_order o (le_bytes 8 v)).
Proof.
  intros Hb. do 8 (destruct b as [|? b]; [discriminate|]).
  destruct b; [|discriminate].
  destruct o; cbn [binary.PutUint64 in_order le_bytes rev app];
    shifts_to_divs v; reflexivity.
Qed.

(** Turns the disjunctions of shifted bytes of the goal into sums. *)
Ltac lor_to_sum :=
  repeat match goal with
         | b : byte |- _ =>
           lazymatch goal with
           | H : 0 <= Z_of_byte b < 256 |- _ => fail
           | _ => pose proof (Z_of_byte_range b)
           end
         end;
  repeat (rewrite lor_shiftl_add; [ idtac | lia | idtac ]);
  lia.

Lemma Uint16_le_sum o l :
  List.length l = 2%nat -> binary.Uint16 o (in_order o l) = Some (le_sum l).
Proof.
  intros Hl. do 2 (destruct l as [|? l]; [discriminate|]).
  destruct l; [|discriminate].
  destruct o; cbn [binary.Uint16 in_order le_sum rev app]; f_equal;
    lor_to_sum.
Qed.

Lemma Uint32_le_sum o l :
  List.length l = 4%nat -> binary.Uint32 o (in_order o l) = Some (le_sum l).
Proof.
  intros Hl. do 4 (destruct l as [|? l]; [discriminate|]).
  destruct l; [|discriminate].
  destruct o; cbn [binary.Uint32 in_order le_sum rev app]; f_equal;
    lor_to_sum.
Qed.

Lemma Uint64_le_sum o l :
  List.length l = 8%nat -> binary.Uint64 o (in_order o l) = Some (le_sum l).
Proof.
  intros Hl. do 8 (destruct l as [|? l]; [discriminate|]).
  destruct l; [|discriminate].
  destruct o; cbn [binary.Uint64 in_order le_sum rev app]; f_equal;
    lor_to_sum.
Qed.

(** ** Integer conversions *)

Lemma int64_small (z : Z) : - 2 ^ 63 <= z < 2 ^ 63 -> int64 z = z.
Proof.
  intros Hz. unfold int64, signed.
  change (64 - 1) with 63.
  rewrite Z.mod_small; [lia|].
  change (2 ^ 64) with (2 ^ 63 + 2 ^ 63). lia.
Qed.

Lemma int64_count (a k : Z) : int64 (a + int64 k) = int64 (a + k).
Proof.
  unfold int64, signed. change (64 - 1) with 63.
  replace (a + ((k + 2 ^ 63) mod 2 ^ 64 - 2 ^ 63) + 2 ^ 63)
    with (a + (k + 2 ^ 63) mod 2 ^ 64) by lia.
  rewrite Z.add_mod_idemp_r by lia.
  f_equal. f_equal. lia.
Qed.

Lemma signed_unsigned (w v : Z) :
  0 < w -> - 2 ^ (w - 1) <= v < 2 ^ (w - 1) -> signed w (unsigned w v) = v.
Proof.
  intros Hw Hv. unfold signed, unsigned.
  assert (2 ^ w = 2 * 2 ^ (w - 1)) as E.
  { rewrite <- Z.pow_succ_r by lia. f_equal. lia. }
  rewrite Z.add_mod_idemp_l by lia.
  rewrite Z.mod_small by lia. lia.
Qed.

Lemma unsigned_signed (w u : Z) :
  0 < w -> 0 <= u < 2 ^ w -> unsigned w (signed w u) = u.
Proof.
  intros Hw Hu. unfold signed, unsigned.
  assert (2 ^ w = 2 * 2 ^ (w - 1)) as E.
  { rewrite <- Z.pow_succ_r by lia. f_equal. lia. }
  rewrite Zminus_mod_idemp_l.
  replace (u + 2 ^ (w - 1) - 2 ^ (w - 1)) with u by lia.
  apply Z.mod_small. lia.
Qed.

Lemma signed_range (w u : Z) :
  0 < w -> - 2 ^ (w - 1) <= signed w u < 2 ^ (w - 1).
Proof.
  intros Hw. unfold signed.
  assert (2 ^ w = 2 * 2 ^ (w - 1)) as E.
  { rewrite <- Z.pow_succ_r by lia. f_equal. lia. }
  pose proof (Z.mod_pos_bound (u + 2 ^ (w - 1)) (2 ^ w) ltac:(lia)). lia.
Qed.

Lemma between_true lo v hi : between lo v hi = true <-> lo <= v < hi.
Proof. unfold between. rewrite andb_true_iff, Z.leb_le, Z.ltb_lt. tauto. Qed.

(** ** Round trip of numbers *)

Lemma int64_len {A} (l : list A) :
  (List.length l <= 8)%nat -> int64 (len l) = len l.
Proof.
  intros Hl. apply int64_small.
  unfold len. assert (8 < 2 ^ 63) by (cbn; lia). lia.
Qed.

Lemma writer_put_fresh o bs :
  (List.length bs <= 8)%nat ->
  BinaryWriter.put (fresh_writer o) (Some bs)
  = Return false (BinaryWriter.mk bs o (len bs) None).
Proof.
  intros Hl. unfold BinaryWriter.put, BinaryWriter.Bytes, fresh_writer.
  cbn -[int64 len Z.ltb].
  rewrite Z.ltb_irrefl.
  rewrite ?int64_count, ?Z.add_0_l, !int64_len by assumption. reflexivity.
Qed.

Lemma reader_Bytes_exact o bs p :
  List.length p = List.length bs -> (List.length bs <= 8)%nat ->
  BinaryReader.Bytes (fresh_reader o bs) p
  = ((false, bs),
     BinaryReader.mk (io.mkReader [] io_EOF) o (len bs) None).
Proof.
  intros Hp Hl. unfold BinaryReader.Bytes, fresh_reader, io.ReadFull.
  cbn -[int64 len firstn skipn Nat.leb].
  rewrite Hp, Nat.leb_refl, firstn_all, skipn_all.
  cbn -[int64 len].
  replace (len p) with (len bs) by (unfold len; congruence).
  rewrite ?int64_count, ?Z.add_0_l, !int64_len by assumption. reflexivity.
Qed.

Lemma scratch_length k : (k <= 8)%nat -> List.length (scratch (Z.of_nat k)) = k.
Proof.
  intros Hk. unfold scratch. rewrite Nat2Z.id, length_firstn, repeat_length.
  lia.
Qed.

Lemma ordered_length o k v : List.length (in_order o (le_bytes k v)) = k.
Proof. rewrite in_order_length. apply le_bytes_length. Qed.

Lemma unsigned_pow256 (k : nat) (w v : Z) :
  w = 8 * Z.of_nat k -> v mod 256 ^ Z.of_nat k = unsigned w v.
Proof.
  intros ->. unfold unsigned. change 256 with (2 ^ 8).
  rewrite <- Z.pow_mul_r by lia. reflexivity.
Qed.

Lemma unsigned_small (w v : Z) : 0 <= v < 2 ^ w -> unsigned w v = v.
Proof. intros Hv. apply Z.mod_small, Hv. Qed.

Lemma unsigned_idem (w v : Z) :
  0 <= w -> unsigned w (unsigned w v) = unsigned w v.
Proof.
  intros Hw. unfold unsigned. apply Z.mod_mod.
  apply Z.pow_nonzero; lia.
Qed.

Lemma unsigned_range (w v : Z) : 0 <= w -> 0 <= unsigned w v < 2 ^ w.
Proof.
  intros Hw. apply Z.mod_pos_bound. apply Z.pow_pos_nonneg; lia.
Qed.

(** Bit patterns of floats. *)

Lemma fits_iff e m f :
  math.fits e m f = true
  <-> 0 <= math.exponent f < 2 ^ e /\ 0 <= math.fraction f < 2 ^ m.
Proof.
  unfold math.fits. rewrite !andb_true_iff, !Z.leb_le, !Z.ltb_lt. tauto.
Qed.

Lemma bits_range e m f :
  0 <= e -> 0 <= m -> math.fits e m f = true ->
  0 <= math.bits e m f < 2 ^ (1 + e + m).
Proof.
  intros He Hm Hf. apply fits_iff in Hf. destruct Hf as [Hx Hy].
  unfold math.bits. rewrite !Z.pow_add_r by lia. change (2 ^ 1) with 2.
  assert (0 < 2 ^ e) by (apply Z.pow_pos_nonneg; lia).
  assert (0 < 2 ^ m) by (apply Z.pow_pos_nonneg; lia).
  destruct (math.sign f); nia.
Qed.

Lemma frombits_bits e m f :
  0 <= e -> 0 <= m -> math.fits e m f = true ->
  math.frombits e m (math.bits e m f) = f.
Proof.
  intros He Hm Hf. apply fits_iff in Hf. destruct Hf as [Hx Hy].
  assert (0 < 2 ^ e) by (apply Z.pow_pos_nonneg; lia).
  assert (0 < 2 ^ m) by (apply Z.pow_pos_nonneg; lia).
  destruct f as [s x y]. cbn [math.exponent math.fraction] in *.
  unfold math.frombits, math.bits.
  cbn [math.sign math.exponent math.fraction].
  rewrite Z.pow_add_r by lia.
  set (S := if s then 1 else 0).
  replace ((if s then 2 ^ m * 2 ^ e else 0) + x * 2 ^ m + y)
    with ((S * 2 ^ e + x) * 2 ^ m + y) by (unfold S; destruct s; lia).
  assert (((S * 2 ^ e + x) * 2 ^ m + y) / 2 ^ m = S * 2 ^ e + x) as Hq.
  { rewrite Z.div_add_l by lia. rewrite Z.div_small by lia. lia. }
  assert (((S * 2 ^ e + x) * 2 ^ m + y) mod 2 ^ m = y) as Hr.
  { rewrite Z.add_comm, Z.mod_add by lia. apply Z.mod_small. lia. }
  rewrite <- Z.div_div by lia. rewrite Hq, Hr.
  f_equal.
  - rewrite Z.div_add_l by lia. rewrite Z.div_small by lia.
    unfold S. destruct s; reflexivity.
  - rewrite Z.add_comm, Z.mod_add by lia. apply Z.mod_small. lia.
Qed.

Lemma fits_frombits e m b :
  0 <= e -> 0 <= m -> math.fits e m (math.frombits e m b) = true.
Proof.
  intros He Hm. apply fits_iff. cbn [math.frombits math.exponent math.fraction].
  split; apply Z.mod_pos_bound; apply Z.pow_pos_nonneg; lia.
Qed.

Lemma bits_frombits e m b :
  0 <= e -> 0 <= m -> 0 <= b < 2 ^ (1 + e + m) ->
  math.bits e m (math.frombits e m b) = b.
Proof.
  intros He Hm Hb.
  assert (0 < 2 ^ e) by (apply Z.pow_pos_nonneg; lia).
  assert (0 < 2 ^ m) by (apply Z.pow_pos_nonneg; lia).
  unfold math.bits, math.frombits.
  cbn [math.sign math.exponent math.fraction].
  rewrite !Z.pow_add_r in * by lia. change (2 ^ 1) with 2 in Hb.
  rewrite <- Z.div_div by lia.
  pose proof (Z.div_mod b (2 ^ m) ltac:(lia)) as H1.
  pose proof (Z.div_mod (b / 2 ^ m) (2 ^ e) ltac:(lia)) as H2.
  pose proof (Z.mod_pos_bound b (2 ^ m) ltac:(lia)).
  pose proof (Z.mod_pos_bound (b / 2 ^ m) (2 ^ e) ltac:(lia)).
  assert (0 <= b / 2 ^ m / 2 ^ e < 2) as Hs.
  { split.
    - apply Z.div_pos; [apply Z.div_pos|]; lia.
    - apply Z.div_lt_upper_bound; [lia|]. apply Z.div_lt_upper_bound; nia. }
  assert (b / 2 ^ m / 2 ^ e = 0 \/ b / 2 ^ m / 2 ^ e = 1) as [E|E] by lia;
    rewrite E in *; cbn [Z.odd]; nia.
Qed.

Lemma Float32_frombits_bits f :
  math.fits 8 23 f = true ->
  math.Float32frombits (unsigned 32 (math.Float32bits f)) = f.
Proof.
  intros Hf. unfold math.Float32frombits, math.Float32bits.
  rewrite unsigned_small by (apply (bits_range 8 23); [lia | lia | exact Hf]).
  apply frombits_bits; [lia | lia | exact Hf].
Qed.

Lemma Float64_frombits_bits f :
  math.fits 11 52 f = true ->
  math.Float64frombits (unsigned 64 (math.Float64bits f)) = f.
Proof.
  intros Hf. unfold math.Float64frombits, math.Float64bits.
  rewrite unsigned_small by (apply (bits_range 11 52); [lia | lia | exact Hf]).
  apply frombits_bits; [lia | lia | exact Hf].
Qed.

Lemma Float32_bits_frombits b :
  0 <= b < 2 ^ 32 -> math.Float32bits (math.Float32frombits b) = b.
Proof. intros Hb. apply bits_frombits; [lia | lia | exact Hb]. Qed.

Lemma Float64_bits_frombits b :
  0 <= b < 2 ^ 64 -> math.Float64bits (math.Float64frombits b) = b.
Proof. intros Hb. apply bits_frombits; [lia | lia | exact Hb]. Qed.

(** The writer's side of a round trip: [Number] on a fresh writer comes
    down to [put] of the bytes laid out by [put_spec]. *)
Ltac writer_side put_spec :=
  match goal with
  | |- BinaryWriter.Number (fresh_writer ?o) ?v = _ =>
    unfold BinaryWriter.Number;
    change (BinaryWriter.err (fresh_writer o)) with (@None error);
    change (BinaryWriter.ord (fresh_writer o)) with o;
    cbn [NumberSize Z.eqb];
    rewrite ?put_spec by reflexivity;
    apply writer_put_fresh;
    rewrite ?ordered_length; cbn [List.length]; lia
  end.

(** The reader's side: [Number] on the bytes just written decodes them by
    [get_spec]. *)
Ltac reader_side get_spec :=
  match goal with
  | |- BinaryReader.Number (fresh_reader ?o ?bs) ?v = _ =>
    unfold BinaryReader.Number;
    change (BinaryReader.err (fresh_reader o bs)) with (@None error);
    cbn [NumberSize typeof Z.eqb];
    rewrite reader_Bytes_exact
      by (rewrite ?ordered_length; first [reflexivity | cbn; lia]);
    cbn [BinaryReader.ord BinaryReader.byte0];
    rewrite ?get_spec by apply le_bytes_length;
    rewrite ?le_sum_le_bytes, ?Z_of_byte_of_Z;
    cbn [option_map BinaryReader.store]
  end.

Lemma encode_decode_forward (o : binary.ByteOrder) (x : number) :
  representable x = true ->
  exists bs : list byte,
    len bs = NumberSize (Num x) /\
    BinaryWriter.Number (fresh_writer o) (Num x)
    = Return false (BinaryWriter.mk bs o (len bs) None) /\
    BinaryReader.Number (fresh_reader o bs) (Ptr (typeof x) false)
    = Return (false, Some x)
             (BinaryReader.mk (io.mkReader [] io_EOF) o (len bs) None).
Proof.
  intros Hx. destruct x; cbn [representable] in Hx;
    try apply between_true in Hx.
  - exists [byte_of_Z (uint8 v)]. split; [reflexivity|]. split.
    + writer_side I.
    + reader_side I. repeat f_equal.
      unfold int8, uint8. rewrite (unsigned_pow256 1 8) by reflexivity.
      rewrite unsigned_idem by lia. apply signed_unsigned; [lia|exact Hx].
  - exists [byte_of_Z v]. split; [reflexivity|]. split.
    + writer_side I.
    + reader_side I. repeat f_equal.
      rewrite (unsigned_pow256 1 8) by reflexivity.
      apply unsigned_small, Hx.
  - exists (in_order o (le_bytes 2 (uint16 v))).
    split; [unfold len; rewrite ordered_length; reflexivity|]. split.
    + writer_side PutUint16_le_bytes.
    + reader_side Uint16_le_sum. repeat f_equal.
      unfold int16, uint16. rewrite (unsigned_pow256 2 16) by reflexivity.
      rewrite unsigned_idem by lia. apply signed_unsigned; [lia|exact Hx].
  - exists (in_order o (le_bytes 2 v)).
    split; [unfold len; rewrite ordered_length; reflexivity|]. split.
    + writer_side PutUint16_le_bytes.
    + reader_side Uint16_le_sum. repeat f_equal.
      rewrite (unsigned_pow256 2 16) by reflexivity.
      apply unsigned_small, Hx.
  - exists (in_order o (le_bytes 4 (uint32 v))).
    split; [unfold len; rewrite ordered_length; reflexivity|]. split.
    + writer_side PutUint32_le_bytes.
    + reader_side Uint32_le_sum. repeat f_equal.
      unfold int32, uint32. rewrite (unsigned_pow256 4 32) by reflexivity.
      rewrite unsigned_idem by lia. apply signed_unsigned; [lia|exact Hx].
  - exists (in_order o (le_bytes 4 v)).
    split; [unfold len; rewrite ordered_length; reflexivity|]. split.
    + writer_side PutUint32_le_bytes.
    + reader_side Uint32_le_sum. repeat f_equal.
      rewrite (unsigned_pow256 4 32) by reflexivity.
      apply unsigned_small, Hx.
  - exists (in_order o (le_bytes 8 (uint64 v))).
    split; [unfold len; rewrite ordered_length; reflexivity|]. split.
    + writer_side PutUint64_le_bytes.
    + reader_side Uint64_le_sum. repeat f_equal.
      unfold int64, uint64. rewrite (unsigned_pow256 8 64) by reflexivity.
      rewrite unsigned_idem by lia. apply signed_unsigned; [lia|exact Hx].
  - exists (in_order o (le_bytes 8 v)).
    split; [unfold len; rewrite ordered_length; reflexivity|]. split.
    + writer_side PutUint64_le_bytes.
    + reader_side Uint64_le_sum. repeat f_equal.
      rewrite (unsigned_pow256 8 64) by reflexivity.
      apply unsigned_small, Hx.
  - exists (in_order o (le_bytes 4 (math.Float32bits f))).
    split; [unfold len; rewrite ordered_length; reflexivity|]. split.
    + writer_side PutUint32_le_bytes.
    + reader_side Uint32_le_sum.
      rewrite (unsigned_pow256 4 32) by reflexivity.
      rewrite Float32_frombits_bits by exact Hx. reflexivity.
  - exists (in_order o (le_bytes 8 (math.Float64bits f))).
    split; [unfold len; rewrite ordered_length; reflexivity|]. split.
    + writer_side PutUint64_le_bytes.
    + reader_side Uint64_le_sum.
      rewrite (unsigned_pow256 8 64) by reflexivity.
      rewrite Float64_frombits_bits by exact Hx. reflexivity.
Qed.

Lemma layout_inverse o (k : nat) bs :
  List.length bs = k ->
  in_order o (le_bytes k (le_sum (in_order o bs))) = bs.
Proof.
  intros <-. rewrite <- (in_order_length o bs).
  rewrite le_bytes_le_sum. apply in_order_involutive.
Qed.

Lemma le_sum_unsigned o (k : nat) (w : Z) bs :
  List.length bs = k -> w = 8 * Z.of_nat k ->
  0 <= le_sum (in_order o bs) < 2 ^ w.
Proof.
  intros Hk ->. pose proof (le_sum_range (in_order o bs)) as Hr.
  rewrite in_order_length, Hk in Hr.
  change 256 with (2 ^ 8) in Hr. rewrite <- Z.pow_mul_r in Hr by lia.
  exact Hr.
Qed.

Lemma Uint16_any o bs :
  List.length bs = 2%nat ->
  binary.Uint16 o bs = Some (le_sum (in_order o bs)).
Proof.
  intros Hl. rewrite <- (in_order_involutive o bs) at 1.
  apply Uint16_le_sum. rewrite in_order_length. exact Hl.
Qed.

Lemma Uint32_any o bs :
  List.length bs = 4%nat ->
  binary.Uint32 o bs = Some (le_sum (in_order o bs)).
Proof.
  intros Hl. rewrite <- (in_order_involutive o bs) at 1.
  apply Uint32_le_sum. rewrite in_order_length. exact Hl.
Qed.

Lemma Uint64_any o bs :
  List.length bs = 8%nat ->
  binary.Uint64 o bs = Some (le_sum (in_order o bs)).
Proof.
  intros Hl. rewrite <- (in_order_involutive o bs) at 1.
  apply Uint64_le_sum. rewrite in_order_length. exact Hl.
Qed.

Lemma len_eq {A} (l : list A) (k : nat) : len l = Z.of_nat k -> List.length l = k.
Proof. unfold len. lia. Qed.

(** Decoding any [k] bytes: the reader stores [mk s], where [s] is the
    unsigned value the bytes spell in the order [o]. *)
Ltac decode_side get_any Hl :=
  match goal with
  | |- BinaryReader.Number (fresh_reader ?o ?bs) ?v = _ =>
    unfold BinaryReader.Number;
    change (BinaryReader.err (fresh_reader o bs)) with (@None error);
    cbn [NumberSize Z.eqb];
    rewrite reader_Bytes_exact
      by first [reflexivity | rewrite Hl; reflexivity | rewrite Hl; lia];
    cbn [BinaryReader.ord];
    rewrite ?get_any by exact Hl;
    reflexivity
  end.

(** Encoding what was decoded gives the bytes back: [Number] comes down to
    [put] of the bytes [bs]. *)
Ltac encode_side put_spec k w Hl :=
  match goal with
  | |- BinaryWriter.Number (fresh_writer ?o) _
       = Return false (BinaryWriter.mk ?bs _ _ _) =>
    transitivity (BinaryWriter.put (fresh_writer o) (Some bs));
    [ unfold BinaryWriter.Number;
      change (BinaryWriter.err (fresh_writer o)) with (@None error);
      change (BinaryWriter.ord (fresh_writer o)) with o;
      cbn [NumberSize Z.eqb];
      rewrite put_spec by reflexivity;
      unfold uint16, int16, uint32, int32, uint64, int64;
      rewrite ?unsigned_signed, ?Float32_bits_frombits, ?Float64_bits_frombits
        by first [lia | apply (le_sum_unsigned o k w bs Hl); reflexivity];
      rewrite (layout_inverse o k bs Hl); reflexivity
    | apply writer_put_fresh; rewrite Hl; lia ]
  end.

Lemma decode_encode_backward (o : binary.ByteOrder) (T : numtype)
      (bs : list byte) :
  len bs = NumberSize (Ptr T false) ->
  exists x : number,
    typeof x = T /\ representable x = true /\
    BinaryReader.Number (fresh_reader o bs) (Ptr T false)
    = Return (false, Some x)
             (BinaryReader.mk (io.mkReader [] io_EOF) o (len bs) None) /\
    BinaryWriter.Number (fresh_writer o) (Num x)
    = Return false (BinaryWriter.mk bs o (len bs) None).
Proof.
  intros Hl. destruct T; cbn [NumberSize] in Hl.
  - apply (len_eq bs 1) in Hl.
    destruct bs as [|b [|? ?]]; try discriminate.
    exists (Int8 (int8 (Z_of_byte b))).
    split; [reflexivity|]. split.
    { apply between_true, (signed_range 8). lia. }
    split; [decode_side I Hl|].
    transitivity (BinaryWriter.put (fresh_writer o) (Some [b]));
      [|apply writer_put_fresh; cbn; lia].
    unfold BinaryWriter.Number.
    change (BinaryWriter.err (fresh_writer o)) with (@None error).
    cbn [NumberSize Z.eqb]. unfold uint8, int8.
    rewrite unsigned_signed by (pose proof (Z_of_byte_range b); lia).
    rewrite byte_of_Z_of_byte. reflexivity.
  - apply (len_eq bs 1) in Hl.
    destruct bs as [|b [|? ?]]; try discriminate.
    exists (Uint8 (Z_of_byte b)).
    split; [reflexivity|]. split.
    { apply between_true. pose proof (Z_of_byte_range b). lia. }
    split; [decode_side I Hl|].
    transitivity (BinaryWriter.put (fresh_writer o) (Some [b]));
      [|apply writer_put_fresh; cbn; lia].
    unfold BinaryWriter.Number.
    change (BinaryWriter.err (fresh_writer o)) with (@None error).
    cbn [NumberSize Z.eqb].
    rewrite byte_of_Z_of_byte. reflexivity.
  - apply (len_eq bs 2) in Hl.
    exists (Int16 (int16 (le_sum (in_order o bs)))).
    split; [reflexivity|]. split.
    { apply between_true, (signed_range 16). lia. }
    split; [decode_side Uint16_any Hl|].
    encode_side PutUint16_le_bytes 2%nat 16 Hl.
  - apply (len_eq bs 2) in Hl.
    exists (Uint16 (le_sum (in_order o bs))).
    split; [reflexivity|]. split.
    { apply between_true, (le_sum_unsigned o 2 16 bs Hl). reflexivity. }
    split; [decode_side Uint16_any Hl|].
    encode_side PutUint16_le_bytes 2%nat 16 Hl.
  - apply (len_eq bs 4) in Hl.
    exists (Int32 (int32 (le_sum (in_order o bs)))).
    split; [reflexivity|]. split.
    { apply between_true, (signed_range 32). lia. }
    split; [decode_side Uint32_any Hl|].
    encode_side PutUint32_le_bytes 4%nat 32 Hl.
  - apply (len_eq bs 4) in Hl.
    exists (Uint32 (le_sum (in_order o bs))).
    split; [reflexivity|]. split.
    { apply between_true, (le_sum_unsigned o 4 32 bs Hl). reflexivity. }
    split; [decode_side Uint32_any Hl|].
    encode_side PutUint32_le_bytes 4%nat 32 Hl.
  - apply (len_eq bs 8) in Hl.
    exists (Int64 (int64 (le_sum (in_order o bs)))).
    split; [reflexivity|]. split.
    { apply between_true, (signed_range 64). lia. }
    split; [decode_side Uint64_any Hl|].
    encode_side PutUint64_le_bytes 8%nat 64 Hl.
  - apply (len_eq bs 8) in Hl.
    exists (Uint64 (le_sum (in_order o bs))).
    split; [reflexivity|]. split.
    { apply between_true, (le_sum_unsigned o 8 64 bs Hl). reflexivity. }
    split; [decode_side Uint64_any Hl|].
    encode_side PutUint64_le_bytes 8%nat 64 Hl.
  - apply (len_eq bs 4) in Hl.
    exists (Float32 (math.Float32frombits (le_sum (in_order o bs)))).
    split; [reflexivity|]. split.
    { apply fits_frombits; lia. }
    split; [decode_side Uint32_any Hl|].
    encode_side PutUint32_le_bytes 4%nat 32 Hl.
  - apply (len_eq bs 8) in Hl.
    exists (Float64 (math.Float64frombits (le_sum (in_order o bs)))).
    split; [reflexivity|]. split.
    { apply fits_frombits; lia. }
    split; [decode_side Uint64_any Hl|].
    encode_side PutUint64_le_bytes 8%nat 64 Hl.
Qed.

(** C2.  Numbers survive a round trip.  For each of the ten numeric types,
    both byte orders and every representable value [x] (for a float: every
    datum, the NaNs with their payloads and the infinities included),
    [BinaryWriter.Number] writes
    [NumberSize] bytes [bs] without failing, and [BinaryReader.Number],
    reading [bs] under the same byte order, stores [x] again.  Conversely,
    whatever bytes the reader decodes, writing the decoded number
    reproduces exactly those bytes. *)
Theorem Number_round_trip :
  (forall (o : binary.ByteOrder) (x : number),
      representable x = true ->
      exists bs : list byte,
        len bs = NumberSize (Num x) /\
        BinaryWriter.Number (fresh_writer o) (Num x)
        = Return false (BinaryWriter.mk bs o (len bs) None) /\
        BinaryReader.Number (fresh_reader o bs) (Ptr (typeof x) false)
        = Return (false, Some x)
                 (BinaryReader.mk (io.mkReader [] io_EOF) o (len bs) None))
  /\
  (forall (o : binary.ByteOrder) (T : numtype) (bs : list byte),
      len bs = NumberSize (Ptr T false) ->
      exists x : number,
        typeof x = T /\ representable x = true /\
        BinaryReader.Number (fresh_reader o bs) (Ptr T false)
        = Return (false, Some x)
                 (BinaryReader.mk (io.mkReader [] io_EOF) o (len bs) None) /\
        BinaryWriter.Number (fresh_writer o) (Num x)
        = Return false (BinaryWriter.mk bs o (len bs) None)).
Proof.
  split.
  - exact encode_decode_forward.
  - exact decode_encode_backward.
Qed.

(** The round trip at a signalling NaN of a [float32] (the pattern
    [7FA00001]), big-endian, and at the four bytes [01 02 03 04] read as a
    little-endian [int32]. *)
Lemma Number_round_trip_witness :
  (exists bs : list byte,
      len bs = 4 /\
      BinaryWriter.Number (fresh_writer binary.BigEndian)
                          (Num (Float32 (math.mkFloat false 255 0x200001)))
      = Return false
               (BinaryWriter.mk bs binary.BigEndian (len bs) None) /\
      BinaryReader.Number (fresh_reader binary.BigEndian bs)
                          (Ptr T_float32 false)
      = Return (false, Some (Float32 (math.mkFloat false 255 0x200001)))
               (BinaryReader.mk (io.mkReader [] io_EOF) binary.BigEndian
                                (len bs) None))
  /\
  (exists x : number,
      typeof x = T_int32 /\ representable x = true /\
      BinaryReader.Number (fresh_reader binary.LittleEndian [x01; x02; x03; x04])
                          (Ptr T_int32 false)
      = Return (false, Some x)
               (BinaryReader.mk (io.mkReader [] io_EOF) binary.LittleEndian
                                4 None) /\
      BinaryWriter.Number (fresh_writer binary.LittleEndian) (Num x)
      = Return false
               (BinaryWriter.mk [x01; x02; x03; x04] binary.LittleEndian
                                4 None)).
Proof.
  split.
  - apply (proj1 Number_round_trip binary.BigEndian
                 (Float32 (math.mkFloat false 255 0x200001))).
    reflexivity.
  - apply (proj2 Number_round_trip binary.LittleEndian T_int32
                 [x01; x02; x03; x04]).
    reflexivity.
Defined.

(** The layout of the spec's scenario: [0x01020304] as a [uint32]. *)
Example Number_uint32_layout :
  BinaryWriter.w (state_of (BinaryWriter.Number
                              (fresh_writer binary.LittleEndian)
                              (Num (Uint32 0x01020304))))
  = [x04; x03; x02; x01]
  /\ BinaryWriter.w (state_of (BinaryWriter.Number
                                 (fresh_writer binary.BigEndian)
                                 (Num (Uint32 0x01020304))))
     = [x01; x02; x03; x04].
Proof. split; vm_compute; reflexivity. Qed.

(** The layouts of a few floats, big-endian: a signalling NaN and the
    positive infinity of [float32], and [1.0] and [-0.0] of [float64]. *)
Example Number_float_layouts :
  let written x :=
      BinaryWriter.w (state_of (BinaryWriter.Number
                                  (fresh_writer binary.BigEndian) (Num x))) in
  written (Float32 (math.mkFloat false 255 0x200001))
  = [x7f; xa0; x00; x01] /\
  written (Float32 (math.mkFloat false 255 0)) = [x7f; x80; x00; x00] /\
  written (Float64 (math.mkFloat false 1023 0))
  = [x3f; xf0; x00; x00; x00; x00; x00; x00] /\
  written (Float64 (math.mkFloat true 0 0))
  = [x80; x00; x00; x00; x00; x00; x00; x00].
Proof. repeat split; vm_compute; reflexivity. Qed.

(** The boundary values of the integer types, both orders: what is read
    back is what was written. *)
Example Number_boundaries :
  forallb
    (fun o =>
       forallb
         (fun x =>
            match BinaryWriter.Number (fresh_writer o) (Num x) with
            | Return false c =>
              match BinaryReader.Number (fresh_reader o (BinaryWriter.w c))
                                        (Ptr (typeof x) false) with
              | Return (false, Some y) _ =>
                match x, y with
                | Int8 a, Int8 b | Uint8 a, Uint8 b
                | Int16 a, Int16 b | Uint16 a, Uint16 b
                | Int32 a, Int32 b | Uint32 a, Uint32 b
                | Int64 a, Int64 b | Uint64 a, Uint64 b => a =? b
                | _, _ => false
                end
              | _ => false
              end
            | _ => false
            end)
         [Int8 0; Int8 127; Int8 (-128); Int8 (-1);
          Uint8 0; Uint8 255;
          Int16 0; Int16 32767; Int16 (-32768); Int16 (-1);
          Uint16 0; Uint16 65535;
          Int32 0; Int32 2147483647; Int32 (-2147483648); Int32 (-1);
          Uint32 0; Uint32 4294967295;
          Int64 0; Int64 9223372036854775807;
          Int64 (-9223372036854775808); Int64 (-1);
          Uint64 0; Uint64 18446744073709551615])
    [binary.LittleEndian; binary.BigEndian]
  = true.
Proof. vm_compute. reflexivity. Qed.

(** ** Sticky faults *)

Lemma BinaryReader_sticky (c : BinaryReader.t) (op : BinaryReaderCalls.call) :
  BinaryReader.err c <> None ->
  BinaryReaderCalls.run c op = Return (BinaryReaderCalls.failure op) c.
Proof.
  intros Hc. destruct op; cbn [BinaryReaderCalls.run BinaryReaderCalls.failure];
    unfold BinaryReader.Add, BinaryReader.Bytes, BinaryReader.Number,
      BinaryReader.All;
    destruct (BinaryReader.err c); first [contradiction | reflexivity].
Qed.

Lemma BinaryReader_sticky_after (c : BinaryReader.t)
      (ops : list BinaryReaderCalls.call) :
  BinaryReader.err c <> None -> BinaryReaderCalls.after c ops = c.
Proof.
  intros Hc. induction ops as [|op ops IH]; [reflexivity|].
  unfold BinaryReaderCalls.after in *. cbn [fold_left].
  rewrite BinaryReader_sticky by exact Hc. exact IH.
Qed.

Section WriterSticky.

Context {W : Type} `{io.Writer W}.

Lemma BinaryWriter_sticky (c : BinaryWriter.t W)
      (op : BinaryWriterCalls.call) :
  BinaryWriter.err c <> None -> BinaryWriterCalls.run c op = Return true c.
Proof.
  intros Hc. destruct op; cbn [BinaryWriterCalls.run];
    unfold BinaryWriter.Add, BinaryWriter.Bytes, BinaryWriter.Number;
    destruct (BinaryWriter.err c); first [contradiction | reflexivity].
Qed.

Lemma BinaryWriter_sticky_after (c : BinaryWriter.t W)
      (ops : list BinaryWriterCalls.call) :
  BinaryWriter.err c <> None -> BinaryWriterCalls.after c ops = c.
Proof.
  intros Hc. induction ops as [|op ops IH]; [reflexivity|].
  unfold BinaryWriterCalls.after in *. cbn [fold_left].
  rewrite BinaryWriter_sticky by exact Hc. exact IH.
Qed.

End WriterSticky.

Lemma TextReader_sticky (c : TextReader.t) (op : TextReaderCalls.call) :
  TextReader.err c <> None ->
  TextReaderCalls.run c op = Some (TextReaderCalls.failure op, c).
Proof.
  intros Hc. destruct op; cbn [TextReaderCalls.run TextReaderCalls.failure];
    unfold TextReader.Next, TextReader.MustNext, TextReader.Is,
      TextReader.IsAny, TextReader.Skip, TextReader.Until,
      TextReader.UntilAny, TextReader.UntilEOF;
    destruct (TextReader.err c); first [contradiction | reflexivity].
Qed.

Lemma TextReader_sticky_after (c : TextReader.t)
      (ops : list TextReaderCalls.call) :
  TextReader.err c <> None -> TextReaderCalls.after c ops = c.
Proof.
  intros Hc. induction ops as [|op ops IH]; [reflexivity|].
  unfold TextReaderCalls.after in *. cbn [fold_left].
  rewrite TextReader_sticky by exact Hc. exact IH.
Qed.

Lemma BinaryReader_SetByteOrder_frame (c : BinaryReader.t)
      (order : option binary.ByteOrder) :
  let c' := state_of (BinaryReader.SetByteOrder c order) in
  BinaryReader.r c' = BinaryReader.r c /\
  BinaryReader.n c' = BinaryReader.n c /\
  BinaryReader.err c' = BinaryReader.err c.
Proof. destruct order; cbn; auto. Qed.

Lemma BinaryWriter_SetByteOrder_frame {W : Type} (c : BinaryWriter.t W)
      (order : option binary.ByteOrder) :
  let c' := state_of (BinaryWriter.SetByteOrder c order) in
  BinaryWriter.w c' = BinaryWriter.w c /\
  BinaryWriter.n c' = BinaryWriter.n c /\
  BinaryWriter.err c' = BinaryWriter.err c.
Proof. destruct order; cbn; auto. Qed.

Lemma TextReader_IsEOF_after_fault (c : TextReader.t) (e : error) :
  TextReader.err c = Some e -> TextReader.IsEOF c = (is_EOF e, c).
Proof. intros Hc. unfold TextReader.IsEOF. rewrite Hc. reflexivity. Qed.

(** C1.  Sticky fault.  On each of the three cursors, once [err] holds a
    fault, whatever calls [ops] are made afterwards leave the cursor exactly
    as it is (the source or sink, the count [n] and the fault included),
    and any further call [op] returns its failure value: [true] from the
    binary reader and writer, [-1], [false] or [("", false)] from the text
    reader.  The calls are all the methods that report failure; of the
    others, [SetByteOrder] touches neither the source or sink nor the count
    nor the fault, and [IsEOF] only tells whether the fault is [io.EOF]. *)
Theorem sticky_fault :
  (forall (c : BinaryReader.t) (ops : list BinaryReaderCalls.call)
          (op : BinaryReaderCalls.call) (order : option binary.ByteOrder),
      BinaryReader.err c <> None ->
      BinaryReaderCalls.after c ops = c /\
      BinaryReaderCalls.run (BinaryReaderCalls.after c ops) op
      = Return (BinaryReaderCalls.failure op) c /\
      (let c' := state_of (BinaryReader.SetByteOrder c order) in
       BinaryReader.r c' = BinaryReader.r c /\
       BinaryReader.n c' = BinaryReader.n c /\
       BinaryReader.err c' = BinaryReader.err c))
  /\
  (forall (W : Type) (Wr : io.Writer W) (c : BinaryWriter.t W)
          (ops : list BinaryWriterCalls.call) (op : BinaryWriterCalls.call)
          (order : option binary.ByteOrder),
      BinaryWriter.err c <> None ->
      BinaryWriterCalls.after c ops = c /\
      BinaryWriterCalls.run (BinaryWriterCalls.after c ops) op
      = Return true c /\
      (let c' := state_of (BinaryWriter.SetByteOrder c order) in
       BinaryWriter.w c' = BinaryWriter.w c /\
       BinaryWriter.n c' = BinaryWriter.n c /\
       BinaryWriter.err c' = BinaryWriter.err c))
  /\
  (forall (c : TextReader.t) (ops : list TextReaderCalls.call)
          (op : TextReaderCalls.call),
      TextReader.err c <> None ->
      TextReaderCalls.after c ops = c /\
      TextReaderCalls.run (TextReaderCalls.after c ops) op
      = Some (TextReaderCalls.failure op, c) /\
      snd (TextReader.IsEOF c) = c).
Proof.
  split; [|split].
  - intros c ops op order Hc.
    rewrite BinaryReader_sticky_after by exact Hc.
    split; [reflexivity|]. split; [apply BinaryReader_sticky, Hc|].
    apply BinaryReader_SetByteOrder_frame.
  - intros W Wr c ops op order Hc.
    rewrite BinaryWriter_sticky_after by exact Hc.
    split; [reflexivity|]. split; [apply BinaryWriter_sticky, Hc|].
    apply BinaryWriter_SetByteOrder_frame.
  - intros c ops op Hc. rewrite TextReader_sticky_after by exact Hc.
    split; [reflexivity|]. split; [apply TextReader_sticky, Hc|].
    destruct (TextReader.err c) as [e|] eqn:He; [|contradiction].
    rewrite (TextReader_IsEOF_after_fault c e He). reflexivity.
Qed.

(** ** Runes and the loops of the text reader *)

(** The decoder on the encodings of U+00E9, U+20AC and U+1D11E, and on an
    overlong form, an encoded surrogate, a value past U+10FFFF and a
    truncated sequence, which all decode to [RuneError] with width 1. *)
Example DecodeRune_samples :
  utf8.DecodeRune [xc3; xa9; x3b] = (0xE9, 2) /\
  utf8.DecodeRune [xe2; x82; xac] = (0x20AC, 3) /\
  utf8.DecodeRune [xf0; x9d; x84; x9e] = (0x1D11E, 4) /\
  utf8.DecodeRune [xc0; x80] = (utf8.RuneError, 1) /\
  utf8.DecodeRune [xed; xa0; x80] = (utf8.RuneError, 1) /\
  utf8.DecodeRune [xf4; x90; x80; x80] = (utf8.RuneError, 1) /\
  utf8.DecodeRune [xe2; x82] = (utf8.RuneError, 1).
Proof. repeat split. Qed.

Example AppendRune_samples :
  utf8.AppendRune 0xE9 = [xc3; xa9] /\
  utf8.AppendRune 0x20AC = [xe2; x82; xac] /\
  utf8.AppendRune 0x1D11E = [xf0; x9d; x84; x9e] /\
  utf8.AppendRune 0xD800 = [xef; xbf; xbd] /\
  utf8.AppendRune (-1) = [xef; xbf; xbd].
Proof. repeat split. Qed.

Lemma DecodeRune_width (p : list byte) (x : rune) (w : Z) :
  p <> [] -> utf8.DecodeRune p = (x, w) -> 1 <= w <= len p.
Proof.
  intros Hp H. unfold len.
  destruct p as [|p0 [|p1 [|p2 [|p3 tl]]]]; [contradiction| | | |];
    unfold utf8.DecodeRune in H;
    destruct (utf8.first (Z_of_byte p0));
    repeat match type of H with
           | context [if ?b then _ else _] => destruct b
           end;
    injection H as _ <-; cbn [List.length]; lia.
Qed.

Lemma ReadRune_some (b : bufio.Reader) (x : rune) (w : Z) :
  bufio.pending b <> [] ->
  utf8.DecodeRune (bufio.pending b) = (x, w) ->
  bufio.ReadRune b
  = ((x, w, None),
     bufio.advance b (Z.to_nat w) (firstn (Z.to_nat w) (bufio.pending b))).
Proof.
  intros Hp Hd. unfold bufio.ReadRune.
  destruct (bufio.pending b) eqn:E; [contradiction|].
  rewrite Hd. reflexivity.
Qed.

Lemma ReadRune_none (b : bufio.Reader) :
  bufio.pending b = [] ->
  bufio.ReadRune b
  = ((0, 0, Some (io.fail (bufio.rd b))),
     bufio.mkReader (bufio.rd b) (bufio.size b) []).
Proof. intros Hp. unfold bufio.ReadRune. rewrite Hp. reflexivity. Qed.

Lemma skipn_rune_shorter (p : list byte) (x : rune) (w : Z) :
  p <> [] -> utf8.DecodeRune p = (x, w) ->
  (List.length (skipn (Z.to_nat w) p) < List.length p)%nat.
Proof.
  intros Hp Hd. pose proof (DecodeRune_width p x w Hp Hd) as Hw.
  unfold len in Hw. rewrite length_skipn. lia.
Qed.

Lemma pending_advance (b : bufio.Reader) (k : nat) (l : list byte) :
  bufio.pending (bufio.advance b k l) = skipn k (bufio.pending b).
Proof. reflexivity. Qed.

Lemma spelled_cons (x : rune) (w : Z) (xs : list (rune * Z)) :
  spelled ((x, w) :: xs) = utf8.AppendRune x ++ spelled xs.
Proof. reflexivity. Qed.

(** The loop of [UntilAny] on a stream whose runes [pre] all fail [f] and
    are followed by a rune [m] that satisfies it: the rune [m] has been
    taken off the stream, and the count has moved by the widths of [pre]
    only. *)
Lemma UntilAny_loop_found (f : rune -> bool) (p mid : list byte)
      (pre : list (rune * Z)) (m : rune) (w : Z) :
  reads p pre mid -> none_satisfies f pre ->
  mid <> [] -> utf8.DecodeRune mid = (m, w) -> f m = true ->
  forall (fuel : nat) (c : TextReader.t),
    TextReader.pending c = p -> (List.length p < fuel)%nat ->
    TextReader.UntilAny_loop fuel c f
    = Some ((TextReader.buf c ++ spelled pre, true),
            TextReader.mk
              (bufio.mkReader
                 (io.mkReader (skipn (Z.to_nat w) mid)
                              (io.fail (bufio.rd (TextReader.r c))))
                 (bufio.size (TextReader.r c))
                 (firstn (Z.to_nat w) mid))
              (TextReader.buf c ++ spelled pre)
              (counted (TextReader.n c) pre)
              None).
Proof.
  intros Hreads.
  induction Hreads as [p | p x w0 xs rest Hp Hx Hreads IH];
    intros Hpre Hmid Hd Hf fuel c Hc Hfuel;
    (destruct fuel as [|fuel]; [lia|]); cbn [TextReader.UntilAny_loop];
    unfold TextReader.pending in Hc.
  - rewrite (ReadRune_some _ m w) by (rewrite Hc; assumption).
    cbn [TextReader.err TextReader.r TextReader.buf TextReader.n].
    rewrite Hf. unfold spelled, counted. cbn [map List.concat fold_left].
    rewrite app_nil_r. unfold bufio.advance. rewrite Hc. reflexivity.
  - apply Forall_cons_iff in Hpre. destruct Hpre as [Hfx Hxs].
    cbn [fst] in Hfx.
    rewrite (ReadRune_some _ x w0) by (rewrite Hc; assumption).
    cbn [TextReader.err TextReader.r TextReader.buf TextReader.n].
    rewrite Hfx.
    rewrite (IH Hxs Hmid Hd Hf).
    + cbn [TextReader.buf TextReader.n TextReader.r bufio.advance
           bufio.rd bufio.size io.fail].
      rewrite spelled_cons, <- app_assoc. reflexivity.
    + unfold TextReader.pending. cbn [TextReader.r].
      rewrite pending_advance, Hc. reflexivity.
    + pose proof (skipn_rune_shorter _ x w0 Hp Hx). lia.
Qed.

(** The same loop on a stream that ends before any rune satisfies [f]. *)
Lemma UntilAny_loop_eof (f : rune -> bool) (p rest : list byte)
      (pre : list (rune * Z)) :
  reads p pre rest -> rest = [] -> none_satisfies f pre ->
  forall (fuel : nat) (c : TextReader.t),
    TextReader.pending c = p -> (List.length p < fuel)%nat ->
    TextReader.UntilAny_loop fuel c f
    = Some (([], false),
            TextReader.mk
              (bufio.mkReader
                 (io.mkReader [] (io.fail (bufio.rd (TextReader.r c))))
                 (bufio.size (TextReader.r c)) [])
              (TextReader.buf c ++ spelled pre)
              (counted (TextReader.n c) pre)
              (Some (if is_EOF (io.fail (bufio.rd (TextReader.r c)))
                     then io_ErrUnexpectedEOF
                     else io.fail (bufio.rd (TextReader.r c))))).
Proof.
  intros Hreads.
  induction Hreads as [p | p x w0 xs rest Hp Hx Hreads IH];
    intros Hrest Hpre fuel c Hc Hfuel;
    (destruct fuel as [|fuel]; [lia|]); cbn [TextReader.UntilAny_loop];
    unfold TextReader.pending in Hc.
  - subst p. rewrite ReadRune_none by exact Hc.
    cbn [TextReader.err TextReader.r TextReader.buf TextReader.n].
    unfold spelled, counted. cbn [map List.concat fold_left].
    rewrite app_nil_r.
    destruct (TextReader.r c) as [[d e] sz l]. cbn in Hc. subst d.
    destruct e; reflexivity.
  - apply Forall_cons_iff in Hpre. destruct Hpre as [Hfx Hxs].
    cbn [fst] in Hfx.
    rewrite (ReadRune_some _ x w0) by (rewrite Hc; assumption).
    cbn [TextReader.err TextReader.r TextReader.buf TextReader.n].
    rewrite Hfx.
    rewrite (IH Hrest Hxs).
    + cbn [TextReader.buf TextReader.n TextReader.r bufio.advance
           bufio.rd bufio.size io.fail].
      rewrite spelled_cons, <- app_assoc. reflexivity.
    + unfold TextReader.pending. cbn [TextReader.r].
      rewrite pending_advance, Hc. reflexivity.
    + pose proof (skipn_rune_shorter _ x w0 Hp Hx). lia.
Qed.

(** [Until(v)] runs the loop of [UntilAny] with the test [c == v]. *)
Lemma Until_loop_UntilAny_loop (v : rune) (fuel : nat) (c : TextReader.t) :
  TextReader.Until_loop fuel c v
  = TextReader.UntilAny_loop fuel c (fun x => x =? v).
Proof.
  revert c. induction fuel as [|fuel IH]; intros c; [reflexivity|].
  cbn [TextReader.Until_loop TextReader.UntilAny_loop].
  destruct (bufio.ReadRune (TextReader.r c)) as [[[x w] e] br].
  cbn [TextReader.err]. destruct e; [reflexivity|].
  destruct (x =? v); [reflexivity|]. apply IH.
Qed.

(** Every stream either holds a rune that satisfies [f] after runes that
    do not, or ends without one. *)
Lemma reads_cases (f : rune -> bool) (p : list byte) :
  (exists pre mid m w,
      reads p pre mid /\ none_satisfies f pre /\
      mid <> [] /\ utf8.DecodeRune mid = (m, w) /\ f m = true)
  \/ (exists pre, reads p pre [] /\ none_satisfies f pre).
Proof.
  remember (List.length p) as k eqn:Hk. revert p Hk.
  induction k as [k IH] using lt_wf_ind. intros p Hk.
  destruct p as [|b p'] eqn:Ep.
  - right. exists []. split; constructor.
  - rewrite <- Ep in *. assert (p <> []) as Hp by (rewrite Ep; discriminate).
    clear Ep. destruct (utf8.DecodeRune p) as [x w] eqn:Hd.
    destruct (f x) eqn:Hf.
    + left. exists [], p, x, w. repeat split; try assumption; constructor.
    + pose proof (skipn_rune_shorter p x w Hp Hd) as Hlt.
      destruct (IH _ ltac:(subst k; exact Hlt) _ eq_refl)
        as [(pre & mid & m & w' & Hr & Hn & Hm & Hd' & Hf')|(pre & Hr & Hn)].
      * left. exists ((x, w) :: pre), mid, m, w'.
        repeat split; try assumption.
        -- econstructor; eassumption.
        -- constructor; assumption.
      * right. exists ((x, w) :: pre). split.
        -- econstructor; eassumption.
        -- constructor; assumption.
Qed.

(** The loops never run out of the fuel that the methods give them. *)
Lemma UntilAny_total (c : TextReader.t) (f : rune -> bool) :
  TextReader.UntilAny c f <> None.
Proof.
  unfold TextReader.UntilAny. destruct (TextReader.err c); [discriminate|].
  destruct (reads_cases f (TextReader.pending c))
    as [(pre & mid & m & w & Hr & Hn & Hm & Hd & Hf)|(pre & Hr & Hn)].
  - erewrite UntilAny_loop_found; try eassumption;
      [discriminate | reflexivity | unfold TextReader.enough; cbn; lia].
  - erewrite UntilAny_loop_eof; try eassumption;
      [discriminate | reflexivity | reflexivity
       | unfold TextReader.enough; cbn; lia].
Qed.

Lemma Until_total (c : TextReader.t) (v : rune) :
  TextReader.Until c v <> None.
Proof.
  pose proof (UntilAny_total c (fun x => x =? v)) as H.
  unfold TextReader.Until, TextReader.UntilAny in *.
  destruct (TextReader.err c); [discriminate|].
  rewrite Until_loop_UntilAny_loop. exact H.
Qed.

Lemma IsAny_loop_total (f : rune -> bool) (fuel : nat) (c : TextReader.t) :
  (List.length (TextReader.pending c) < fuel)%nat ->
  TextReader.IsAny_loop fuel c f <> None.
Proof.
  revert c. induction fuel as [|fuel IH]; intros c Hfuel; [lia|].
  cbn [TextReader.IsAny_loop]. unfold TextReader.pending in Hfuel.
  destruct (bufio.pending (TextReader.r c)) as [|b0 tl] eqn:Ep.
  - rewrite ReadRune_none by exact Ep. cbn [TextReader.err].
    destruct (is_EOF _); discriminate.
  - destruct (utf8.DecodeRune (bufio.pending (TextReader.r c)))
      as [x w] eqn:Hd.
    assert (bufio.pending (TextReader.r c) <> []) as Hp
        by (rewrite Ep; discriminate).
    rewrite (ReadRune_some _ x w Hp Hd). cbn [TextReader.err TextReader.r].
    destruct (f x); cbn [negb].
    + apply IH. unfold TextReader.pending. cbn [TextReader.r].
      rewrite pending_advance.
      pose proof (skipn_rune_shorter _ x w Hp Hd). rewrite Ep in *. lia.
    + destruct (bufio.UnreadRune _). discriminate.
Qed.

Lemma IsAny_total (c : TextReader.t) (f : rune -> bool) :
  TextReader.IsAny c f <> None.
Proof.
  unfold TextReader.IsAny. destruct (TextReader.err c); [discriminate|].
  apply IsAny_loop_total. unfold TextReader.enough, TextReader.pending.
  cbn [TextReader.r]. lia.
Qed.

Lemma Skip_loop_total (f : rune -> bool) (fuel : nat) (c : TextReader.t) :
  (List.length (TextReader.pending c) < fuel)%nat ->
  TextReader.Skip_loop fuel c f <> None.
Proof.
  revert c. induction fuel as [|fuel IH]; intros c Hfuel; [lia|].
  cbn [TextReader.Skip_loop]. unfold TextReader.pending in Hfuel.
  destruct (bufio.pending (TextReader.r c)) as [|b0 tl] eqn:Ep.
  - rewrite ReadRune_none by exact Ep. cbn [TextReader.err].
    destruct (is_EOF _); discriminate.
  - destruct (utf8.DecodeRune (bufio.pending (TextReader.r c)))
      as [x w] eqn:Hd.
    assert (bufio.pending (TextReader.r c) <> []) as Hp
        by (rewrite Ep; discriminate).
    rewrite (ReadRune_some _ x w Hp Hd). cbn [TextReader.err TextReader.r].
    destruct (f x); cbn [negb].
    + apply IH. unfold TextReader.pending. cbn [TextReader.r].
      rewrite pending_advance.
      pose proof (skipn_rune_shorter _ x w Hp Hd). rewrite Ep in *. lia.
    + destruct (bufio.UnreadRune _). discriminate.
Qed.

Lemma Skip_total (c : TextReader.t) (f : rune -> bool) :
  TextReader.Skip c f <> None.
Proof.
  unfold TextReader.Skip. destruct (TextReader.err c); [discriminate|].
  apply Skip_loop_total. unfold TextReader.enough. lia.
Qed.

(** Every call of the text reader returns: no loop runs out of fuel. *)
Lemma TextReader_run_total (c : TextReader.t) (op : TextReaderCalls.call) :
  TextReaderCalls.run c op <> None.
Proof.
  destruct op; cbn [TextReaderCalls.run].
  - destruct (TextReader.Next c). discriminate.
  - destruct (TextReader.MustNext c). discriminate.
  - destruct (TextReader.Is c s). discriminate.
  - pose proof (IsAny_total c f).
    destruct (TextReader.IsAny c f); [discriminate | contradiction].
  - pose proof (Skip_total c f).
    destruct (TextReader.Skip c f); [discriminate | contradiction].
  - pose proof (Until_total c v).
    destruct (TextReader.Until c v); [discriminate | contradiction].
  - pose proof (UntilAny_total c f).
    destruct (TextReader.UntilAny c f); [discriminate | contradiction].
  - discriminate.
Qed.

(** ** Until and UntilAny *)

(** [Until(v)] on a stream whose runes [pre] differ from [v] and are
    followed by [v]: the result spells [pre], the stream stands after the
    terminator, and the count has moved by the widths of [pre] only. *)
Lemma Until_found (c : TextReader.t) (v : rune) (pre : list (rune * Z))
      (mid : list byte) (w : Z) :
  TextReader.err c = None ->
  reads (TextReader.pending c) pre mid ->
  none_satisfies (fun x => x =? v) pre ->
  mid <> [] -> utf8.DecodeRune mid = (v, w) ->
  exists c' : TextReader.t,
    TextReader.Until c v = Some ((spelled pre, true), c') /\
    TextReader.pending c' = skipn (Z.to_nat w) mid /\
    TextReader.N c' = counted (TextReader.N c) pre /\
    TextReader.Err c' = None.
Proof.
  intros Hc Hr Hn Hm Hd. unfold TextReader.Until. rewrite Hc.
  rewrite Until_loop_UntilAny_loop.
  erewrite UntilAny_loop_found; try eassumption.
  - eexists. split; [reflexivity|]. repeat split.
  - apply Z.eqb_refl.
  - reflexivity.
  - unfold TextReader.enough, TextReader.pending. cbn [TextReader.r]. lia.
Qed.

(** [Until(v)] on a stream that ends cleanly without [v] fails and latches
    [io.ErrUnexpectedEOF]. *)
Lemma Until_eof (c : TextReader.t) (v : rune) (pre : list (rune * Z)) :
  TextReader.err c = None ->
  reads (TextReader.pending c) pre [] ->
  none_satisfies (fun x => x =? v) pre ->
  io.fail (bufio.rd (TextReader.r c)) = io_EOF ->
  exists c' : TextReader.t,
    TextReader.Until c v = Some (([], false), c') /\
    TextReader.Err c' = Some io_ErrUnexpectedEOF.
Proof.
  intros Hc Hr Hn He. unfold TextReader.Until. rewrite Hc.
  rewrite Until_loop_UntilAny_loop.
  erewrite UntilAny_loop_eof; try eassumption.
  - eexists. split; [reflexivity|].
    unfold TextReader.Err. cbn [TextReader.err TextReader.r].
    rewrite He. reflexivity.
  - reflexivity.
  - reflexivity.
  - unfold TextReader.enough, TextReader.pending. cbn [TextReader.r]. lia.
Qed.

(** C3.  [Until(';')] on the stream ["abc;def"] returns ["abc"] and leaves
    the stream at ["def"], so the four bytes ["abc;"] have been consumed;
    the count [N] nevertheless is 3, not 4: the terminator is read but not
    counted. *)
Theorem Until_abc_def_counts_3 :
  exists c' : TextReader.t,
    TextReader.Until (text "abc;def") 59 = Some ((bytes "abc", true), c') /\
    TextReader.pending c' = bytes "def" /\
    TextReader.Err c' = None /\
    TextReader.N c' = 3 /\
    TextReader.N c' <> len (bytes "abc;").
Proof.
  eexists. split; [vm_compute; reflexivity|].
  repeat split. vm_compute. discriminate.
Qed.

(** What [UntilAny(f)] does on a cursor without a fault, for every stream
    and predicate.  When the stream holds runes [pre] that fail [f]
    followed by a rune [m] that satisfies it, the call returns the spelling
    of [pre] (without [m]) and [true], and [m] has been taken off the
    stream: the stream stands after [m], and the next read returns the
    rune that follows [m].  When the stream ends cleanly before any rune
    satisfies [f], the call returns [("", false)] and latches
    [io.ErrUnexpectedEOF]. *)
Lemma UntilAny_found_or_eof (c : TextReader.t) (f : rune -> bool) :
  TextReader.err c = None ->
  (forall (pre : list (rune * Z)) (mid : list byte) (m : rune) (w : Z),
      reads (TextReader.pending c) pre mid ->
      none_satisfies f pre ->
      mid <> [] -> utf8.DecodeRune mid = (m, w) -> f m = true ->
      exists c' : TextReader.t,
        TextReader.UntilAny c f = Some ((spelled pre, true), c') /\
        TextReader.pending c' = skipn (Z.to_nat w) mid /\
        TextReader.N c' = counted (TextReader.N c) pre /\
        TextReader.Err c' = None /\
        (forall (x : rune) (wx : Z),
            TextReader.pending c' <> [] ->
            utf8.DecodeRune (TextReader.pending c') = (x, wx) ->
            fst (TextReader.Next c') = x))
  /\
  (forall pre : list (rune * Z),
      reads (TextReader.pending c) pre [] ->
      none_satisfies f pre ->
      io.fail (bufio.rd (TextReader.r c)) = io_EOF ->
      exists c' : TextReader.t,
        TextReader.UntilAny c f = Some (([], false), c') /\
        TextReader.Err c' = Some io_ErrUnexpectedEOF).
Proof.
  intros Hc. split.
  - intros pre mid m w Hr Hn Hm Hd Hf. unfold TextReader.UntilAny.
    rewrite Hc. erewrite UntilAny_loop_found; try eassumption.
    + eexists. split; [reflexivity|]. split; [reflexivity|].
      split; [reflexivity|]. split; [reflexivity|].
      intros x wx Hp Hx. unfold TextReader.Next.
      cbn [TextReader.err TextReader.r].
      unfold TextReader.pending in Hp, Hx. cbn [TextReader.r] in Hp, Hx.
      rewrite (ReadRune_some _ x wx Hp Hx). reflexivity.
    + reflexivity.
    + unfold TextReader.enough, TextReader.pending. cbn [TextReader.r]. lia.
  - intros pre Hr Hn He. unfold TextReader.UntilAny. rewrite Hc.
    erewrite UntilAny_loop_eof; try eassumption.
    + eexists. split; [reflexivity|].
      unfold TextReader.Err. cbn [TextReader.err TextReader.r].
      rewrite He. reflexivity.
    + reflexivity.
    + reflexivity.
    + unfold TextReader.enough, TextReader.pending. cbn [TextReader.r]. lia.
Qed.

(** C4.  [UntilAny] with the predicate "is a semicolon" on the stream
    ["abc;def"] returns ["abc"] without the [';'], but the [';'] is not left
    for the next read: it has been taken off the stream, which stands at
    ["def"], and the next read returns ['d'].  The count is 3 all the same,
    as if the [';'] had been left. *)
Theorem UntilAny_abc_def_takes_semicolon :
  exists c' : TextReader.t,
    TextReader.UntilAny (text "abc;def") is_semicolon
    = Some ((bytes "abc", true), c') /\
    TextReader.pending c' = bytes "def" /\
    fst (TextReader.Next c') = 100 /\
    is_semicolon (fst (TextReader.Next c')) = false /\
    TextReader.N c' = 3.
Proof.
  eexists. split; [vm_compute; reflexivity|]. repeat split.
Qed.

(** ** Short reads *)

(** C5, as stated, fails on an empty source: the fault that a 10-byte read
    latches there is the plain [io.EOF], not [io.ErrUnexpectedEOF]. *)
Lemma Bytes_empty_source_plain_EOF :
  let '((failed, _), c') :=
      BinaryReader.Bytes (BinaryReader.NewBinaryReader (clean ""))
                         (repeat x00 10) in
  failed = true /\ BinaryReader.Err c' = Some io_EOF /\
  BinaryReader.Err c' <> Some io_ErrUnexpectedEOF.
Proof. vm_compute. repeat split. discriminate. Qed.

(** C5, amended.  On a reader without a fault whose source holds fewer
    than [len(p)] bytes, [Bytes(p)] fails, never with a partial success.
    The fault it latches is [io.ErrUnexpectedEOF] when the source ended
    cleanly after at least one byte, the plain [io.EOF] when it ended
    cleanly with no byte at all, and the source's own error when the source
    broke.  The bytes obtained are in the front of [p], the source is
    exhausted, and [N] has grown by exactly the number of bytes obtained
    (within the range of [int64]). *)
Theorem Bytes_short_read (c : BinaryReader.t) (p : list byte) :
  BinaryReader.err c = None ->
  len (io.data (BinaryReader.r c)) < len p ->
  exists c' : BinaryReader.t,
    BinaryReader.Bytes c p
    = ((true,
        io.data (BinaryReader.r c)
          ++ skipn (List.length (io.data (BinaryReader.r c))) p), c') /\
    BinaryReader.Err c'
    = Some (match io.data (BinaryReader.r c) with
            | [] => io.fail (BinaryReader.r c)
            | _ :: _ =>
              if is_EOF (io.fail (BinaryReader.r c))
              then io_ErrUnexpectedEOF
              else io.fail (BinaryReader.r c)
            end) /\
    io.data (BinaryReader.r c') = [] /\
    BinaryReader.N c'
    = int64 (BinaryReader.N c + len (io.data (BinaryReader.r c))) /\
    (- 2 ^ 63 <= BinaryReader.N c ->
     BinaryReader.N c + len (io.data (BinaryReader.r c)) < 2 ^ 63 ->
     BinaryReader.N c'
     = BinaryReader.N c + len (io.data (BinaryReader.r c))).
Proof.
  intros Hc Hlen. unfold BinaryReader.Bytes, io.ReadFull. rewrite Hc.
  unfold len in Hlen.
  destruct (Nat.leb_spec (List.length p)
                         (List.length (io.data (BinaryReader.r c))));
    [lia|].
  destruct (io.data (BinaryReader.r c)) as [|b0 d] eqn:Ed;
    cbn [List.length Nat.eqb BinaryReader.err]; eexists;
    (split; [reflexivity|]);
    unfold BinaryReader.Err, BinaryReader.N;
    cbn [BinaryReader.err BinaryReader.n BinaryReader.r io.data];
    rewrite int64_count;
    (repeat split; intros; apply int64_small; unfold len in *; lia).
Qed.

(** The scenario of the spec: a 10-byte read against a 6-byte stream fails
    with [io.ErrUnexpectedEOF] and [N] is 6. *)
Lemma Bytes_short_read_witness :
  exists c' : BinaryReader.t,
    BinaryReader.Bytes (BinaryReader.NewBinaryReader (clean "abcdef"))
                       (repeat x00 10)
    = ((true, bytes "abcdef" ++ repeat x00 4), c') /\
    BinaryReader.Err c' = Some io_ErrUnexpectedEOF /\
    io.data (BinaryReader.r c') = [] /\
    BinaryReader.N c' = 6.
Proof.
  destruct (Bytes_short_read
              (BinaryReader.NewBinaryReader (clean "abcdef"))
              (repeat x00 10) eq_refl eq_refl)
    as (c' & Hb & He & Hd & _ & Hn).
  exists c'. split; [exact Hb|]. split; [exact He|]. split; [exact Hd|].
  apply Hn; vm_compute; [discriminate | reflexivity].
Defined.

(** ** Is *)

Lemma bytes_eqb_eq (a b : list byte) : bytes_eqb a b = true <-> a = b.
Proof.
  unfold bytes_eqb. destruct (list_eq_dec Byte.byte_eq_dec a b);
    split; congruence.
Qed.

Lemma bytes_eqb_nil (s : list byte) : s <> [] -> bytes_eqb s [] = false.
Proof.
  intros Hs. destruct (bytes_eqb s []) eqn:E; [|reflexivity].
  apply bytes_eqb_eq in E. contradiction.
Qed.

(** What [Is(s)] does on a cursor without a fault, for a non-empty [s],
    in terms of the result of the peek. *)
Lemma Is_unfold (c : TextReader.t) (s : list byte) :
  TextReader.err c = None -> s <> [] ->
  TextReader.Is c s
  = let '((b, e), br) := bufio.Peek (TextReader.r c) (List.length s) in
    match e with
    | Some e =>
      (false,
       TextReader.mk br (TextReader.buf c) (TextReader.n c)
                     (if is_EOF e then None else Some e))
    | None =>
      if negb (bytes_eqb b s)
      then (false, TextReader.mk br (TextReader.buf c) (TextReader.n c) None)
      else
        (true,
         TextReader.mk (snd (bufio.Discard br (List.length s)))
                       (TextReader.buf c)
                       (int64 (TextReader.n c + int64 (len s))) None)
    end.
Proof.
  intros Hc Hs. unfold TextReader.Is. rewrite Hc, (bytes_eqb_nil s Hs).
  destruct (bufio.Peek (TextReader.r c) (List.length s)) as [[b e] br].
  cbn [TextReader.err TextReader.r TextReader.buf TextReader.n].
  destruct e as [e|].
  - destruct (is_EOF e); reflexivity.
  - destruct (negb (bytes_eqb b s)); [reflexivity|].
    destruct (bufio.Discard br (List.length s)). reflexivity.
Qed.

Lemma Peek_pending (b : bufio.Reader) (k : nat) :
  bufio.pending (snd (bufio.Peek b k)) = bufio.pending b.
Proof.
  unfold bufio.Peek.
  destruct (bufio.size b <? k)%nat; [reflexivity|].
  destruct (k <=? List.length (bufio.pending b))%nat; reflexivity.
Qed.

Lemma Peek_full (b : bufio.Reader) (k : nat) (got : list byte)
      (br : bufio.Reader) :
  bufio.Peek b k = ((got, None), br) ->
  got = firstn k (bufio.pending b) /\
  (k <= List.length (bufio.pending b))%nat /\
  bufio.pending br = bufio.pending b.
Proof.
  unfold bufio.Peek. intros H.
  destruct (bufio.size b <? k)%nat; [discriminate|].
  destruct (Nat.leb_spec k (List.length (bufio.pending b)));
    [|discriminate].
  injection H as <- <-. repeat split. assumption.
Qed.

(** The cursor that a peek leaves reads as the one it found: only the
    rune to give back is forgotten. *)
Lemma Peek_reader (b : bufio.Reader) (k : nat) :
  snd (bufio.Peek b k) = bufio.mkReader (bufio.rd b) (bufio.size b) [].
Proof.
  unfold bufio.Peek.
  destruct (bufio.size b <? k)%nat; [reflexivity|].
  destruct (k <=? List.length (bufio.pending b))%nat; reflexivity.
Qed.

Lemma ReadRune_after_Peek (b : bufio.Reader) :
  bufio.ReadRune (bufio.mkReader (bufio.rd b) (bufio.size b) [])
  = bufio.ReadRune b.
Proof. reflexivity. Qed.

(** A failing [Is] on a cursor without a fault leaves the cursor it found,
    up to the rune to give back, with the error of the peek unless that
    error is [io.EOF]. *)
Lemma Is_fails (c : TextReader.t) (s : list byte) :
  TextReader.err c = None ->
  fst (TextReader.Is c s) = false ->
  exists e : option error,
    snd (TextReader.Is c s)
    = TextReader.mk
        (bufio.mkReader (bufio.rd (TextReader.r c))
                        (bufio.size (TextReader.r c)) [])
        (TextReader.buf c) (TextReader.n c) e /\
    (e = None \/
     (e = Some bufio_ErrBufferFull /\
      (bufio.size (TextReader.r c) < List.length s)%nat) \/
     (e = Some (io.fail (bufio.rd (TextReader.r c))) /\
      io.fail (bufio.rd (TextReader.r c)) <> io_EOF)).
Proof.
  intros Hc Hf.
  destruct (list_eq_dec Byte.byte_eq_dec s []) as [->|Hs].
  { unfold TextReader.Is in Hf. rewrite Hc in Hf. discriminate Hf. }
  rewrite (Is_unfold c s Hc Hs) in *.
  pose proof (Peek_reader (TextReader.r c) (List.length s)) as Hr.
  unfold bufio.Peek in *.
  destruct (Nat.ltb_spec (bufio.size (TextReader.r c)) (List.length s))
    as [Hsz|Hsz].
  { cbn [snd is_EOF]. eexists. split; [reflexivity|].
    right. left. split; [reflexivity | exact Hsz]. }
  destruct (List.length s <=? List.length (bufio.pending (TextReader.r c)))%nat.
  - destruct (negb (bytes_eqb _ s)); [|discriminate Hf].
    cbn [snd]. eexists. split; [reflexivity|]. left. reflexivity.
  - cbn [snd]. destruct (io.fail (bufio.rd (TextReader.r c))) eqn:He;
      cbn [is_EOF]; eexists; (split; [reflexivity|]);
      first [left; reflexivity
            | right; right; split; [reflexivity | discriminate]].
Qed.

(** C6, as stated, fails in two ways.  After a failing [Is] the same bytes
    cannot always be read again: when the source breaks during the peek,
    the error stays latched and the read that returned ['G'] before the
    call returns [-1] after it.  And on a cursor with a latched fault,
    matching the empty string does not succeed. *)
Lemma Is_failing_blocks_rereading :
  (let c := TextReader.NewTextReader
              (inl (broken "GE" "connection reset")) in
   let c' := snd (TextReader.Is c (bytes "GET")) in
   fst (TextReader.Is c (bytes "GET")) = false /\
   TextReader.pending c' = TextReader.pending c /\
   fst (TextReader.Next c) = 71 /\
   fst (TextReader.Next c') = -1)
  /\
  (let c := snd (TextReader.Next (text "")) in
   TextReader.Err c = Some io_EOF /\ fst (TextReader.Is c []) <> true).
Proof. vm_compute. repeat split. discriminate. Qed.

(** C6, amended.  For every cursor and string [s]: a failing [Is(s)]
    leaves the bytes of the stream and the count as they were.  When the
    call leaves no fault on the cursor, the same bytes can be read again:
    [Next] and [UntilEOF] return after the call what they return before
    it; that is the case on a cursor without a fault whose source ends
    cleanly, for an [s] no longer than the buffer.  When it leaves a fault
    (one latched before the call, or an error of the peek other than
    [io.EOF]), the bytes are still in the stream but the next read fails
    with [-1].  A succeeding [Is(s)] takes exactly the bytes of [s] off the
    stream and adds [len(s)] to the count (within the range of [int64]);
    and on a cursor without a latched fault matching the empty string
    succeeds and changes nothing. *)
Theorem Is_frame (c : TextReader.t) (s : list byte) :
  (fst (TextReader.Is c s) = false ->
   TextReader.pending (snd (TextReader.Is c s)) = TextReader.pending c /\
   TextReader.N (snd (TextReader.Is c s)) = TextReader.N c /\
   (TextReader.Err (snd (TextReader.Is c s)) = None ->
    TextReader.Next (snd (TextReader.Is c s)) = TextReader.Next c /\
    TextReader.UntilEOF (snd (TextReader.Is c s)) = TextReader.UntilEOF c) /\
   (TextReader.Err (snd (TextReader.Is c s)) <> None ->
    TextReader.Next (snd (TextReader.Is c s))
    = (-1, snd (TextReader.Is c s))))
  /\
  (fst (TextReader.Is c s) = true ->
   TextReader.pending c = s ++ TextReader.pending (snd (TextReader.Is c s)) /\
   (- 2 ^ 63 <= TextReader.N c -> TextReader.N c + len s < 2 ^ 63 ->
    TextReader.N (snd (TextReader.Is c s)) = TextReader.N c + len s))
  /\
  (TextReader.err c = None -> TextReader.Is c [] = (true, c))
  /\
  (TextReader.err c = None ->
   io.fail (bufio.rd (TextReader.r c)) = io_EOF ->
   (List.length s <= bufio.size (TextReader.r c))%nat ->
   TextReader.Err (snd (TextReader.Is c s)) = None).
Proof.
  destruct (TextReader.err c) as [e|] eqn:Hc.
  { unfold TextReader.Is, TextReader.Err, TextReader.Next.
    rewrite Hc. cbn [fst snd]. rewrite Hc.
    repeat split; try discriminate. }
  split; [|split; [|split]].
  - intros Hf. destruct (Is_fails c s Hc Hf) as (e & -> & He).
    unfold TextReader.pending, TextReader.N, TextReader.Err.
    cbn [TextReader.r TextReader.n TextReader.err].
    split; [reflexivity|]. split; [reflexivity|]. split.
    + intros ->. unfold TextReader.Next, TextReader.UntilEOF.
      rewrite Hc.
      cbn [TextReader.err TextReader.r TextReader.buf TextReader.n
           bufio.rd bufio.size].
      rewrite ReadRune_after_Peek. split; reflexivity.
    + intros Hne. destruct e as [e|]; [|contradiction].
      reflexivity.
  - destruct (list_eq_dec Byte.byte_eq_dec s []) as [->|Hs].
    { unfold TextReader.Is. rewrite Hc. cbn [fst snd app len List.length].
      intros _. split; [reflexivity|]. intros. cbn. lia. }
    rewrite (Is_unfold c s Hc Hs).
    destruct (bufio.Peek (TextReader.r c) (List.length s))
      as [[b e] br] eqn:Hpeek.
    destruct e as [e|]; cbn [fst snd]; [discriminate|].
    destruct (bytes_eqb b s) eqn:Hb; cbn [negb fst snd]; [|discriminate].
    intros _. apply bytes_eqb_eq in Hb. subst b.
    apply Peek_full in Hpeek. destruct Hpeek as (Hgot & Hle & Hbr).
    split.
    + unfold TextReader.pending. cbn [TextReader.r].
      unfold bufio.Discard. rewrite Hbr.
      destruct (List.length s =? 0)%nat eqn:E0.
      { apply Nat.eqb_eq in E0. destruct s; [contradiction|discriminate]. }
      destruct (Nat.leb_spec (List.length s)
                             (List.length (bufio.pending (TextReader.r c))));
        [|lia].
      cbn [snd]. rewrite pending_advance, Hbr.
      rewrite Hgot at 1. symmetry. apply firstn_skipn.
    + intros Hlo Hhi. unfold TextReader.N in *. cbn [TextReader.n].
      rewrite int64_count. apply int64_small. unfold len in *. lia.
  - intros _. unfold TextReader.Is. rewrite Hc. reflexivity.
  - intros _ He Hsz.
    destruct (list_eq_dec Byte.byte_eq_dec s []) as [->|Hs].
    { unfold TextReader.Is. rewrite Hc. exact Hc. }
    rewrite (Is_unfold c s Hc Hs). unfold bufio.Peek, TextReader.Err.
    destruct (Nat.ltb_spec (bufio.size (TextReader.r c)) (List.length s));
      [lia|].
    destruct (List.length s <=? List.length (bufio.pending (TextReader.r c)))%nat.
    + destruct (negb (bytes_eqb _ s)); reflexivity.
    + rewrite He. reflexivity.
Qed.

(** The scenarios of the spec: [Is("GET")] against ["GET /x"] succeeds and
    advances by 3 bytes; against ["POST /x"] it fails and advances by 0,
    and the read that follows returns the ['P']. *)
Lemma Is_frame_witness :
  (fst (TextReader.Is (text "GET /x") (bytes "GET")) = true /\
   TextReader.pending (snd (TextReader.Is (text "GET /x") (bytes "GET")))
   = bytes " /x" /\
   TextReader.N (snd (TextReader.Is (text "GET /x") (bytes "GET"))) = 3)
  /\
  (fst (TextReader.Is (text "POST /x") (bytes "GET")) = false /\
   TextReader.pending (snd (TextReader.Is (text "POST /x") (bytes "GET")))
   = bytes "POST /x" /\
   TextReader.N (snd (TextReader.Is (text "POST /x") (bytes "GET"))) = 0 /\
   TextReader.Next (snd (TextReader.Is (text "POST /x") (bytes "GET")))
   = TextReader.Next (text "POST /x") /\
   fst (TextReader.Next (text "POST /x")) = 80)
  /\
  TextReader.Is (text "GET /x") [] = (true, text "GET /x").
Proof.
  split; [|split].
  - destruct (proj1 (proj2 (Is_frame (text "GET /x") (bytes "GET")))
                    eq_refl) as [Hp Hn].
    split; [reflexivity|]. split.
    + apply (app_inv_head (bytes "GET")). symmetry. exact Hp.
    + apply Hn; vm_compute; [discriminate | reflexivity].
  - split; [reflexivity|].
    destruct (proj1 (Is_frame (text "POST /x") (bytes "GET")) eq_refl)
      as (Hp & Hn & Hagain & _).
    split; [exact Hp|]. split; [exact Hn|]. split; [|reflexivity].
    apply Hagain.
    apply (proj2 (proj2 (proj2 (Is_frame (text "POST /x") (bytes "GET")))));
      [reflexivity | reflexivity | vm_compute; lia].
  - apply (proj1 (proj2 (proj2 (Is_frame (text "GET /x") (bytes "GET"))))).
    reflexivity.
Defined.

(** C7, as stated, fails when the source breaks: the error that the peek
    returns stays latched in the cursor. *)
Lemma Is_latches_peek_error :
  let c := TextReader.NewTextReader (inl (broken "GE" "connection reset")) in
  fst (TextReader.Is c (bytes "GET")) = false /\
  TextReader.Err (snd (TextReader.Is c (bytes "GET")))
  = Some (errors_New "connection reset") /\
  TextReader.Err (snd (TextReader.Is c (bytes "GET"))) <> None.
Proof. vm_compute. repeat split. discriminate. Qed.

(** C7, amended.  When the peek of [Is(s)] returns an error, the call
    returns "no match" and leaves the stream and the count as they were;
    the fault is cleared only when the error is the clean [io.EOF]: any
    other error of the peek (an I/O error of the source, a pattern longer
    than the buffer) stays latched in the cursor. *)
Theorem Is_peek_error (c : TextReader.t) (s got : list byte) (e : error)
        (br : bufio.Reader) :
  TextReader.err c = None -> s <> [] ->
  bufio.Peek (TextReader.r c) (List.length s) = ((got, Some e), br) ->
  fst (TextReader.Is c s) = false /\
  TextReader.Err (snd (TextReader.Is c s))
  = (if is_EOF e then None else Some e) /\
  TextReader.pending (snd (TextReader.Is c s)) = TextReader.pending c /\
  TextReader.N (snd (TextReader.Is c s)) = TextReader.N c.
Proof.
  intros Hc Hs Hpeek. rewrite (Is_unfold c s Hc Hs).
  pose proof (Peek_pending (TextReader.r c) (List.length s)) as Hp.
  rewrite Hpeek in *. cbn [fst snd] in *.
  repeat split. exact Hp.
Qed.

(** A clean end during the peek leaves no fault; a source that breaks and
    a pattern longer than the buffer leave theirs. *)
Lemma Is_peek_error_witness :
  (fst (TextReader.Is (text "GE") (bytes "GET")) = false /\
   TextReader.Err (snd (TextReader.Is (text "GE") (bytes "GET"))) = None /\
   TextReader.pending (snd (TextReader.Is (text "GE") (bytes "GET")))
   = bytes "GE" /\
   TextReader.N (snd (TextReader.Is (text "GE") (bytes "GET"))) = 0)
  /\
  (let c := TextReader.NewTextReader (inl (broken "GE" "connection reset")) in
   fst (TextReader.Is c (bytes "GET")) = false /\
   TextReader.Err (snd (TextReader.Is c (bytes "GET")))
   = Some (errors_New "connection reset") /\
   TextReader.pending (snd (TextReader.Is c (bytes "GET"))) = bytes "GE" /\
   TextReader.N (snd (TextReader.Is c (bytes "GET"))) = 0)
  /\
  (let c := TextReader.NewTextReader
              (inr (bufio.NewReaderSize (clean "GET /index.html HTTP/1.1")
                                        16)) in
   fst (TextReader.Is c (bytes "GET /index.html HTTP")) = false /\
   TextReader.Err (snd (TextReader.Is c (bytes "GET /index.html HTTP")))
   = Some bufio_ErrBufferFull /\
   TextReader.pending (snd (TextReader.Is c (bytes "GET /index.html HTTP")))
   = bytes "GET /index.html HTTP/1.1" /\
   TextReader.N (snd (TextReader.Is c (bytes "GET /index.html HTTP"))) = 0).
Proof.
  split; [|split].
  - apply (Is_peek_error (text "GE") (bytes "GET") (bytes "GE") io_EOF
                         (bufio.NewReader (clean "GE")));
      [reflexivity | discriminate | reflexivity].
  - apply (Is_peek_error
             (TextReader.NewTextReader
                (inl (broken "GE" "connection reset")))
             (bytes "GET") (bytes "GE") (errors_New "connection reset")
             (bufio.NewReader (broken "GE" "connection reset")));
      [reflexivity | discriminate | reflexivity].
  - apply (Is_peek_error
             (TextReader.NewTextReader
                (inr (bufio.NewReaderSize
                        (clean "GET /index.html HTTP/1.1") 16)))
             (bytes "GET /index.html HTTP") (bytes "GET /index.html ")
             bufio_ErrBufferFull
             (bufio.NewReaderSize (clean "GET /index.html HTTP/1.1") 16));
      [reflexivity | discriminate | reflexivity].
Defined.

(** ** Contract violations *)

(** A binary reader with a latched fault: a one-byte read on an empty
    source has failed on it. *)
Lemma faulted_reader_has_fault :
  BinaryReader.Err
    (snd (BinaryReader.Bytes (BinaryReader.NewBinaryReader (clean ""))
                             [x00]))
  = Some io_EOF.
Proof. reflexivity. Qed.

(** C8, as stated, fails on a cursor with a latched fault: [Number] with a
    value of an unsupported type does not panic there, it returns [true]
    like any other call. *)
Lemma Number_unsupported_after_fault :
  let c := snd (BinaryReader.Bytes
                  (BinaryReader.NewBinaryReader (clean "")) [x00]) in
  NumberSize Other = 0 /\
  BinaryReader.Number c Other = Return (true, None) c /\
  panicked (BinaryReader.Number c Other) <> true.
Proof. vm_compute. repeat split. discriminate. Qed.

(** C8, amended.  On both binary cursors: [SetByteOrder] with a nil order
    panics, whatever the state of the cursor; [Number] with a value whose
    type is outside the supported set panics at once when no fault is
    latched, and returns [true] without panicking when one is.  In every
    case the cursor is left exactly as it was, so its [err] slot is not set
    by these calls. *)
Theorem contract_violations :
  (forall c : BinaryReader.t,
      BinaryReader.SetByteOrder c None = Panic nil_order c)
  /\
  (forall (W : Type) (Wr : io.Writer W) (c : BinaryWriter.t W),
      BinaryWriter.SetByteOrder c None = Panic nil_order c)
  /\
  (forall (c : BinaryReader.t) (v : data),
      NumberSize v = 0 ->
      (BinaryReader.err c = None ->
       BinaryReader.Number c v = Panic invalid_type c) /\
      (BinaryReader.err c <> None ->
       BinaryReader.Number c v = Return (true, None) c) /\
      BinaryReader.Err (state_of (BinaryReader.Number c v))
      = BinaryReader.Err c)
  /\
  (forall (W : Type) (Wr : io.Writer W) (c : BinaryWriter.t W) (v : data),
      NumberSize v = 0 ->
      (BinaryWriter.err c = None ->
       BinaryWriter.Number c v = Panic invalid_type c) /\
      (BinaryWriter.err c <> None ->
       BinaryWriter.Number c v = Return true c) /\
      BinaryWriter.Err (state_of (BinaryWriter.Number c v))
      = BinaryWriter.Err c).
Proof.
  split; [reflexivity|]. split; [reflexivity|]. split.
  - intros c v Hv. unfold BinaryReader.Number. rewrite Hv.
    destruct (BinaryReader.err c) eqn:Hc; cbn [Z.eqb state_of];
      repeat split; congruence.
  - intros W Wr c v Hv. unfold BinaryWriter.Number. rewrite Hv.
    destruct (BinaryWriter.err c) eqn:Hc; cbn [Z.eqb state_of];
      repeat split; congruence.
Qed.

(** On a fresh reader a value of another type makes [Number] panic; on a
    writer whose sink has refused a write it makes [Number] return
    [true]. *)
Lemma contract_violations_witness :
  BinaryReader.Number (BinaryReader.NewBinaryReader (clean "abc")) Other
  = Panic invalid_type (BinaryReader.NewBinaryReader (clean "abc"))
  /\
  (let c := snd (BinaryWriter.Bytes
                   (BinaryWriter.NewBinaryWriter
                      (mkLimited [] 1 (Some (errors_New "disk full"))))
                   [x01; x02]) in
   BinaryWriter.Number c Other = Return true c).
Proof.
  split.
  - apply (proj1 (proj1 (proj2 (proj2 contract_violations))
                        (BinaryReader.NewBinaryReader (clean "abc")) Other
                        eq_refl)).
    reflexivity.
  - apply (proj1 (proj2 (proj2 (proj2 (proj2 contract_violations))
                               limitedWriter _ _ Other eq_refl))).
    vm_compute. discriminate.
Defined.

(** ** Short writes *)

(** C9.  When the sink's [Write] reports a count [k < len(p)] with a nil
    error, [Bytes(p)] returns [failed = true] and adds [k] to the count,
    but latches nothing: [Err] still reports no error, and the next
    [Bytes(q)] is not a no-op, it calls [Write] on the sink again and
    accounts for its result. *)
Theorem Bytes_short_write_nil_error
        (W : Type) (Wr : io.Writer W) (c : BinaryWriter.t W)
        (p : list byte) (k : Z) (sink : W) :
  BinaryWriter.err c = None ->
  io.Write (BinaryWriter.w c) p = ((k, None), sink) ->
  k < len p ->
  let c' := BinaryWriter.mk sink (BinaryWriter.ord c)
                            (int64 (BinaryWriter.N c + k)) None in
  BinaryWriter.Bytes c p = (true, c') /\
  BinaryWriter.Err c' = None /\
  (forall q : list byte,
      BinaryWriter.Bytes c' q
      = let '((k', e'), sink') := io.Write sink q in
        (k' <? len q,
         BinaryWriter.mk sink' (BinaryWriter.ord c)
                         (int64 (BinaryWriter.N c' + k')) e')).
Proof.
  intros Hc Hw Hk c'. split; [|split].
  - unfold BinaryWriter.Bytes. rewrite Hc, Hw.
    apply Z.ltb_lt in Hk. rewrite Hk. unfold c', BinaryWriter.N.
    rewrite int64_count. reflexivity.
  - reflexivity.
  - intros q. unfold BinaryWriter.Bytes. cbn [BinaryWriter.err c'].
    unfold c' at 1. cbn [BinaryWriter.w].
    destruct (io.Write sink q) as [[k' e'] sink'].
    unfold BinaryWriter.N. cbn [BinaryWriter.n BinaryWriter.ord c'].
    rewrite int64_count.
    destruct (k' <? len q); reflexivity.
Qed.

(** A sink with room for three bytes that reports the short count with a
    nil error: five bytes are written, [Bytes] fails with [N = 3] and no
    error, and the next [Bytes] reaches the sink again. *)
Lemma Bytes_short_write_nil_error_witness :
  let c := BinaryWriter.NewBinaryWriter (mkLimited [] 3 None) in
  let c' := BinaryWriter.mk (mkLimited (bytes "abc") 0 None)
                            binary.LittleEndian (int64 (0 + 3)) None in
  BinaryWriter.Bytes c (bytes "abcde") = (true, c') /\
  BinaryWriter.Err c' = None /\
  (forall q : list byte,
      BinaryWriter.Bytes c' q
      = let '((k', e'), sink') := io.Write (mkLimited (bytes "abc") 0 None) q in
        (k' <? len q,
         BinaryWriter.mk sink' binary.LittleEndian
                         (int64 (BinaryWriter.N c' + k')) e')).
Proof.
  apply (Bytes_short_write_nil_error
           limitedWriter _
           (BinaryWriter.NewBinaryWriter (mkLimited [] 3 None))
           (bytes "abcde") 3 (mkLimited (bytes "abc") 0 None)).
  - reflexivity.
  - reflexivity.
  - vm_compute. reflexivity.
Defined.

(** ** Short reads *)

Lemma reader_Bytes_short (c : BinaryReader.t) (p : list byte) :
  BinaryReader.err c = None ->
  len (io.data (BinaryReader.r c)) < len p ->
  BinaryReader.Bytes c p
  = ((true,
      io.data (BinaryReader.r c)
        ++ skipn (List.length (io.data (BinaryReader.r c))) p),
     BinaryReader.mk
       (io.mkReader [] (io.fail (BinaryReader.r c)))
       (BinaryReader.ord c)
       (int64 (BinaryReader.n c + len (io.data (BinaryReader.r c))))
       (Some (match io.data (BinaryReader.r c) with
              | [] => io.fail (BinaryReader.r c)
              | _ :: _ =>
                if is_EOF (io.fail (BinaryReader.r c))
                then io_ErrUnexpectedEOF
                else io.fail (BinaryReader.r c)
              end))).
Proof.
  intros Hc Hlen. unfold BinaryReader.Bytes, io.ReadFull. rewrite Hc.
  unfold len in Hlen.
  destruct (Nat.leb_spec (List.length p)
                         (List.length (io.data (BinaryReader.r c))));
    [lia|].
  rewrite int64_count.
  destruct (io.data (BinaryReader.r c)); reflexivity.
Qed.

(** ** Panics after a read *)

Lemma NumberSize_Num (x : number) :
  exists k : nat,
    NumberSize (Num x) = Z.of_nat k /\ (1 <= k <= 8)%nat /\
    List.length (scratch (NumberSize (Num x))) = k.
Proof.
  destruct x; cbn [NumberSize];
    [exists 1%nat | exists 1%nat | exists 2%nat | exists 2%nat
     | exists 4%nat | exists 4%nat | exists 8%nat | exists 8%nat
     | exists 4%nat | exists 8%nat];
    (split; [reflexivity|]); (split; [lia | reflexivity]).
Qed.

(** With enough bytes in the source, the reader's [Number] on a
    non-pointer number reads them and panics. *)
Lemma reader_Number_value_panics (c : BinaryReader.t) (x : number) :
  BinaryReader.err c = None ->
  NumberSize (Num x) <= len (io.data (BinaryReader.r c)) ->
  BinaryReader.Number c (Num x)
  = Panic invalid_type
          (BinaryReader.mk
             (io.mkReader
                (skipn (Z.to_nat (NumberSize (Num x)))
                       (io.data (BinaryReader.r c)))
                (io.fail (BinaryReader.r c)))
             (BinaryReader.ord c)
             (int64 (BinaryReader.n c + NumberSize (Num x)))
             None).
Proof.
  intros Hc Hlen. destruct (NumberSize_Num x) as (k & Hk & Hk8 & Hs).
  unfold BinaryReader.Number. rewrite Hc.
  destruct (Z.eqb_spec (NumberSize (Num x)) 0) as [E|_]; [lia|].
  unfold BinaryReader.Bytes, io.ReadFull. rewrite Hc, Hs.
  unfold len in Hlen.
  destruct (Nat.leb_spec k (List.length (io.data (BinaryReader.r c))));
    [|lia].
  cbn [BinaryReader.err]. rewrite int64_count.
  unfold len. rewrite Hs, Hk, Nat2Z.id. destruct x; reflexivity.
Qed.

(** Without them it reports a failed read and does not panic. *)
Lemma reader_Number_value_short (c : BinaryReader.t) (x : number) :
  BinaryReader.err c = None ->
  len (io.data (BinaryReader.r c)) < NumberSize (Num x) ->
  panicked (BinaryReader.Number c (Num x)) = false.
Proof.
  intros Hc Hlen. destruct (NumberSize_Num x) as (k & Hk & Hk8 & Hs).
  unfold BinaryReader.Number. rewrite Hc.
  destruct (Z.eqb_spec (NumberSize (Num x)) 0) as [E|_]; [lia|].
  unfold BinaryReader.Bytes, io.ReadFull. rewrite Hc, Hs.
  unfold len in Hlen.
  destruct (Nat.leb_spec k (List.length (io.data (BinaryReader.r c))));
    [lia|].
  reflexivity.
Qed.

(** The same call with the cursor it leaves: what was left of the source
    is consumed and counted and the fault of the short read is latched. *)
Lemma reader_Number_value_short_returns (c : BinaryReader.t) (x : number) :
  BinaryReader.err c = None ->
  len (io.data (BinaryReader.r c)) < NumberSize (Num x) ->
  BinaryReader.Number c (Num x)
  = Return (true, None)
           (BinaryReader.mk
              (io.mkReader [] (io.fail (BinaryReader.r c)))
              (BinaryReader.ord c)
              (int64 (BinaryReader.n c + len (io.data (BinaryReader.r c))))
              (Some (match io.data (BinaryReader.r c) with
                     | [] => io.fail (BinaryReader.r c)
                     | _ :: _ =>
                       if is_EOF (io.fail (BinaryReader.r c))
                       then io_ErrUnexpectedEOF
                       else io.fail (BinaryReader.r c)
                     end))).
Proof.
  intros Hc Hlen. destruct (NumberSize_Num x) as (k & Hk & Hk8 & Hs).
  unfold BinaryReader.Number. rewrite Hc.
  destruct (Z.eqb_spec (NumberSize (Num x)) 0) as [E|_]; [lia|].
  rewrite reader_Bytes_short
    by (first [exact Hc | unfold len in *; rewrite Hs; lia]).
  reflexivity.
Qed.

(** C10, as stated, fails on a source that is short of the bytes and on a
    cursor with a latched fault: there the reader's [Number] with a
    non-pointer value returns [true] and does not panic, and so does the
    writer's [Number] with a pointer. *)
Lemma Number_value_without_panic :
  (let c := BinaryReader.NewBinaryReader (clean "") in
   BinaryReader.Number c (Num (Int8 0))
   = Return (true, None)
            (BinaryReader.mk (io.mkReader [] io_EOF) binary.LittleEndian 0
                             (Some io_EOF)))
  /\
  (let c := snd (BinaryReader.Bytes
                   (BinaryReader.NewBinaryReader (clean "abcdef"))
                   (repeat x00 10)) in
   BinaryReader.Err c = Some io_ErrUnexpectedEOF /\
   BinaryReader.Number c (Num (Int8 0)) = Return (true, None) c)
  /\
  (let c := snd (BinaryWriter.Bytes
                   (BinaryWriter.NewBinaryWriter
                      (mkLimited [] 1 (Some (errors_New "disk full"))))
                   [x01; x02]) in
   BinaryWriter.Err c = Some (errors_New "disk full") /\
   BinaryWriter.Number c (Ptr T_int8 false) = Return true c).
Proof. vm_compute. repeat split. Qed.

(** C10, amended.  The reader's [Number] with a non-pointer value of an
    accepted numeric type passes the size check.  On a reader without a
    fault whose source holds [NumberSize] bytes it reads them, adds them to
    [N] and only then panics with "invalid type"; whenever this call
    panics, the bytes have been read and counted: the cursor a panic leaves
    is never the one it found.  On a reader with a latched fault the call
    returns [true] at once, and on a source short of [NumberSize] bytes it
    consumes and counts what is there, latches the fault of the short read
    and returns [true]; in neither case does it panic.  The writer's
    [Number] with a pointer never changes the cursor, so nothing is
    written; it panics on a writer without a fault and returns [true] on
    one with a fault. *)
Theorem Number_wrong_indirection :
  (forall (c : BinaryReader.t) (x : number),
      NumberSize (Num x) <> 0 /\
      (BinaryReader.err c = None ->
       NumberSize (Num x) <= len (io.data (BinaryReader.r c)) ->
       panicked (BinaryReader.Number c (Num x)) = true) /\
      (forall (msg : string) (c' : BinaryReader.t),
          BinaryReader.Number c (Num x) = Panic msg c' ->
          msg = invalid_type /\
          io.data (BinaryReader.r c')
          = skipn (Z.to_nat (NumberSize (Num x)))
                  (io.data (BinaryReader.r c)) /\
          BinaryReader.N c'
          = int64 (BinaryReader.N c + NumberSize (Num x)) /\
          BinaryReader.Err c' = None /\
          c' <> c) /\
      (forall e : error,
          BinaryReader.err c = Some e ->
          BinaryReader.Number c (Num x) = Return (true, None) c) /\
      (BinaryReader.err c = None ->
       len (io.data (BinaryReader.r c)) < NumberSize (Num x) ->
       exists c' : BinaryReader.t,
         BinaryReader.Number c (Num x) = Return (true, None) c' /\
         io.data (BinaryReader.r c') = [] /\
         BinaryReader.N c'
         = int64 (BinaryReader.N c + len (io.data (BinaryReader.r c))) /\
         BinaryReader.Err c'
         = Some (match io.data (BinaryReader.r c) with
                 | [] => io.fail (BinaryReader.r c)
                 | _ :: _ =>
                   if is_EOF (io.fail (BinaryReader.r c))
                   then io_ErrUnexpectedEOF
                   else io.fail (BinaryReader.r c)
                 end)))
  /\
  (forall (W : Type) (Wr : io.Writer W) (c : BinaryWriter.t W)
          (T : numtype) (isnil : bool),
      state_of (BinaryWriter.Number c (Ptr T isnil)) = c /\
      (BinaryWriter.err c = None ->
       BinaryWriter.Number c (Ptr T isnil) = Panic invalid_type c) /\
      (forall e : error,
          BinaryWriter.err c = Some e ->
          BinaryWriter.Number c (Ptr T isnil) = Return true c)).
Proof.
  split.
  - intros c x. split; [destruct x; discriminate|]. split; [|split; [|split]].
    + intros Hc Hlen. rewrite reader_Number_value_panics by assumption.
      reflexivity.
    + intros msg c' Hpanic.
      destruct (BinaryReader.err c) as [e|] eqn:Hc.
      { unfold BinaryReader.Number in Hpanic. rewrite Hc in Hpanic.
        discriminate. }
      destruct (Z_lt_le_dec (len (io.data (BinaryReader.r c)))
                            (NumberSize (Num x))) as [Hshort|Hlen].
      { pose proof (reader_Number_value_short c x Hc Hshort) as Hno.
        rewrite Hpanic in Hno. discriminate. }
      rewrite (reader_Number_value_panics c x Hc Hlen) in Hpanic.
      destruct (NumberSize_Num x) as (k & Hk & Hk8 & _).
      rewrite Hk in *.
      injection Hpanic as <- <-. repeat split.
      intros E.
      apply (f_equal (fun c => len (io.data (BinaryReader.r c)))) in E.
      cbn [BinaryReader.r io.data] in E. unfold len in *.
      rewrite length_skipn in E. lia.
    + intros e Hc. unfold BinaryReader.Number. rewrite Hc. reflexivity.
    + intros Hc Hshort.
      rewrite (reader_Number_value_short_returns c x Hc Hshort).
      eexists. split; [reflexivity|]. repeat split.
  - intros W Wr c T isnil. unfold BinaryWriter.Number.
    destruct (BinaryWriter.err c) as [e0|]; destruct T;
      (split; [reflexivity|]);
      (split; [intros H; first [discriminate H | reflexivity]
              |intros e H; first [discriminate H | reflexivity]]).
Qed.

(** [Number(int8(0))] on a reader over ["abc"] reads one byte, counts it
    and panics; on a reader over an empty source it returns [true] with
    [io.EOF] latched; [Number(new(int8))] on a fresh writer panics at
    once. *)
Lemma Number_wrong_indirection_witness :
  (exists c' : BinaryReader.t,
      BinaryReader.Number (BinaryReader.NewBinaryReader (clean "abc"))
                          (Num (Int8 0))
      = Panic invalid_type c' /\
      io.data (BinaryReader.r c') = bytes "bc" /\
      BinaryReader.N c' = 1 /\
      c' <> BinaryReader.NewBinaryReader (clean "abc"))
  /\
  (exists c' : BinaryReader.t,
      BinaryReader.Number (BinaryReader.NewBinaryReader (clean "a"))
                          (Num (Uint16 0))
      = Return (true, None) c' /\
      io.data (BinaryReader.r c') = [] /\
      BinaryReader.N c' = 1 /\
      BinaryReader.Err c' = Some io_ErrUnexpectedEOF)
  /\
  BinaryWriter.Number (BinaryWriter.NewBinaryWriter ([] : bytes_Buffer))
                      (Ptr T_int8 false)
  = Panic invalid_type (BinaryWriter.NewBinaryWriter ([] : bytes_Buffer)).
Proof.
  split; [|split].
  - destruct (proj1 Number_wrong_indirection
                    (BinaryReader.NewBinaryReader (clean "abc")) (Int8 0))
      as (_ & Hpanics & Hafter & _).
    assert (panicked (BinaryReader.Number
                        (BinaryReader.NewBinaryReader (clean "abc"))
                        (Num (Int8 0))) = true) as Hp.
    { apply Hpanics; vm_compute; [reflexivity | discriminate]. }
    destruct (BinaryReader.Number
                (BinaryReader.NewBinaryReader (clean "abc")) (Num (Int8 0)))
      as [a c'|msg c'] eqn:E; [discriminate Hp|].
    destruct (Hafter msg c' eq_refl) as (-> & Hd & Hn & _ & Hne).
    exists c'. split; [reflexivity|]. split; [exact Hd|].
    split; [exact Hn | exact Hne].
  - destruct (proj1 Number_wrong_indirection
                    (BinaryReader.NewBinaryReader (clean "a")) (Uint16 0))
      as (_ & _ & _ & _ & Hshort).
    apply Hshort; vm_compute; reflexivity.
  - apply (proj1 (proj2 (proj2 Number_wrong_indirection bytes_Buffer _
                               (BinaryWriter.NewBinaryWriter [])
                               T_int8 false))).
    reflexivity.
Defined.

(** The faults of C1 latched by real calls: a short read, a refused write
    and the end of the text, each followed by further calls. *)
Lemma sticky_fault_witness :
  (let c := snd (BinaryReader.Bytes
                   (BinaryReader.NewBinaryReader (clean "abcdef"))
                   (repeat x00 10)) in
   BinaryReaderCalls.after
     c [BinaryReaderCalls.All; BinaryReaderCalls.Add 4 None] = c /\
   BinaryReaderCalls.run
     (BinaryReaderCalls.after
        c [BinaryReaderCalls.All; BinaryReaderCalls.Add 4 None])
     (BinaryReaderCalls.Number (Ptr T_uint16 false))
   = Return (BinaryReaderCalls.number_is true None) c /\
   (let c' := state_of (BinaryReader.SetByteOrder
                          c (Some binary.BigEndian)) in
    BinaryReader.r c' = BinaryReader.r c /\
    BinaryReader.n c' = BinaryReader.n c /\
    BinaryReader.err c' = BinaryReader.err c))
  /\
  (let c := snd (BinaryWriter.Bytes
                   (BinaryWriter.NewBinaryWriter
                      (mkLimited [] 1 (Some (errors_New "disk full"))))
                   [x01; x02]) in
   BinaryWriterCalls.after c [BinaryWriterCalls.Bytes [x03]] = c /\
   BinaryWriterCalls.run
     (BinaryWriterCalls.after c [BinaryWriterCalls.Bytes [x03]])
     (BinaryWriterCalls.Number (Num (Uint8 7)))
   = Return true c /\
   (let c' := state_of (BinaryWriter.SetByteOrder c None) in
    BinaryWriter.w c' = BinaryWriter.w c /\
    BinaryWriter.n c' = BinaryWriter.n c /\
    BinaryWriter.err c' = BinaryWriter.err c))
  /\
  (let c := snd (TextReader.Next (text "")) in
   TextReaderCalls.after
     c [TextReaderCalls.Is (bytes "x"); TextReaderCalls.UntilEOF] = c /\
   TextReaderCalls.run
     (TextReaderCalls.after
        c [TextReaderCalls.Is (bytes "x"); TextReaderCalls.UntilEOF])
     (TextReaderCalls.Until 59)
   = Some (TextReaderCalls.string_is [] false, c) /\
   snd (TextReader.IsEOF c) = c).
Proof.
  split; [|split].
  - apply (proj1 sticky_fault). vm_compute. discriminate.
  - apply (proj1 (proj2 sticky_fault) limitedWriter). vm_compute. discriminate.
  - apply (proj2 (proj2 sticky_fault)). vm_compute. discriminate.
Defined.

(** ** Numbers on any cursor *)

Lemma int64_idem_l (a b : Z) : int64 (int64 a + b) = int64 (a + b).
Proof. rewrite (Z.add_comm (int64 a)), int64_count. f_equal. lia. Qed.

Lemma layout_length (o : binary.ByteOrder) (x : number) :
  len (layout o x) = NumberSize (Num x).
Proof.
  destruct x; cbn [layout NumberSize]; unfold len;
    rewrite ?ordered_length; reflexivity.
Qed.

Lemma layout_short (o : binary.ByteOrder) (x : number) :
  (List.length (layout o x) <= 8)%nat.
Proof.
  destruct x; cbn [layout]; rewrite ?ordered_length; cbn [List.length]; lia.
Qed.

Lemma scratch_layout (o : binary.ByteOrder) (x : number) :
  List.length (scratch (NumberSize (Num x))) = List.length (layout o x).
Proof. destruct x; cbn [layout]; rewrite ?ordered_length; reflexivity. Qed.

(** On a writer without a fault, [Number] of a number hands its layout in
    the cursor's byte order to [Bytes]. *)
Lemma writer_Number_layout {W : Type} `{io.Writer W}
      (c : BinaryWriter.t W) (x : number) :
  BinaryWriter.err c = None ->
  BinaryWriter.Number c (Num x)
  = BinaryWriter.put c (Some (layout (BinaryWriter.ord c) x)).
Proof.
  intros Hc. unfold BinaryWriter.Number. rewrite Hc.
  destruct x; cbn [NumberSize Z.eqb layout];
    rewrite ?PutUint16_le_bytes, ?PutUint32_le_bytes, ?PutUint64_le_bytes
      by reflexivity;
    reflexivity.
Qed.

Lemma buffer_Bytes (c : BinaryWriter.t bytes_Buffer) (p : list byte) :
  BinaryWriter.err c = None ->
  BinaryWriter.Bytes c p
  = (false,
     BinaryWriter.mk (BinaryWriter.w c ++ p) (BinaryWriter.ord c)
                     (int64 (BinaryWriter.n c + len p)) None).
Proof.
  intros Hc. unfold BinaryWriter.Bytes. rewrite Hc.
  unfold io.Write, bytes_Buffer_Writer.
  rewrite Z.ltb_irrefl, int64_count. reflexivity.
Qed.

Lemma buffer_Number (c : BinaryWriter.t bytes_Buffer) (x : number) :
  BinaryWriter.err c = None ->
  BinaryWriter.Number c (Num x)
  = Return false
           (BinaryWriter.mk
              (BinaryWriter.w c ++ layout (BinaryWriter.ord c) x)
              (BinaryWriter.ord c)
              (int64 (BinaryWriter.n c + NumberSize (Num x))) None).
Proof.
  intros Hc. rewrite writer_Number_layout by exact Hc.
  unfold BinaryWriter.put. rewrite buffer_Bytes by exact Hc.
  rewrite layout_length. reflexivity.
Qed.

(** On a reader without a fault whose source starts with [bs], where [bs]
    has the length of [p], [Bytes(p)] takes exactly [bs]. *)
Lemma reader_Bytes_prefix (c : BinaryReader.t) (p bs rest : list byte) :
  BinaryReader.err c = None ->
  io.data (BinaryReader.r c) = bs ++ rest ->
  List.length p = List.length bs ->
  BinaryReader.Bytes c p
  = ((false, bs),
     BinaryReader.mk (io.mkReader rest (io.fail (BinaryReader.r c)))
                     (BinaryReader.ord c)
                     (int64 (BinaryReader.n c + len bs)) None).
Proof.
  intros Hc Hd Hp. unfold BinaryReader.Bytes, io.ReadFull. rewrite Hc, Hd, Hp.
  rewrite length_app.
  destruct (Nat.leb_spec (List.length bs)
                         (List.length bs + List.length rest)); [|lia].
  rewrite firstn_app, Nat.sub_diag, firstn_all, firstn_O, app_nil_r.
  rewrite skipn_app, Nat.sub_diag, skipn_all, skipn_O.
  cbn [app BinaryReader.err]. rewrite int64_count.
  unfold len. rewrite Hp. reflexivity.
Qed.

(** Reading back the layout of a representable number. *)
Lemma reader_Number_layout (c : BinaryReader.t) (x : number)
      (rest : list byte) :
  BinaryReader.err c = None ->
  representable x = true ->
  io.data (BinaryReader.r c) = layout (BinaryReader.ord c) x ++ rest ->
  BinaryReader.Number c (Ptr (typeof x) false)
  = Return (false, Some x)
           (BinaryReader.mk (io.mkReader rest (io.fail (BinaryReader.r c)))
                            (BinaryReader.ord c)
                            (int64 (BinaryReader.n c + NumberSize (Num x)))
                            None).
Proof.
  intros Hc Hx Hd. unfold BinaryReader.Number. rewrite Hc.
  assert (NumberSize (Ptr (typeof x) false) = NumberSize (Num x)) as ->
      by (destruct x; reflexivity).
  destruct (Z.eqb_spec (NumberSize (Num x)) 0) as [E|_];
    [destruct x; discriminate|].
  rewrite (reader_Bytes_prefix c _ _ rest Hc Hd (scratch_layout _ x)).
  rewrite layout_length. cbn [BinaryReader.ord].
  destruct x; cbn [representable] in Hx; try apply between_true in Hx;
    cbn [typeof layout BinaryReader.byte0];
    rewrite ?Uint16_le_sum, ?Uint32_le_sum, ?Uint64_le_sum
      by apply le_bytes_length;
    rewrite ?le_sum_le_bytes, ?Z_of_byte_of_Z;
    cbn [option_map BinaryReader.store].
  - unfold int8, uint8. rewrite (unsigned_pow256 1 8) by reflexivity.
    rewrite unsigned_idem, signed_unsigned by lia. reflexivity.
  - rewrite (unsigned_pow256 1 8), unsigned_small by (reflexivity || lia).
    reflexivity.
  - unfold int16, uint16. rewrite (unsigned_pow256 2 16) by reflexivity.
    rewrite unsigned_idem, signed_unsigned by lia. reflexivity.
  - rewrite (unsigned_pow256 2 16), unsigned_small by (reflexivity || lia).
    reflexivity.
  - unfold int32, uint32. rewrite (unsigned_pow256 4 32) by reflexivity.
    rewrite unsigned_idem, signed_unsigned by lia. reflexivity.
  - rewrite (unsigned_pow256 4 32), unsigned_small by (reflexivity || lia).
    reflexivity.
  - rewrite (unsigned_pow256 8 64) by reflexivity.
    assert (int64 (unsigned 64 (uint64 v)) = v) as ->; [|reflexivity].
    unfold int64, uint64.
    rewrite unsigned_idem, signed_unsigned by lia. reflexivity.
  - rewrite (unsigned_pow256 8 64), unsigned_small by (reflexivity || lia).
    reflexivity.
  - rewrite (unsigned_pow256 4 32) by reflexivity.
    rewrite Float32_frombits_bits by exact Hx. reflexivity.
  - rewrite (unsigned_pow256 8 64) by reflexivity.
    rewrite Float64_frombits_bits by exact Hx. reflexivity.
Qed.

Lemma int64_in_range (z : Z) : - 2 ^ 63 <= int64 z < 2 ^ 63.
Proof. apply (signed_range 64). lia. Qed.

Lemma total_size_nonneg (xs : list number) : 0 <= total_size xs.
Proof.
  induction xs as [|x xs IH]; cbn [total_size fold_right]; [lia|].
  fold (total_size xs). destruct x; cbn [NumberSize]; lia.
Qed.

Lemma write_numbers_buffer (xs : list number)
      (c : BinaryWriter.t bytes_Buffer) :
  BinaryWriter.err c = None ->
  - 2 ^ 63 <= BinaryWriter.n c < 2 ^ 63 ->
  write_numbers c xs
  = BinaryWriter.mk
      (BinaryWriter.w c ++ List.concat (map (layout (BinaryWriter.ord c)) xs))
      (BinaryWriter.ord c)
      (int64 (BinaryWriter.n c + total_size xs)) None.
Proof.
  revert c. induction xs as [|x xs IH]; intros c Hc Hn.
  - cbn [write_numbers fold_left map List.concat total_size fold_right].
    rewrite app_nil_r, Z.add_0_r, int64_small by exact Hn.
    destruct c; cbn in *; subst; reflexivity.
  - unfold write_numbers in *. cbn [fold_left].
    rewrite buffer_Number by exact Hc. cbn [state_of].
    rewrite IH by (cbn [BinaryWriter.err BinaryWriter.n];
                   first [reflexivity | apply int64_in_range]).
    cbn [BinaryWriter.w BinaryWriter.ord BinaryWriter.n map List.concat
         total_size fold_right].
    fold (total_size xs).
    rewrite <- app_assoc, int64_idem_l, Z.add_assoc. reflexivity.
Qed.

Lemma read_numbers_layouts (xs : list number) (c : BinaryReader.t)
      (rest : list byte) :
  BinaryReader.err c = None ->
  - 2 ^ 63 <= BinaryReader.n c < 2 ^ 63 ->
  Forall (fun x => representable x = true) xs ->
  io.data (BinaryReader.r c)
  = List.concat (map (layout (BinaryReader.ord c)) xs) ++ rest ->
  read_numbers c (map typeof xs)
  = (map Some xs,
     BinaryReader.mk (io.mkReader rest (io.fail (BinaryReader.r c)))
                     (BinaryReader.ord c)
                     (int64 (BinaryReader.n c + total_size xs)) None).
Proof.
  revert c. induction xs as [|x xs IH]; intros c Hc Hn Hxs Hd.
  - cbn [map read_numbers total_size fold_right List.concat app] in *.
    rewrite Z.add_0_r, int64_small by exact Hn.
    destruct c as [[d e] o n0 err0]; cbn in *; subst; reflexivity.
  - apply Forall_cons_iff in Hxs. destruct Hxs as [Hx Hxs].
    cbn [map List.concat] in Hd. rewrite <- app_assoc in Hd.
    cbn [map read_numbers].
    rewrite (reader_Number_layout c x _ Hc Hx Hd). cbn [state_of].
    rewrite IH by
        (cbn [BinaryReader.err BinaryReader.n BinaryReader.r
              BinaryReader.ord io.data];
         first [reflexivity | apply int64_in_range | assumption]).
    cbn [BinaryReader.r BinaryReader.ord BinaryReader.n io.fail
         total_size fold_right].
    fold (total_size xs).
    rewrite int64_idem_l, Z.add_assoc. reflexivity.
Qed.

(** X1.  Writing any list of representable numbers to an empty buffer, one
    [Number] call after the other, and reading numbers of the same types
    back from the bytes written, in the same byte order, gives the same
    numbers in the same order.  Neither cursor latches a fault, the reader
    ends exactly at the end of the bytes, and both counts equal the sum of
    the sizes of the numbers (which is below [2^63]). *)
Theorem Number_sequence_round_trip (o : binary.ByteOrder)
        (xs : list number) :
  Forall (fun x => representable x = true) xs ->
  total_size xs < 2 ^ 63 ->
  let cw := write_numbers (fresh_writer o) xs in
  let rd := read_numbers (fresh_reader o (BinaryWriter.w cw))
                         (map typeof xs) in
  BinaryWriter.Err cw = None /\
  BinaryWriter.N cw = total_size xs /\
  len (BinaryWriter.w cw) = total_size xs /\
  fst rd = map Some xs /\
  BinaryReader.Err (snd rd) = None /\
  BinaryReader.N (snd rd) = total_size xs /\
  io.data (BinaryReader.r (snd rd)) = [].
Proof.
  intros Hxs Hsize cw rd. pose proof (total_size_nonneg xs) as H0.
  assert (cw = BinaryWriter.mk (List.concat (map (layout o) xs)) o
                               (total_size xs) None) as Hcw.
  { unfold cw. rewrite write_numbers_buffer; [|reflexivity|cbn; lia].
    cbn [fresh_writer state_of BinaryWriter.SetByteOrder
         BinaryWriter.NewBinaryWriter BinaryWriter.w BinaryWriter.ord
         BinaryWriter.n BinaryWriter.err app].
    rewrite Z.add_0_l, int64_small by lia. reflexivity. }
  assert (rd = (map Some xs,
                BinaryReader.mk (io.mkReader [] io_EOF) o
                                (total_size xs) None)) as Hrd.
  { unfold rd. rewrite Hcw. cbn [BinaryWriter.w].
    rewrite (read_numbers_layouts xs _ []);
      [ | reflexivity | cbn; lia | exact Hxs
        | cbn; rewrite app_nil_r; reflexivity ].
    cbn [fresh_reader state_of BinaryReader.SetByteOrder
         BinaryReader.NewBinaryReader BinaryReader.r BinaryReader.ord
         BinaryReader.n io.fail].
    rewrite Z.add_0_l, int64_small by lia. reflexivity. }
  rewrite Hrd, Hcw. cbn [fst snd BinaryWriter.w].
  repeat split.
  clear. induction xs as [|x xs IH];
    cbn [map List.concat total_size fold_right]; [reflexivity|].
  fold (total_size xs). unfold len in *.
  rewrite length_app, Nat2Z.inj_add, IH.
  pose proof (layout_length o x) as Hl. unfold len in Hl. lia.
Qed.

(** A record of mixed types, among them the largest [uint64], the
    smallest [int16] and a NaN, written and read back big-endian. *)
Lemma Number_sequence_round_trip_witness :
  let xs := [Uint8 7; Int16 (-32768); Float32 (math.mkFloat true 255 1);
             Uint64 18446744073709551615; Int32 (-1)] in
  let cw := write_numbers (fresh_writer binary.BigEndian) xs in
  let rd := read_numbers
              (fresh_reader binary.BigEndian (BinaryWriter.w cw))
              (map typeof xs) in
  BinaryWriter.Err cw = None /\
  BinaryWriter.N cw = 19 /\
  len (BinaryWriter.w cw) = 19 /\
  fst rd = map Some xs /\
  BinaryReader.Err (snd rd) = None /\
  BinaryReader.N (snd rd) = 19 /\
  io.data (BinaryReader.r (snd rd)) = [].
Proof.
  apply (Number_sequence_round_trip
           binary.BigEndian
           [Uint8 7; Int16 (-32768); Float32 (math.mkFloat true 255 1);
            Uint64 18446744073709551615; Int32 (-1)]).
  - repeat constructor.
  - vm_compute. reflexivity.
Defined.

(** X2.  A new binary writer writes little-endian: the bytes of every
    number are its layout with the least significant byte first, the same
    as after [SetByteOrder(LittleEndian)], and after
    [SetByteOrder(BigEndian)] they are those bytes reversed.  For a
    [uint32] [v] a new writer emits [v], [v >> 8], [v >> 16], [v >> 24] in
    this order; [0x01020304] gives [04 03 02 01], and [01 02 03 04] in
    big-endian. *)
Theorem BigEndian_reverses_LittleEndian :
  let written (c : BinaryWriter.t bytes_Buffer) (x : number) :=
      BinaryWriter.w (state_of (BinaryWriter.Number c (Num x))) in
  let fresh := BinaryWriter.NewBinaryWriter ([] : bytes_Buffer) in
  (forall x : number,
      written fresh x = layout binary.LittleEndian x /\
      written (fresh_writer binary.LittleEndian) x
      = layout binary.LittleEndian x /\
      written (fresh_writer binary.BigEndian) x
      = rev (layout binary.LittleEndian x))
  /\
  (forall v : Z,
      written fresh (Uint32 v)
      = [byte_of_Z v; byte_of_Z (v / 2 ^ 8); byte_of_Z (v / 2 ^ 16);
         byte_of_Z (v / 2 ^ 24)] /\
      written (fresh_writer binary.BigEndian) (Uint32 v)
      = [byte_of_Z (v / 2 ^ 24); byte_of_Z (v / 2 ^ 16);
         byte_of_Z (v / 2 ^ 8); byte_of_Z v])
  /\
  written fresh (Uint32 0x01020304) = [x04; x03; x02; x01] /\
  written (fresh_writer binary.BigEndian) (Uint32 0x01020304)
  = [x01; x02; x03; x04].
Proof.
  intros written fresh. unfold written, fresh.
  split; [|split; [|split; reflexivity]].
  - intros x. rewrite !buffer_Number by reflexivity.
    cbn [state_of BinaryWriter.w fresh_writer BinaryWriter.SetByteOrder
         BinaryWriter.NewBinaryWriter BinaryWriter.ord app].
    split; [reflexivity|]. split; [reflexivity|].
    destruct x; reflexivity.
  - intros v. rewrite !buffer_Number by reflexivity.
    cbn [state_of BinaryWriter.w fresh_writer BinaryWriter.SetByteOrder
         BinaryWriter.NewBinaryWriter BinaryWriter.ord app layout
         in_order le_bytes rev].
    change (2 ^ 8) with 256. change (2 ^ 16) with (256 * 256).
    change (2 ^ 24) with (256 * 256 * 256).
    rewrite <- !Z.div_div by lia. split; reflexivity.
Qed.

(** ** Which values Number accepts *)

(** Takes the bytes that [Number] reads off the front of the source. *)
Ltac read_scratch c Hc Hlen :=
  match goal with
  | |- context [BinaryReader.Bytes c (scratch ?s)] =>
    let k := eval compute in (Z.to_nat s) in
    let Hk := fresh "Hk" in
    assert (List.length (firstn k (io.data (BinaryReader.r c))) = k) as Hk
      by (unfold len in Hlen; cbn [NumberSize] in Hlen;
          rewrite length_firstn; lia);
    rewrite (reader_Bytes_prefix
               c (scratch s) (firstn k (io.data (BinaryReader.r c)))
               (skipn k (io.data (BinaryReader.r c))) Hc
               (eq_sym (firstn_skipn k (io.data (BinaryReader.r c)))))
      by (rewrite Hk; reflexivity)
  end.

Lemma reader_Number_pointer_returns (c : BinaryReader.t) (T : numtype) :
  BinaryReader.err c = None ->
  NumberSize (Ptr T false) <= len (io.data (BinaryReader.r c)) ->
  panicked (BinaryReader.Number c (Ptr T false)) = false.
Proof.
  intros Hc Hlen. unfold BinaryReader.Number. rewrite Hc.
  destruct T; cbn [NumberSize Z.eqb]; read_scratch c Hc Hlen;
    cbn [BinaryReader.ord];
    rewrite ?Uint16_any, ?Uint32_any, ?Uint64_any by assumption;
    try reflexivity;
    destruct (firstn 1 (io.data (BinaryReader.r c))); try discriminate;
    reflexivity.
Qed.

Lemma reader_Number_nil_pointer_panics (c : BinaryReader.t) (T : numtype) :
  BinaryReader.err c = None ->
  NumberSize (Ptr T true) <= len (io.data (BinaryReader.r c)) ->
  panicked (BinaryReader.Number c (Ptr T true)) = true.
Proof.
  intros Hc Hlen. unfold BinaryReader.Number. rewrite Hc.
  destruct T; cbn [NumberSize Z.eqb]; read_scratch c Hc Hlen; reflexivity.
Qed.

(** X3.  Which arguments [Number] accepts.  On a writer without a fault,
    [Number] returns without a panic exactly for the non-pointer numbers.
    On a reader without a fault whose source holds the bytes that
    [NumberSize] asks for, [Number] returns without a panic exactly for the
    non-nil pointers to a number. *)
Theorem Number_accepts :
  (forall (W : Type) (Wr : io.Writer W) (c : BinaryWriter.t W) (v : data),
      BinaryWriter.err c = None ->
      (panicked (BinaryWriter.Number c v) = false <-> exists x, v = Num x))
  /\
  (forall (c : BinaryReader.t) (v : data),
      BinaryReader.err c = None ->
      NumberSize v <= len (io.data (BinaryReader.r c)) ->
      (panicked (BinaryReader.Number c v) = false
       <-> exists T, v = Ptr T false)).
Proof.
  split.
  - intros W Wr c v Hc. split.
    + intros Hp. destruct v as [x|T z|]; [eauto| |];
        unfold BinaryWriter.Number in Hp; rewrite Hc in Hp;
        [destruct T|]; discriminate.
    + intros [x ->]. rewrite writer_Number_layout by exact Hc.
      unfold BinaryWriter.put. destruct (BinaryWriter.Bytes c _). reflexivity.
  - intros c v Hc Hlen. split.
    + intros Hp. destruct v as [x|T [|]|].
      * rewrite (reader_Number_value_panics c x Hc Hlen) in Hp. discriminate.
      * rewrite (reader_Number_nil_pointer_panics c T Hc Hlen) in Hp.
        discriminate.
      * eauto.
      * unfold BinaryReader.Number in Hp. rewrite Hc in Hp. discriminate.
    + intros [T ->]. apply reader_Number_pointer_returns; assumption.
Qed.

Lemma Number_accepts_witness :
  (panicked (BinaryWriter.Number
               (BinaryWriter.NewBinaryWriter ([] : bytes_Buffer))
               (Num (Int16 5))) = false
   <-> exists x, Num (Int16 5) = Num x)
  /\
  (panicked (BinaryReader.Number
               (BinaryReader.NewBinaryReader (clean "abcd"))
               (Ptr T_uint32 false)) = false
   <-> exists T, Ptr T_uint32 false = Ptr T false).
Proof.
  split.
  - apply (proj1 Number_accepts bytes_Buffer _). reflexivity.
  - apply (proj2 Number_accepts).
    + reflexivity.
    + vm_compute. discriminate.
Defined.

(** ** Add *)

(** X4.  [Add] accumulates.  On a cursor without a fault, adding [k1]
    without an error and then [k2] with the result [e] is the same as adding
    [k1 + k2] with [e] at once (the count wraps as an [int64] either way);
    and once an [Add] has carried an error, a later [Add] changes nothing
    and returns [true].  The same holds for the reader and the writer. *)
Theorem Add_accumulates :
  (forall (c : BinaryReader.t) (k1 k2 : Z) (e e2 : option error)
          (e1 : error),
      BinaryReader.err c = None ->
      BinaryReader.Add (snd (BinaryReader.Add c k1 None)) k2 e
      = BinaryReader.Add c (k1 + k2) e /\
      BinaryReader.Add (snd (BinaryReader.Add c k1 (Some e1))) k2 e2
      = (true, snd (BinaryReader.Add c k1 (Some e1))))
  /\
  (forall (W : Type) (Wr : io.Writer W) (c : BinaryWriter.t W)
          (k1 k2 : Z) (e e2 : option error) (e1 : error),
      BinaryWriter.err c = None ->
      BinaryWriter.Add (snd (BinaryWriter.Add c k1 None)) k2 e
      = BinaryWriter.Add c (k1 + k2) e /\
      BinaryWriter.Add (snd (BinaryWriter.Add c k1 (Some e1))) k2 e2
      = (true, snd (BinaryWriter.Add c k1 (Some e1)))).
Proof.
  split.
  - intros c k1 k2 e e2 e1 Hc. unfold BinaryReader.Add. rewrite Hc.
    cbn [BinaryReader.err BinaryReader.r BinaryReader.ord BinaryReader.n snd].
    rewrite int64_idem_l, Z.add_assoc. split; reflexivity.
  - intros W Wr c k1 k2 e e2 e1 Hc. unfold BinaryWriter.Add. rewrite Hc.
    cbn [BinaryWriter.err BinaryWriter.w BinaryWriter.ord BinaryWriter.n snd].
    rewrite int64_idem_l, Z.add_assoc. split; reflexivity.
Qed.

(** Counts that wrap: [2^63 - 1] and then [1] on a reader. *)
Lemma Add_accumulates_witness :
  let c := BinaryReader.NewBinaryReader (clean "") in
  BinaryReader.Add (snd (BinaryReader.Add c 9223372036854775807 None))
                   1 (Some io_EOF)
  = BinaryReader.Add c (9223372036854775807 + 1) (Some io_EOF)
  /\
  BinaryReader.Add
    (snd (BinaryReader.Add c 9223372036854775807 (Some io_EOF))) 1 None
  = (true, snd (BinaryReader.Add c 9223372036854775807 (Some io_EOF))).
Proof.
  apply (proj1 Add_accumulates (BinaryReader.NewBinaryReader (clean ""))).
  reflexivity.
Defined.

(** ** Reads that follow one another *)

(** X5.  Successive reads concatenate.  On a reader without a fault whose
    source holds at least [len(p) + len(q)] bytes, [Bytes(p)] followed by
    [Bytes(q)] both succeed, and together they obtain the bytes and leave
    the cursor that the single call [Bytes] on a buffer of the combined
    length obtains and leaves.  A read of zero bytes succeeds and latches
    nothing whatever the source holds, even when it is exhausted. *)
Theorem reader_Bytes_compose (c : BinaryReader.t) (p q : list byte) :
  BinaryReader.err c = None ->
  (len p + len q <= len (io.data (BinaryReader.r c)) ->
   let r1 := BinaryReader.Bytes c p in
   let r2 := BinaryReader.Bytes (snd r1) q in
   let r12 := BinaryReader.Bytes c (p ++ q) in
   fst (fst r1) = false /\ fst (fst r2) = false /\ fst (fst r12) = false /\
   snd (fst r1) ++ snd (fst r2) = snd (fst r12) /\
   snd r2 = snd r12)
  /\
  (fst (fst (BinaryReader.Bytes c [])) = false /\
   BinaryReader.Err (snd (BinaryReader.Bytes c [])) = None /\
   BinaryReader.r (snd (BinaryReader.Bytes c [])) = BinaryReader.r c).
Proof.
  intros Hc. split.
  - intros Hlen. unfold len in Hlen.
    set (d := io.data (BinaryReader.r c)) in *.
    set (b1 := firstn (List.length p) d).
    set (d1 := skipn (List.length p) d).
    set (b2 := firstn (List.length q) d1).
    set (d2 := skipn (List.length q) d1).
    assert (d = b1 ++ d1) as Hd by (symmetry; apply firstn_skipn).
    assert (d1 = b2 ++ d2) as Hd1 by (symmetry; apply firstn_skipn).
    assert (List.length b1 = List.length p) as Hb1
        by (unfold b1; rewrite length_firstn; lia).
    assert (List.length d1 = (List.length d - List.length p)%nat) as Hl1
        by (unfold d1; apply length_skipn).
    assert (List.length b2 = List.length q) as Hb2
        by (unfold b2; rewrite length_firstn; lia).
    cbn zeta.
    rewrite (reader_Bytes_prefix c p b1 d1 Hc Hd (eq_sym Hb1)).
    cbn [fst snd].
    rewrite (reader_Bytes_prefix _ q b2 d2)
      by first [reflexivity | exact Hd1 | symmetry; exact Hb2].
    rewrite (reader_Bytes_prefix c (p ++ q) (b1 ++ b2) d2 Hc)
      by (first [rewrite <- app_assoc, <- Hd1; exact Hd
                | rewrite !length_app; lia]).
    cbn [fst snd BinaryReader.r BinaryReader.ord BinaryReader.n io.fail].
    repeat split. f_equal.
    rewrite int64_idem_l. f_equal. unfold len.
    rewrite length_app, Nat2Z.inj_add. lia.
  - unfold BinaryReader.Bytes, io.ReadFull. rewrite Hc.
    cbn [List.length Nat.leb firstn skipn fst snd BinaryReader.err
         BinaryReader.Err BinaryReader.r].
    repeat split. destruct (BinaryReader.r c); reflexivity.
Qed.

Lemma reader_Bytes_compose_witness :
  let c := BinaryReader.NewBinaryReader (clean "abcdef") in
  let r1 := BinaryReader.Bytes c (repeat x00 2) in
  let r2 := BinaryReader.Bytes (snd r1) (repeat x00 3) in
  let r12 := BinaryReader.Bytes c (repeat x00 2 ++ repeat x00 3) in
  fst (fst r1) = false /\ fst (fst r2) = false /\ fst (fst r12) = false /\
  snd (fst r1) ++ snd (fst r2) = snd (fst r12) /\
  snd r2 = snd r12.
Proof.
  apply (proj1 (reader_Bytes_compose
                  (BinaryReader.NewBinaryReader (clean "abcdef"))
                  (repeat x00 2) (repeat x00 3) eq_refl)).
  vm_compute. discriminate.
Defined.

(** X6.  [Bytes] and [All] share the stream.  On a reader without a fault
    whose source ends cleanly and holds at least [len(p)] bytes, [Bytes(p)]
    followed by [All] succeed and obtain, between them, exactly the bytes
    of the source; the count has grown by their number and no fault is
    latched.  At the end of the stream [All] still succeeds, with no
    bytes, while [Bytes] on a non-empty buffer fails with [io.EOF]. *)
Theorem Bytes_then_All (c : BinaryReader.t) (p : list byte) :
  BinaryReader.err c = None ->
  io.fail (BinaryReader.r c) = io_EOF ->
  len p <= len (io.data (BinaryReader.r c)) ->
  let r1 := BinaryReader.Bytes c p in
  let r2 := BinaryReader.All (snd r1) in
  let r3 := BinaryReader.All (snd r2) in
  fst (fst r1) = false /\ snd (fst r2) = false /\
  (exists rest, fst (fst r2) = Some rest /\
                snd (fst r1) ++ rest = io.data (BinaryReader.r c)) /\
  BinaryReader.N (snd r2)
  = int64 (BinaryReader.N c + len (io.data (BinaryReader.r c))) /\
  BinaryReader.Err (snd r2) = None /\
  fst r3 = (Some [], false) /\
  (forall q, q <> [] ->
             fst (fst (BinaryReader.Bytes (snd r2) q)) = true /\
             BinaryReader.Err (snd (BinaryReader.Bytes (snd r2) q))
             = Some io_EOF).
Proof.
  intros Hc He Hlen. unfold len in Hlen.
  set (d := io.data (BinaryReader.r c)) in *.
  assert (d = firstn (List.length p) d ++ skipn (List.length p) d) as Hd
      by (symmetry; apply firstn_skipn).
  assert (List.length (firstn (List.length p) d) = List.length p) as Hb
      by (rewrite length_firstn; lia).
  cbn zeta.
  rewrite (reader_Bytes_prefix c p _ _ Hc Hd (eq_sym Hb)).
  cbn [fst snd]. unfold BinaryReader.All, io.ReadAll.
  cbn [BinaryReader.err BinaryReader.r BinaryReader.ord BinaryReader.n
       io.data io.fail fst snd].
  rewrite He. cbn [is_EOF BinaryReader.err fst snd BinaryReader.r
                   BinaryReader.ord BinaryReader.n io.data io.fail].
  split; [reflexivity|]. split; [reflexivity|]. split.
  { eexists. split; [reflexivity|]. symmetry. exact Hd. }
  split.
  { unfold BinaryReader.N. cbn [BinaryReader.n].
    rewrite int64_count, int64_idem_l. f_equal.
    rewrite Hd at 3. unfold len. rewrite length_app, Nat2Z.inj_add. lia. }
  split; [reflexivity|]. split; [reflexivity|].
  intros q Hq.
  rewrite reader_Bytes_short;
    [ | reflexivity
      | cbn [BinaryReader.r io.data]; unfold len;
        destruct q; [contradiction | cbn [List.length]; lia] ].
  cbn [fst snd BinaryReader.Err BinaryReader.err BinaryReader.r io.data
       io.fail].
  split; reflexivity.
Qed.

Lemma Bytes_then_All_witness :
  let c := BinaryReader.NewBinaryReader (clean "abcdef") in
  let r1 := BinaryReader.Bytes c (repeat x00 2) in
  let r2 := BinaryReader.All (snd r1) in
  let r3 := BinaryReader.All (snd r2) in
  fst (fst r1) = false /\ snd (fst r2) = false /\
  (exists rest, fst (fst r2) = Some rest /\
                snd (fst r1) ++ rest = bytes "abcdef") /\
  BinaryReader.N (snd r2) = 6 /\
  BinaryReader.Err (snd r2) = None /\
  fst r3 = (Some [], false) /\
  (forall q, q <> [] ->
             fst (fst (BinaryReader.Bytes (snd r2) q)) = true /\
             BinaryReader.Err (snd (BinaryReader.Bytes (snd r2) q))
             = Some io_EOF).
Proof.
  apply (Bytes_then_All (BinaryReader.NewBinaryReader (clean "abcdef"))
                        (repeat x00 2)).
  - reflexivity.
  - reflexivity.
  - vm_compute. discriminate.
Defined.

(** X7.  A number is stored whole or not at all.  On a reader without a
    fault whose source holds fewer bytes than the type pointed to needs,
    [Number] returns [true] and stores nothing, and it does not panic, not
    even for a nil pointer; the bytes that were there are consumed and
    counted, and the fault latched is the one of the short read
    ([io.ErrUnexpectedEOF] after a clean end with some bytes, [io.EOF]
    after a clean end with none, the source's error otherwise). *)
Theorem Number_short_source (c : BinaryReader.t) (T : numtype)
        (isnil : bool) :
  BinaryReader.err c = None ->
  len (io.data (BinaryReader.r c)) < NumberSize (Ptr T isnil) ->
  exists c' : BinaryReader.t,
    BinaryReader.Number c (Ptr T isnil) = Return (true, None) c' /\
    io.data (BinaryReader.r c') = [] /\
    BinaryReader.N c'
    = int64 (BinaryReader.N c + len (io.data (BinaryReader.r c))) /\
    BinaryReader.Err c'
    = Some (match io.data (BinaryReader.r c) with
            | [] => io.fail (BinaryReader.r c)
            | _ :: _ =>
              if is_EOF (io.fail (BinaryReader.r c))
              then io_ErrUnexpectedEOF
              else io.fail (BinaryReader.r c)
            end).
Proof.
  intros Hc Hlen. unfold BinaryReader.Number. rewrite Hc.
  assert ((NumberSize (Ptr T isnil) =? 0) = false) as ->
      by (destruct T; reflexivity).
  assert (len (scratch (NumberSize (Ptr T isnil)))
          = NumberSize (Ptr T isnil)) as Hs by (destruct T; reflexivity).
  rewrite reader_Bytes_short by (first [exact Hc | rewrite Hs; exact Hlen]).
  eexists. split; [reflexivity|]. repeat split.
Qed.

Lemma Number_short_source_witness :
  exists c' : BinaryReader.t,
    BinaryReader.Number (BinaryReader.NewBinaryReader (clean "abc"))
                        (Ptr T_uint32 true)
    = Return (true, None) c' /\
    io.data (BinaryReader.r c') = [] /\
    BinaryReader.N c' = 3 /\
    BinaryReader.Err c' = Some io_ErrUnexpectedEOF.
Proof.
  apply (Number_short_source (BinaryReader.NewBinaryReader (clean "abc"))
                             T_uint32 true).
  - reflexivity.
  - vm_compute. reflexivity.
Defined.

(** ** Writes *)

(** X8.  A write can succeed and poison the cursor.  For every sink, when
    [Write] reports the full count (or more) together with an error,
    [Bytes(p)] returns [failed = false], yet the error is latched: [Err]
    reports it, and every later [Bytes] and [Number] returns [true] and
    leaves the cursor, the sink included, as it is. *)
Theorem Bytes_full_count_with_error
        (W : Type) (Wr : io.Writer W) (c : BinaryWriter.t W)
        (p : list byte) (k : Z) (e : error) (sink : W) :
  BinaryWriter.err c = None ->
  io.Write (BinaryWriter.w c) p = ((k, Some e), sink) ->
  len p <= k ->
  let c' := snd (BinaryWriter.Bytes c p) in
  fst (BinaryWriter.Bytes c p) = false /\
  BinaryWriter.Err c' = Some e /\
  BinaryWriter.w c' = sink /\
  BinaryWriter.N c' = int64 (BinaryWriter.N c + k) /\
  (forall q, BinaryWriter.Bytes c' q = (true, c')) /\
  (forall v, BinaryWriter.Number c' v = Return true c').
Proof.
  intros Hc Hw Hk. unfold BinaryWriter.Bytes at 1 2. rewrite Hc, Hw.
  destruct (Z.ltb_spec k (len p)); [lia|]. cbn [fst snd].
  unfold BinaryWriter.N. cbn [BinaryWriter.n]. rewrite int64_count.
  repeat split.
Qed.

(** A sink that has taken the bytes and reports that the disk is full. *)
Lemma Bytes_full_count_with_error_witness :
  let c := BinaryWriter.NewBinaryWriter
             (mkReporting [] (Some (errors_New "disk full"))) in
  let c' := snd (BinaryWriter.Bytes c (bytes "abc")) in
  fst (BinaryWriter.Bytes c (bytes "abc")) = false /\
  BinaryWriter.Err c' = Some (errors_New "disk full") /\
  BinaryWriter.w c'
  = mkReporting (bytes "abc") (Some (errors_New "disk full")) /\
  BinaryWriter.N c' = int64 (0 + 3) /\
  (forall q, BinaryWriter.Bytes c' q = (true, c')) /\
  (forall v, BinaryWriter.Number c' v = Return true c').
Proof.
  apply (Bytes_full_count_with_error
           reportingWriter _
           (BinaryWriter.NewBinaryWriter
              (mkReporting [] (Some (errors_New "disk full"))))
           (bytes "abc") 3 (errors_New "disk full")
           (mkReporting (bytes "abc") (Some (errors_New "disk full")))).
  - reflexivity.
  - reflexivity.
  - vm_compute. discriminate.
Defined.

(** X9.  On a [bytes.Buffer], a writer without a fault never fails:
    [Bytes(p)] followed by [Bytes(q)] leaves the cursor that [Bytes] of
    the concatenation leaves, the buffer holds what it held followed by
    [p] and [q], and [Number] of a number is [Bytes] of [NumberSize]
    bytes. *)
Theorem buffer_Bytes_compose (c : BinaryWriter.t bytes_Buffer)
        (p q : list byte) (x : number) :
  BinaryWriter.err c = None ->
  BinaryWriter.Bytes (snd (BinaryWriter.Bytes c p)) q
  = BinaryWriter.Bytes c (p ++ q) /\
  fst (BinaryWriter.Bytes c (p ++ q)) = false /\
  BinaryWriter.w (snd (BinaryWriter.Bytes c (p ++ q)))
  = BinaryWriter.w c ++ p ++ q /\
  BinaryWriter.Err (snd (BinaryWriter.Bytes c (p ++ q))) = None /\
  (exists b : list byte,
      len b = NumberSize (Num x) /\
      BinaryWriter.Number c (Num x)
      = Return (fst (BinaryWriter.Bytes c b)) (snd (BinaryWriter.Bytes c b))).
Proof.
  intros Hc.
  rewrite (buffer_Bytes c p Hc), (buffer_Bytes c (p ++ q) Hc). cbn [snd].
  rewrite buffer_Bytes by reflexivity.
  cbn [fst snd BinaryWriter.w BinaryWriter.ord BinaryWriter.n
       BinaryWriter.Err BinaryWriter.err].
  split.
  { rewrite int64_idem_l, <- app_assoc. do 3 f_equal. unfold len.
    rewrite length_app, Nat2Z.inj_add. lia. }
  repeat split.
  exists (layout (BinaryWriter.ord c) x). split; [apply layout_length|].
  rewrite writer_Number_layout by exact Hc. unfold BinaryWriter.put.
  destruct (BinaryWriter.Bytes c _). reflexivity.
Qed.

Lemma buffer_Bytes_compose_witness :
  let c := BinaryWriter.NewBinaryWriter (bytes "ab" : bytes_Buffer) in
  BinaryWriter.Bytes (snd (BinaryWriter.Bytes c (bytes "cd"))) (bytes "e")
  = BinaryWriter.Bytes c (bytes "cd" ++ bytes "e") /\
  fst (BinaryWriter.Bytes c (bytes "cd" ++ bytes "e")) = false /\
  BinaryWriter.w (snd (BinaryWriter.Bytes c (bytes "cd" ++ bytes "e")))
  = bytes "abcde" /\
  BinaryWriter.Err (snd (BinaryWriter.Bytes c (bytes "cd" ++ bytes "e")))
  = None /\
  (exists b : list byte,
      len b = 2 /\
      BinaryWriter.Number c (Num (Int16 1))
      = Return (fst (BinaryWriter.Bytes c b)) (snd (BinaryWriter.Bytes c b))).
Proof.
  apply (buffer_Bytes_compose
           (BinaryWriter.NewBinaryWriter (bytes "ab" : bytes_Buffer))
           (bytes "cd") (bytes "e") (Int16 1)).
  reflexivity.
Defined.

(** ** Next and MustNext *)

Lemma DecodeRune_nonneg (p : list byte) : 0 <= fst (utf8.DecodeRune p).
Proof.
  assert (forall b, 0 <= Z_of_byte b) as Hb
      by (intros b; pose proof (Z_of_byte_range b); lia).
  assert (0 <= utf8.RuneError) as He by (unfold utf8.RuneError; lia).
  destruct p as [|p0 [|p1 [|p2 [|p3 tl]]]];
    unfold utf8.DecodeRune;
    try destruct (utf8.first (Z_of_byte p0));
    repeat match goal with
           | |- context [if ?b then _ else _] => destruct b
           end;
    cbn [fst]; auto;
    repeat (apply Z.lor_nonneg; split);
    try (apply Z.shiftl_nonneg);
    apply Z.land_nonneg; left; apply Hb.
Qed.

Lemma DecodeRune_width4 (p : list byte) : snd (utf8.DecodeRune p) <= 4.
Proof.
  destruct p as [|p0 [|p1 [|p2 [|p3 tl]]]];
    unfold utf8.DecodeRune;
    try destruct (utf8.first (Z_of_byte p0));
    repeat match goal with
           | |- context [if ?b then _ else _] => destruct b
           end;
    cbn [snd]; lia.
Qed.

(** [Next] on a cursor without a fault, by what is left of the stream. *)
Lemma Next_some (c : TextReader.t) (x : rune) (w : Z) :
  TextReader.err c = None ->
  TextReader.pending c <> [] ->
  utf8.DecodeRune (TextReader.pending c) = (x, w) ->
  TextReader.Next c
  = (x,
     TextReader.mk
       (bufio.advance (TextReader.r c) (Z.to_nat w)
                      (firstn (Z.to_nat w) (TextReader.pending c)))
       (TextReader.buf c) (int64 (TextReader.n c + int64 w)) None).
Proof.
  intros Hc Hp Hd. unfold TextReader.Next. rewrite Hc.
  rewrite (ReadRune_some _ x w Hp Hd). reflexivity.
Qed.

Lemma Next_none (c : TextReader.t) :
  TextReader.err c = None ->
  TextReader.pending c = [] ->
  TextReader.Next c
  = (-1,
     TextReader.mk
       (bufio.mkReader (bufio.rd (TextReader.r c))
                       (bufio.size (TextReader.r c)) [])
       (TextReader.buf c) (TextReader.n c)
       (Some (io.fail (bufio.rd (TextReader.r c))))).
Proof.
  intros Hc Hp. unfold TextReader.Next. rewrite Hc.
  rewrite (ReadRune_none _ Hp). reflexivity.
Qed.

(** X10.  [Next] returns a negative rune exactly when it leaves a fault on
    the cursor.  On a cursor without a fault and with bytes left it returns
    the first rune of the stream, takes between one and four bytes off the
    stream and adds their number to the count; at the end of the stream it
    returns [-1], latches the error of the source ([io.EOF] at a clean end)
    and leaves the count as it is. *)
Theorem Next_contract (c : TextReader.t) :
  (fst (TextReader.Next c) < 0
   <-> TextReader.Err (snd (TextReader.Next c)) <> None)
  /\
  (TextReader.err c = None -> TextReader.pending c <> [] ->
   exists taken : list byte,
     TextReader.pending c
     = taken ++ TextReader.pending (snd (TextReader.Next c)) /\
     1 <= len taken <= 4 /\
     utf8.DecodeRune (TextReader.pending c)
     = (fst (TextReader.Next c), len taken) /\
     TextReader.N (snd (TextReader.Next c))
     = int64 (TextReader.N c + len taken))
  /\
  (TextReader.err c = None -> TextReader.pending c = [] ->
   fst (TextReader.Next c) = -1 /\
   TextReader.Err (snd (TextReader.Next c))
   = Some (io.fail (bufio.rd (TextReader.r c))) /\
   TextReader.N (snd (TextReader.Next c)) = TextReader.N c).
Proof.
  assert (TextReader.err c = None -> TextReader.pending c <> [] ->
          exists taken : list byte,
            TextReader.pending c
            = taken ++ TextReader.pending (snd (TextReader.Next c)) /\
            1 <= len taken <= 4 /\
            utf8.DecodeRune (TextReader.pending c)
            = (fst (TextReader.Next c), len taken) /\
            TextReader.N (snd (TextReader.Next c))
            = int64 (TextReader.N c + len taken)) as Hsome.
  { intros Hc Hp.
    destruct (utf8.DecodeRune (TextReader.pending c)) as [x w] eqn:Hd.
    pose proof (DecodeRune_width _ x w Hp Hd) as Hw.
    pose proof (DecodeRune_width4 (TextReader.pending c)) as H4.
    rewrite Hd in H4. cbn [snd] in H4. unfold len in Hw.
    rewrite (Next_some c x w Hc Hp Hd). cbn [fst snd].
    exists (firstn (Z.to_nat w) (TextReader.pending c)).
    assert (len (firstn (Z.to_nat w) (TextReader.pending c)) = w) as Hl
        by (unfold len; rewrite length_firstn; lia).
    rewrite Hl. split.
    - unfold TextReader.pending at 3. cbn [TextReader.r].
      rewrite pending_advance. symmetry. apply firstn_skipn.
    - split; [lia|]. split; [reflexivity|].
      unfold TextReader.N. cbn [TextReader.n]. apply int64_count. }
  split; [|split; [exact Hsome|]].
  - destruct (TextReader.err c) as [e|] eqn:Hc.
    { unfold TextReader.Next, TextReader.Err. rewrite Hc. cbn [fst snd].
      rewrite Hc. split; [discriminate | lia]. }
    destruct (list_eq_dec Byte.byte_eq_dec (TextReader.pending c) [])
      as [Hp|Hp].
    + rewrite (Next_none c Hc Hp). cbn. split; [discriminate | lia].
    + destruct (utf8.DecodeRune (TextReader.pending c)) as [x w] eqn:Hd.
      rewrite (Next_some c x w Hc Hp Hd). cbn [fst snd TextReader.Err
                                                 TextReader.err].
      pose proof (DecodeRune_nonneg (TextReader.pending c)) as H0.
      rewrite Hd in H0. cbn [fst] in H0.
      split; [lia | congruence].
  - intros Hc Hp. rewrite (Next_none c Hc Hp). repeat split.
Qed.

Lemma Next_contract_witness :
  (exists taken : list byte,
      TextReader.pending (text "a;")
      = taken ++ TextReader.pending (snd (TextReader.Next (text "a;"))) /\
      1 <= len taken <= 4 /\
      utf8.DecodeRune (TextReader.pending (text "a;"))
      = (fst (TextReader.Next (text "a;")), len taken) /\
      TextReader.N (snd (TextReader.Next (text "a;")))
      = int64 (0 + len taken))
  /\
  (fst (TextReader.Next (text "")) = -1 /\
   TextReader.Err (snd (TextReader.Next (text ""))) = Some io_EOF /\
   TextReader.N (snd (TextReader.Next (text ""))) = 0).
Proof.
  split.
  - apply (proj1 (proj2 (Next_contract (text "a;"))));
      [reflexivity | discriminate].
  - apply (proj2 (proj2 (Next_contract (text "")))); reflexivity.
Defined.

(** X11.  [MustNext] on a cursor without a fault agrees with [Next] while
    bytes are left.  At the end of the stream both return [-1], but where
    [Next] latches [io.EOF] at a clean end, [MustNext] latches
    [io.ErrUnexpectedEOF]: after [MustNext] the fault is never [io.EOF],
    so [IsEOF] is [false] after a failed [MustNext] and [true] after a
    [Next] that met the clean end. *)
Theorem MustNext_contract (c : TextReader.t) :
  TextReader.err c = None ->
  (TextReader.pending c <> [] -> TextReader.MustNext c = TextReader.Next c)
  /\
  (TextReader.pending c = [] ->
   fst (TextReader.MustNext c) = -1 /\
   TextReader.Err (snd (TextReader.MustNext c))
   = Some (if is_EOF (io.fail (bufio.rd (TextReader.r c)))
           then io_ErrUnexpectedEOF
           else io.fail (bufio.rd (TextReader.r c))) /\
   TextReader.N (snd (TextReader.MustNext c)) = TextReader.N c /\
   fst (TextReader.IsEOF (snd (TextReader.MustNext c))) = false /\
   fst (TextReader.IsEOF (snd (TextReader.Next c)))
   = is_EOF (io.fail (bufio.rd (TextReader.r c))))
  /\
  TextReader.Err (snd (TextReader.MustNext c)) <> Some io_EOF.
Proof.
  intros Hc.
  assert (TextReader.pending c <> [] ->
          TextReader.MustNext c = TextReader.Next c
          /\ TextReader.Err (snd (TextReader.MustNext c)) = None)
    as Hsome.
  { intros Hp.
    destruct (utf8.DecodeRune (TextReader.pending c)) as [x w] eqn:Hd.
    pose proof (DecodeRune_nonneg (TextReader.pending c)) as H0.
    rewrite Hd in H0. cbn [fst] in H0.
    unfold TextReader.MustNext. rewrite Hc, (Next_some c x w Hc Hp Hd).
    destruct (Z.ltb_spec x 0); [lia|]. split; reflexivity. }
  assert (TextReader.pending c = [] ->
          TextReader.MustNext c
          = (-1,
             TextReader.mk
               (bufio.mkReader (bufio.rd (TextReader.r c))
                               (bufio.size (TextReader.r c)) [])
               (TextReader.buf c) (TextReader.n c)
               (Some (if is_EOF (io.fail (bufio.rd (TextReader.r c)))
                      then io_ErrUnexpectedEOF
                      else io.fail (bufio.rd (TextReader.r c))))))
    as Hnone.
  { intros Hp. unfold TextReader.MustNext. rewrite Hc, (Next_none c Hc Hp).
    cbn [Z.ltb Z.compare TextReader.err TextReader.r TextReader.buf
         TextReader.n].
    destruct (io.fail (bufio.rd (TextReader.r c))); reflexivity. }
  split; [intros Hp; apply Hsome, Hp|]. split.
  - intros Hp. rewrite (Hnone Hp), (Next_none c Hc Hp).
    cbn [fst snd TextReader.Err TextReader.N TextReader.err TextReader.n].
    unfold TextReader.IsEOF. cbn [TextReader.err fst].
    repeat split.
    destruct (io.fail (bufio.rd (TextReader.r c))); reflexivity.
  - destruct (list_eq_dec Byte.byte_eq_dec (TextReader.pending c) [])
      as [Hp|Hp].
    + rewrite (Hnone Hp). cbn [snd TextReader.Err TextReader.err].
      destruct (io.fail (bufio.rd (TextReader.r c))); discriminate.
    + destruct (Hsome Hp) as [_ ->]. discriminate.
Qed.

Lemma MustNext_contract_witness :
  (TextReader.MustNext (text "a") = TextReader.Next (text "a"))
  /\
  (fst (TextReader.MustNext (text "")) = -1 /\
   TextReader.Err (snd (TextReader.MustNext (text "")))
   = Some io_ErrUnexpectedEOF /\
   TextReader.N (snd (TextReader.MustNext (text ""))) = 0 /\
   fst (TextReader.IsEOF (snd (TextReader.MustNext (text "")))) = false /\
   fst (TextReader.IsEOF (snd (TextReader.Next (text "")))) = true).
Proof.
  split.
  - apply (proj1 (MustNext_contract (text "a") eq_refl)). discriminate.
  - apply (proj1 (proj2 (MustNext_contract (text "") eq_refl))). reflexivity.
Defined.

(** ** IsAny and Skip *)

Lemma UnreadRune_after_ReadRune (b : bufio.Reader) (x : rune) (w : Z) :
  bufio.pending b <> [] ->
  utf8.DecodeRune (bufio.pending b) = (x, w) ->
  bufio.UnreadRune
    (bufio.advance b (Z.to_nat w) (firstn (Z.to_nat w) (bufio.pending b)))
  = (None,
     bufio.mkReader (io.mkReader (bufio.pending b) (io.fail (bufio.rd b)))
                    (bufio.size b) []).
Proof.
  intros Hp Hd. pose proof (DecodeRune_width _ x w Hp Hd) as Hw.
  unfold bufio.UnreadRune, bufio.advance.
  cbn [bufio.lastRune bufio.rd bufio.size io.fail].
  destruct (firstn (Z.to_nat w) (bufio.pending b)) as [|b0 l] eqn:E.
  - apply (f_equal (@List.length byte)) in E.
    rewrite length_firstn in E. unfold len in Hw. cbn in E. lia.
  - rewrite <- E. unfold bufio.pending at 2. cbn [bufio.rd io.data].
    rewrite firstn_skipn. reflexivity.
Qed.

(** The loop of [IsAny] on a stream whose runes [pre] satisfy [f] and are
    followed by a rune that does not: that rune is given back. *)
Lemma IsAny_loop_stop (f : rune -> bool) (p mid : list byte)
      (pre : list (rune * Z)) (m : rune) (w : Z) :
  reads p pre mid -> all_satisfy f pre ->
  mid <> [] -> utf8.DecodeRune mid = (m, w) -> f m = false ->
  forall (fuel : nat) (c : TextReader.t),
    TextReader.pending c = p -> (List.length p < fuel)%nat ->
    TextReader.IsAny_loop fuel c f
    = Some ((TextReader.buf c ++ spelled pre, true),
            TextReader.mk
              (bufio.mkReader
                 (io.mkReader mid (io.fail (bufio.rd (TextReader.r c))))
                 (bufio.size (TextReader.r c)) [])
              (TextReader.buf c ++ spelled pre)
              (counted (TextReader.n c) pre)
              None).
Proof.
  intros Hreads.
  induction Hreads as [p | p x w0 xs rest Hp Hx Hreads IH];
    intros Hpre Hmid Hd Hf fuel c Hc Hfuel;
    (destruct fuel as [|fuel]; [lia|]); cbn [TextReader.IsAny_loop];
    unfold TextReader.pending in Hc.
  - rewrite (ReadRune_some _ m w) by (rewrite Hc; assumption).
    cbn [TextReader.err TextReader.r TextReader.buf TextReader.n].
    rewrite Hf. cbn [negb].
    rewrite (UnreadRune_after_ReadRune _ m w)
      by (rewrite Hc; assumption).
    unfold spelled, counted. cbn [map List.concat fold_left].
    rewrite app_nil_r, Hc. reflexivity.
  - apply Forall_cons_iff in Hpre. destruct Hpre as [Hfx Hxs].
    cbn [fst] in Hfx.
    rewrite (ReadRune_some _ x w0) by (rewrite Hc; assumption).
    cbn [TextReader.err TextReader.r TextReader.buf TextReader.n].
    rewrite Hfx. cbn [negb].
    rewrite (IH Hxs Hmid Hd Hf).
    + cbn [TextReader.buf TextReader.n TextReader.r bufio.advance
           bufio.rd bufio.size io.fail].
      rewrite spelled_cons, <- app_assoc. reflexivity.
    + unfold TextReader.pending. cbn [TextReader.r].
      rewrite pending_advance, Hc. reflexivity.
    + pose proof (skipn_rune_shorter _ x w0 Hp Hx). lia.
Qed.

(** The same loop on a stream all of whose runes satisfy [f]. *)
Lemma IsAny_loop_end (f : rune -> bool) (p rest : list byte)
      (pre : list (rune * Z)) :
  reads p pre rest -> rest = [] -> all_satisfy f pre ->
  forall (fuel : nat) (c : TextReader.t),
    TextReader.pending c = p -> (List.length p < fuel)%nat ->
    TextReader.IsAny_loop fuel c f
    = Some ((if is_EOF (io.fail (bufio.rd (TextReader.r c)))
             then TextReader.buf c ++ spelled pre else [],
             is_EOF (io.fail (bufio.rd (TextReader.r c)))),
            TextReader.mk
              (bufio.mkReader
                 (io.mkReader [] (io.fail (bufio.rd (TextReader.r c))))
                 (bufio.size (TextReader.r c)) [])
              (TextReader.buf c ++ spelled pre)
              (counted (TextReader.n c) pre)
              (if is_EOF (io.fail (bufio.rd (TextReader.r c)))
               then None
               else Some (io.fail (bufio.rd (TextReader.r c))))).
Proof.
  intros Hreads.
  induction Hreads as [p | p x w0 xs rest Hp Hx Hreads IH];
    intros Hrest Hpre fuel c Hc Hfuel;
    (destruct fuel as [|fuel]; [lia|]); cbn [TextReader.IsAny_loop];
    unfold TextReader.pending in Hc.
  - subst p. rewrite ReadRune_none by exact Hc.
    cbn [TextReader.err TextReader.r TextReader.buf TextReader.n].
    unfold spelled, counted. cbn [map List.concat fold_left].
    rewrite app_nil_r.
    destruct (TextReader.r c) as [[d e] sz l]. cbn in Hc. subst d.
    destruct e; reflexivity.
  - apply Forall_cons_iff in Hpre. destruct Hpre as [Hfx Hxs].
    cbn [fst] in Hfx.
    rewrite (ReadRune_some _ x w0) by (rewrite Hc; assumption).
    cbn [TextReader.err TextReader.r TextReader.buf TextReader.n].
    rewrite Hfx. cbn [negb].
    rewrite (IH Hrest Hxs).
    + cbn [TextReader.buf TextReader.n TextReader.r bufio.advance
           bufio.rd bufio.size io.fail].
      rewrite spelled_cons, <- app_assoc. reflexivity.
    + unfold TextReader.pending. cbn [TextReader.r].
      rewrite pending_advance, Hc. reflexivity.
    + pose proof (skipn_rune_shorter _ x w0 Hp Hx). lia.
Qed.

(** X12.  [IsAny(f)] on a cursor without a fault returns the longest run
    of runes at the front of the stream that satisfy [f].  When a rune
    that fails [f] follows, it is given back: the stream stands at that
    rune and the count has grown by the widths of the runes returned.
    When the stream ends first, the call still succeeds if the end is
    clean, and leaves no fault; only an error of the source other than
    [io.EOF] makes it fail, with [("", false)] and that error latched. *)
Theorem IsAny_spec (c : TextReader.t) (f : rune -> bool) :
  TextReader.err c = None ->
  (forall (pre : list (rune * Z)) (mid : list byte) (m : rune) (w : Z),
      reads (TextReader.pending c) pre mid ->
      all_satisfy f pre ->
      mid <> [] -> utf8.DecodeRune mid = (m, w) -> f m = false ->
      exists c' : TextReader.t,
        TextReader.IsAny c f = Some ((spelled pre, true), c') /\
        TextReader.pending c' = mid /\
        TextReader.N c' = counted (TextReader.N c) pre /\
        TextReader.Err c' = None)
  /\
  (forall pre : list (rune * Z),
      reads (TextReader.pending c) pre [] ->
      all_satisfy f pre ->
      exists c' : TextReader.t,
        TextReader.IsAny c f
        = Some ((if is_EOF (io.fail (bufio.rd (TextReader.r c)))
                 then spelled pre else [],
                 is_EOF (io.fail (bufio.rd (TextReader.r c)))), c') /\
        TextReader.pending c' = [] /\
        TextReader.N c' = counted (TextReader.N c) pre /\
        TextReader.Err c'
        = (if is_EOF (io.fail (bufio.rd (TextReader.r c)))
           then None
           else Some (io.fail (bufio.rd (TextReader.r c))))).
Proof.
  intros Hc. split.
  - intros pre mid m w Hr Hn Hm Hd Hf. unfold TextReader.IsAny. rewrite Hc.
    erewrite IsAny_loop_stop; try eassumption.
    + eexists. split; [reflexivity|]. repeat split.
    + reflexivity.
    + unfold TextReader.enough, TextReader.pending. cbn [TextReader.r]. lia.
  - intros pre Hr Hn. unfold TextReader.IsAny. rewrite Hc.
    erewrite IsAny_loop_end; try eassumption.
    + eexists. split; [reflexivity|]. repeat split.
    + reflexivity.
    + reflexivity.
    + unfold TextReader.enough, TextReader.pending. cbn [TextReader.r]. lia.
Qed.

(** Letters up to a digit, and letters up to the end. *)
Lemma IsAny_spec_witness :
  let letter := fun x : rune => (97 <=? x) && (x <=? 122) in
  (exists c' : TextReader.t,
      TextReader.IsAny (text "ab1") letter = Some ((bytes "ab", true), c') /\
      TextReader.pending c' = bytes "1" /\
      TextReader.N c' = 2 /\
      TextReader.Err c' = None)
  /\
  (exists c' : TextReader.t,
      TextReader.IsAny (text "ab") letter = Some ((bytes "ab", true), c') /\
      TextReader.pending c' = [] /\
      TextReader.N c' = 2 /\
      TextReader.Err c' = None).
Proof.
  split.
  - apply (proj1 (IsAny_spec (text "ab1")
                             (fun x : rune => (97 <=? x) && (x <=? 122))
                             eq_refl)
                 [(97, 1); (98, 1)] (bytes "1") 49 1).
    + apply reads_rune; [discriminate | reflexivity | ].
      apply reads_rune; [discriminate | reflexivity | ].
      apply reads_done.
    + repeat constructor.
    + discriminate.
    + reflexivity.
    + reflexivity.
  - apply (proj2 (IsAny_spec (text "ab")
                             (fun x : rune => (97 <=? x) && (x <=? 122))
                             eq_refl)
                 [(97, 1); (98, 1)]).
    + apply reads_rune; [discriminate | reflexivity | ].
      apply reads_rune; [discriminate | reflexivity | ].
      apply reads_done.
    + repeat constructor.
Defined.

(** [Skip] walks the stream as [IsAny] does; only [buf] is not touched. *)
Lemma Skip_loop_IsAny_loop (f : rune -> bool) (fuel : nat)
      (c1 c2 : TextReader.t) :
  TextReader.r c1 = TextReader.r c2 ->
  TextReader.n c1 = TextReader.n c2 ->
  match TextReader.IsAny_loop fuel c1 f, TextReader.Skip_loop fuel c2 f with
  | Some ((_, ok1), a), Some (ok2, b) =>
    ok1 = ok2 /\ TextReader.r a = TextReader.r b /\
    TextReader.n a = TextReader.n b /\
    TextReader.err a = TextReader.err b /\
    TextReader.buf b = TextReader.buf c2
  | None, None => True
  | _, _ => False
  end.
Proof.
  revert c1 c2. induction fuel as [|fuel IH]; intros c1 c2 Hr Hn;
    [exact I|].
  cbn [TextReader.IsAny_loop TextReader.Skip_loop]. rewrite Hr, Hn.
  destruct (bufio.ReadRune (TextReader.r c2)) as [[[x w] e] br].
  cbn [TextReader.err TextReader.r TextReader.buf TextReader.n].
  destruct e as [e|].
  - destruct (is_EOF e); repeat split.
  - destruct (f x); cbn [negb].
    + specialize (IH (TextReader.mk br (TextReader.buf c1
                                          ++ utf8.AppendRune x)
                                    (int64 (TextReader.n c2 + int64 w)) None)
                     (TextReader.mk br (TextReader.buf c2)
                                    (int64 (TextReader.n c2 + int64 w)) None)
                     eq_refl eq_refl).
      exact IH.
    + destruct (bufio.UnreadRune br). repeat split.
Qed.

(** X13.  [Skip(f)] does to the cursor what [IsAny(f)] does: the two
    calls return the same [ok] and leave the same stream, count and fault;
    [Skip] leaves the scratch buffer of the cursor alone and returns no
    string. *)
Theorem Skip_is_IsAny (c : TextReader.t) (f : rune -> bool) :
  exists (s : list byte) (ok : bool) (a b : TextReader.t),
    TextReader.IsAny c f = Some ((s, ok), a) /\
    TextReader.Skip c f = Some (ok, b) /\
    TextReader.r a = TextReader.r b /\
    TextReader.N a = TextReader.N b /\
    TextReader.Err a = TextReader.Err b /\
    TextReader.buf b = TextReader.buf c.
Proof.
  unfold TextReader.IsAny, TextReader.Skip.
  destruct (TextReader.err c) eqn:Hc.
  - exists [], false, c, c. repeat split.
  - pose proof (Skip_loop_IsAny_loop
                  f (TextReader.enough c)
                  (TextReader.mk (TextReader.r c) [] (TextReader.n c)
                                 (TextReader.err c))
                  c eq_refl eq_refl) as H.
    pose proof (IsAny_loop_total
                  f (TextReader.enough c)
                  (TextReader.mk (TextReader.r c) [] (TextReader.n c)
                                 (TextReader.err c))) as Ht.
    rewrite Hc in *.
    destruct (TextReader.IsAny_loop _ _ f) as [[[s ok1] a]|];
      [|exfalso; apply Ht; [unfold TextReader.enough, TextReader.pending;
                            cbn [TextReader.r]; lia | reflexivity]].
    destruct (TextReader.Skip_loop _ c f) as [[ok2 b]|]; [|contradiction].
    destruct H as (-> & H1 & H2 & H3 & H4).
    exists s, ok2, a, b. repeat split; assumption.
Qed.

(** ** The count and the stream *)

Lemma IsAny_loop_in_step (f : rune -> bool) (fuel : nat) :
  forall (c : TextReader.t) (res : list byte * bool) (c' : TextReader.t),
    - 2 ^ 63 <= TextReader.n c ->
    TextReader.n c + len (TextReader.pending c) < 2 ^ 63 ->
    TextReader.IsAny_loop fuel c f = Some (res, c') ->
    TextReader.n c' + len (TextReader.pending c')
    = TextReader.n c + len (TextReader.pending c) /\
    TextReader.n c <= TextReader.n c'.
Proof.
  induction fuel as [|fuel IH]; intros c res c' Hlo Hhi H; [discriminate|].
  cbn [TextReader.IsAny_loop] in H. unfold TextReader.pending in *.
  destruct (bufio.pending (TextReader.r c)) as [|b0 tl] eqn:Ep.
  - rewrite (ReadRune_none _ Ep) in H. cbn [TextReader.err] in H.
    destruct (is_EOF _); injection H as _ <-;
      cbn [TextReader.n TextReader.r];
      unfold bufio.pending in *; cbn [bufio.rd]; rewrite Ep; lia.
  - assert (bufio.pending (TextReader.r c) <> []) as Hp
        by (rewrite Ep; discriminate).
    destruct (utf8.DecodeRune (bufio.pending (TextReader.r c)))
      as [x w] eqn:Hd.
    pose proof (DecodeRune_width _ x w Hp Hd) as Hw. unfold len in *.
    rewrite (ReadRune_some _ x w Hp Hd) in H.
    cbn [TextReader.err TextReader.r TextReader.buf TextReader.n] in H.
    rewrite <- Ep in *.
    destruct (f x); cbn [negb] in H.
    + apply IH in H;
        cbn [TextReader.n TextReader.r] in *;
        rewrite ?pending_advance, ?length_skipn in *;
        rewrite ?int64_count, ?int64_small in * by lia; lia.
    + rewrite (UnreadRune_after_ReadRune _ x w Hp Hd) in H.
      injection H as _ <-.
      cbn [TextReader.n TextReader.r bufio.pending bufio.rd io.data]. lia.
Qed.

Lemma Peek_none_pending (b : bufio.Reader) (k : nat) (got : list byte)
      (br : bufio.Reader) :
  bufio.Peek b k = ((got, None), br) ->
  bufio.pending (snd (bufio.Discard br k)) = skipn k (bufio.pending b) /\
  (k <= List.length (bufio.pending b))%nat.
Proof.
  intros H. apply Peek_full in H. destruct H as (_ & Hle & Hbr).
  split; [|exact Hle]. unfold bufio.Discard. rewrite Hbr.
  destruct (Nat.eqb_spec k 0) as [->|Hk]; [cbn [snd skipn]; exact Hbr|].
  destruct (Nat.leb_spec k (List.length (bufio.pending b))); [|lia].
  cbn [snd]. rewrite pending_advance, Hbr. reflexivity.
Qed.

Lemma call_in_step (c : TextReader.t) (op : TextReaderCalls.call)
      (res : TextReaderCalls.result) (c' : TextReader.t) :
  counts_what_it_takes op = true ->
  - 2 ^ 63 <= TextReader.n c ->
  TextReader.n c + len (TextReader.pending c) < 2 ^ 63 ->
  TextReaderCalls.run c op = Some (res, c') ->
  TextReader.n c' + len (TextReader.pending c')
  = TextReader.n c + len (TextReader.pending c) /\
  TextReader.n c <= TextReader.n c'.
Proof.
  intros Hop Hlo Hhi Hrun.
  destruct (TextReader.err c) as [e|] eqn:Hc.
  { rewrite TextReader_sticky in Hrun by congruence.
    injection Hrun as _ <-. lia. }
  assert (forall x c1, TextReader.Next c = (x, c1) ->
                       TextReader.n c1 + len (TextReader.pending c1)
                       = TextReader.n c + len (TextReader.pending c) /\
                       TextReader.n c <= TextReader.n c1) as HNext.
  { intros x c1 H.
    destruct (list_eq_dec Byte.byte_eq_dec (TextReader.pending c) [])
      as [Hp|Hp].
    - rewrite (Next_none c Hc Hp) in H. injection H as _ <-.
      unfold TextReader.pending in *.
      cbn [TextReader.n TextReader.r].
      change (bufio.pending (bufio.mkReader (bufio.rd (TextReader.r c))
                                            (bufio.size (TextReader.r c)) []))
        with (bufio.pending (TextReader.r c)).
      lia.
    - destruct (utf8.DecodeRune (TextReader.pending c)) as [y w] eqn:Hd.
      pose proof (DecodeRune_width _ y w Hp Hd) as Hw.
      rewrite (Next_some c y w Hc Hp Hd) in H. injection H as _ <-.
      unfold TextReader.pending in *. cbn [TextReader.n TextReader.r].
      rewrite pending_advance.
      unfold len in *. rewrite length_skipn.
      rewrite int64_count, int64_small by lia. lia. }
  destruct op; try discriminate Hop; cbn [TextReaderCalls.run] in Hrun.
  - destruct (TextReader.Next c) as [x c1] eqn:E.
    injection Hrun as _ <-. exact (HNext x c1 eq_refl).
  - unfold TextReader.MustNext in Hrun. rewrite Hc in Hrun.
    destruct (TextReader.Next c) as [x c1] eqn:E.
    specialize (HNext x c1 eq_refl).
    destruct (x <? 0); [destruct (TextReader.err c1) as [[| | | |]|]|];
      injection Hrun as _ <-; exact HNext.
  - destruct (list_eq_dec Byte.byte_eq_dec s []) as [->|Hs].
    { unfold TextReader.Is in Hrun. rewrite Hc in Hrun.
      injection Hrun as _ <-. lia. }
    rewrite (Is_unfold c s Hc Hs) in Hrun.
    pose proof (Peek_pending (TextReader.r c) (List.length s)) as Hp.
    destruct (bufio.Peek (TextReader.r c) (List.length s))
      as [[b e] br] eqn:Hpeek.
    cbn [snd] in Hp. destruct e as [e|].
    + injection Hrun as _ <-. unfold TextReader.pending.
      cbn [TextReader.n TextReader.r]. rewrite Hp. lia.
    + destruct (negb (bytes_eqb b s)).
      * injection Hrun as _ <-. unfold TextReader.pending.
        cbn [TextReader.n TextReader.r]. rewrite Hp. lia.
      * injection Hrun as _ <-.
        destruct (Peek_none_pending _ _ _ _ Hpeek) as [Hd Hle].
        unfold TextReader.pending in *. cbn [TextReader.n TextReader.r].
        rewrite Hd. unfold len in *. rewrite length_skipn.
        rewrite int64_count, int64_small by lia. lia.
  - unfold TextReader.IsAny in Hrun. rewrite Hc in Hrun.
    destruct (TextReader.IsAny_loop _ _ f) as [[r1 c1]|] eqn:E;
      [|discriminate].
    cbn [option_map TextReaderCalls.string_result] in Hrun.
    destruct r1. injection Hrun as _ <-.
    apply IsAny_loop_in_step in E; [exact E | exact Hlo | exact Hhi].
  - unfold TextReader.Skip in Hrun. rewrite Hc in Hrun.
    pose proof (Skip_loop_IsAny_loop f (TextReader.enough c) c c
                                     eq_refl eq_refl) as Hsame.
    destruct (TextReader.Skip_loop _ c f) as [[ok c1]|] eqn:E;
      [|discriminate].
    cbn [option_map fst snd] in Hrun. injection Hrun as _ <-.
    destruct (TextReader.IsAny_loop _ c f) as [[[s1 ok1] a]|] eqn:Ea;
      [|contradiction].
    destruct Hsame as (_ & Hr & Hn & _).
    apply IsAny_loop_in_step in Ea; [|exact Hlo|exact Hhi].
    unfold TextReader.pending in *. rewrite <- Hr, <- Hn. exact Ea.
Qed.

(** X14.  The count follows the stream.  Through any sequence of calls to
    [Next], [MustNext], [Is], [IsAny] and [Skip], whatever they return,
    the count plus the number of bytes left in the stream stays what it
    was: [N] has grown by exactly the number of bytes taken off the stream
    (for a count that starts within [int64] and has room for the whole
    stream). *)
Theorem count_follows_stream (ops : list TextReaderCalls.call)
        (c : TextReader.t) :
  forallb counts_what_it_takes ops = true ->
  - 2 ^ 63 <= TextReader.N c ->
  TextReader.N c + len (TextReader.pending c) < 2 ^ 63 ->
  TextReader.N (TextReaderCalls.after c ops)
  + len (TextReader.pending (TextReaderCalls.after c ops))
  = TextReader.N c + len (TextReader.pending c).
Proof.
  unfold TextReader.N. revert c.
  induction ops as [|op ops IH]; intros c Hops Hlo Hhi; [reflexivity|].
  cbn [forallb] in Hops. apply andb_true_iff in Hops.
  destruct Hops as [Hop Hops].
  unfold TextReaderCalls.after in *. cbn [fold_left].
  pose proof (TextReader_run_total c op) as Ht.
  destruct (TextReaderCalls.run c op) as [[res c1]|] eqn:E;
    [|contradiction].
  destruct (call_in_step c op res c1 Hop Hlo Hhi E) as [Heq Hle].
  rewrite IH by (first [exact Hops | lia]). exact Heq.
Qed.

(** A request line taken apart: method, blank, path, and a failed match. *)
Lemma count_follows_stream_witness :
  let c := TextReaderCalls.after
             (text "GET /x HTTP")
             [TextReaderCalls.Is (bytes "GET");
              TextReaderCalls.Skip (fun x => x =? 32);
              TextReaderCalls.IsAny (fun x => negb (x =? 32));
              TextReaderCalls.Is (bytes "HTTP");
              TextReaderCalls.Next] in
  TextReader.N c + len (TextReader.pending c) = 0 + 11.
Proof.
  apply (count_follows_stream
           [TextReaderCalls.Is (bytes "GET");
            TextReaderCalls.Skip (fun x => x =? 32);
            TextReaderCalls.IsAny (fun x => negb (x =? 32));
            TextReaderCalls.Is (bytes "HTTP");
            TextReaderCalls.Next]
           (text "GET /x HTTP")).
  - reflexivity.
  - vm_compute. discriminate.
  - vm_compute. reflexivity.
Defined.

(** ** A byte order changed in the middle of a stream *)

(** X15.  [SetByteOrder] acts on the numbers that follow and on nothing
    else.  Numbers [xs] written in the order [o1] and, after
    [SetByteOrder(o2)], numbers [ys] leave in the buffer the layouts of
    [xs] in [o1] followed by those of [ys] in [o2]; the call itself leaves
    sink, count and fault alone.  A reader that makes the same change at
    the same place reads [xs] and [ys] back and ends at the end of the
    bytes without a fault. *)
Theorem SetByteOrder_mid_stream (o1 o2 : binary.ByteOrder)
        (xs ys : list number) :
  Forall (fun x => representable x = true) xs ->
  Forall (fun x => representable x = true) ys ->
  let w1 := write_numbers (fresh_writer o1) xs in
  let w1' := state_of (BinaryWriter.SetByteOrder w1 (Some o2)) in
  let w2 := write_numbers w1' ys in
  let r1 := read_numbers (fresh_reader o1 (BinaryWriter.w w2))
                         (map typeof xs) in
  let r1' := state_of (BinaryReader.SetByteOrder (snd r1) (Some o2)) in
  let r2 := read_numbers r1' (map typeof ys) in
  (BinaryWriter.w w1' = BinaryWriter.w w1 /\
   BinaryWriter.N w1' = BinaryWriter.N w1 /\
   BinaryWriter.Err w1' = BinaryWriter.Err w1) /\
  BinaryWriter.w w2
  = List.concat (map (layout o1) xs) ++ List.concat (map (layout o2) ys) /\
  BinaryWriter.Err w2 = None /\
  fst r1 = map Some xs /\
  fst r2 = map Some ys /\
  BinaryReader.Err (snd r2) = None /\
  io.data (BinaryReader.r (snd r2)) = [].
Proof.
  intros Hxs Hys w1 w1' w2 r1 r1' r2.
  assert (w1 = BinaryWriter.mk (List.concat (map (layout o1) xs)) o1
                               (int64 (0 + total_size xs)) None) as Hw1.
  { unfold w1. rewrite write_numbers_buffer; [reflexivity|reflexivity|].
    cbn. lia. }
  assert (w2 = BinaryWriter.mk
                 (List.concat (map (layout o1) xs)
                  ++ List.concat (map (layout o2) ys)) o2
                 (int64 (int64 (0 + total_size xs) + total_size ys)) None)
    as Hw2.
  { unfold w2, w1'. rewrite Hw1. cbn [BinaryWriter.SetByteOrder state_of].
    rewrite write_numbers_buffer;
      [reflexivity | reflexivity | apply int64_in_range]. }
  assert (r1 = (map Some xs,
                BinaryReader.mk
                  (io.mkReader (List.concat (map (layout o2) ys)) io_EOF) o1
                  (int64 (0 + total_size xs)) None)) as Hr1.
  { unfold r1. rewrite Hw2. cbn [BinaryWriter.w].
    rewrite (read_numbers_layouts xs _ (List.concat (map (layout o2) ys)));
      [reflexivity | reflexivity | cbn; lia | exact Hxs | reflexivity]. }
  assert (r2 = (map Some ys,
                BinaryReader.mk (io.mkReader [] io_EOF) o2
                  (int64 (int64 (0 + total_size xs) + total_size ys)) None))
    as Hr2.
  { unfold r2, r1'. rewrite Hr1.
    cbn [snd BinaryReader.SetByteOrder state_of].
    rewrite (read_numbers_layouts ys _ []);
      [reflexivity | reflexivity | apply int64_in_range | exact Hys | ].
    cbn [BinaryReader.r BinaryReader.ord io.data].
    rewrite app_nil_r. reflexivity. }
  rewrite Hr2, Hr1, Hw2. repeat split.
Qed.

(** A header in big-endian followed by a body in little-endian. *)
Lemma SetByteOrder_mid_stream_witness :
  let xs := [Uint16 258; Int32 (-2)] in
  let ys := [Uint16 258; Float32 (math.mkFloat true 127 0)] in
  let w1 := write_numbers (fresh_writer binary.BigEndian) xs in
  let w1' := state_of (BinaryWriter.SetByteOrder
                         w1 (Some binary.LittleEndian)) in
  let w2 := write_numbers w1' ys in
  let r1 := read_numbers (fresh_reader binary.BigEndian (BinaryWriter.w w2))
                         (map typeof xs) in
  let r1' := state_of (BinaryReader.SetByteOrder
                         (snd r1) (Some binary.LittleEndian)) in
  let r2 := read_numbers r1' (map typeof ys) in
  (BinaryWriter.w w1' = BinaryWriter.w w1 /\
   BinaryWriter.N w1' = BinaryWriter.N w1 /\
   BinaryWriter.Err w1' = BinaryWriter.Err w1) /\
  BinaryWriter.w w2
  = List.concat (map (layout binary.BigEndian) xs)
    ++ List.concat (map (layout binary.LittleEndian) ys) /\
  BinaryWriter.Err w2 = None /\
  fst r1 = map Some xs /\
  fst r2 = map Some ys /\
  BinaryReader.Err (snd r2) = None /\
  io.data (BinaryReader.r (snd r2)) = [].
Proof.
  apply (SetByteOrder_mid_stream
           binary.BigEndian binary.LittleEndian
           [Uint16 258; Int32 (-2)]
           [Uint16 258; Float32 (math.mkFloat true 127 0)]).
  - repeat constructor.
  - repeat constructor.
Defined.

(** ** IsEOF *)

(** X16.  [IsEOF] only looks: the stream, the count, the fault and the
    buffer of the cursor are what they were.  With a fault latched it says
    whether that fault is [io.EOF]; without one (the buffer of a
    [bufio.Reader] holds at least one byte) it returns true exactly when no
    byte is left and the source ended cleanly, so never at the end of a
    source that failed. *)
Theorem IsEOF_look_ahead (c : TextReader.t) :
  let ok := fst (TextReader.IsEOF c) in
  let c' := snd (TextReader.IsEOF c) in
  (TextReader.pending c' = TextReader.pending c /\
   TextReader.N c' = TextReader.N c /\
   TextReader.Err c' = TextReader.Err c /\
   TextReader.buf c' = TextReader.buf c) /\
  (forall e : error, TextReader.Err c = Some e -> ok = is_EOF e /\ c' = c) /\
  (TextReader.Err c = None ->
   (1 <= bufio.size (TextReader.r c))%nat ->
   (ok = true <->
    TextReader.pending c = [] /\
    io.fail (bufio.rd (TextReader.r c)) = io_EOF)).
Proof.
  unfold TextReader.IsEOF, TextReader.Err, TextReader.N, TextReader.pending.
  destruct (TextReader.err c) as [e|] eqn:Hc; cbn zeta.
  - cbn [fst snd]. rewrite Hc.
    split; [repeat split|split].
    + intros e1 H1. injection H1 as <-. split; reflexivity.
    + intros H1. discriminate H1.
  - pose proof (Peek_pending (TextReader.r c) 1) as Hp.
    destruct (bufio.Peek (TextReader.r c) 1) as [[got e] br] eqn:Hpeek.
    cbn [fst snd TextReader.r TextReader.n TextReader.err TextReader.buf]
      in *.
    split; [repeat split; assumption|].
    split; [intros e1 H1; discriminate H1|].
    intros _ Hsize. unfold bufio.Peek in Hpeek.
    destruct (Nat.ltb_spec (bufio.size (TextReader.r c)) 1) as [Hs|Hs];
      [lia|].
    destruct (Nat.leb_spec 1 (List.length (bufio.pending (TextReader.r c))))
      as [Hl|Hl]; injection Hpeek as _ <- _.
    + split; [discriminate|].
      intros [Hemp _]. rewrite Hemp in Hl. cbn in Hl. lia.
    + assert (bufio.pending (TextReader.r c) = []) as Hemp
          by (destruct (bufio.pending (TextReader.r c));
              [reflexivity | cbn in Hl; lia]).
      split.
      * intros H1. split; [exact Hemp|].
        destruct (io.fail (bufio.rd (TextReader.r c)));
          [reflexivity | discriminate H1..].
      * intros [_ ->]. reflexivity.
Qed.

(** At the end of a clean stream, in the middle of it, and at the end of a
    stream whose source failed. *)
Lemma IsEOF_look_ahead_witness :
  fst (TextReader.IsEOF (text "")) = true /\
  fst (TextReader.IsEOF (text "a")) = false /\
  fst (TextReader.IsEOF
         (TextReader.NewTextReader (inl (broken "" "reset")))) = false /\
  fst (TextReader.IsEOF (snd (TextReader.Next (text "")))) = true.
Proof.
  split; [|split; [|split]].
  - apply (proj2 (proj2 (IsEOF_look_ahead (text ""))) eq_refl);
      [vm_compute; lia | split; reflexivity].
  - destruct (fst (TextReader.IsEOF (text "a"))) eqn:E; [|reflexivity].
    apply (proj2 (proj2 (IsEOF_look_ahead (text "a"))) eq_refl) in E;
      [destruct E as [E _]; discriminate E | vm_compute; lia].
  - destruct (fst (TextReader.IsEOF
                     (TextReader.NewTextReader (inl (broken "" "reset")))))
      eqn:E; [|reflexivity].
    apply (proj2 (proj2 (IsEOF_look_ahead
                           (TextReader.NewTextReader
                              (inl (broken "" "reset"))))) eq_refl) in E;
      [destruct E as [_ E]; discriminate E | vm_compute; lia].
  - apply (proj1 (proj2 (IsEOF_look_ahead (snd (TextReader.Next (text "")))))
                 io_EOF eq_refl).
Defined.

(** ** UntilEOF *)

(** X17.  [UntilEOF] on a cursor without a fault always empties the
    stream.  When the source ends cleanly it returns everything that was
    left, adds its length to the count and latches nothing, and a second
    call returns the empty string and success.  When the source fails it
    returns the empty string and failure and latches the source's error;
    the bytes read before the error are neither returned nor counted. *)
Theorem UntilEOF_spec (c : TextReader.t) :
  TextReader.err c = None ->
  - 2 ^ 63 <= TextReader.N c ->
  TextReader.N c + len (TextReader.pending c) < 2 ^ 63 ->
  let res := fst (TextReader.UntilEOF c) in
  let c' := snd (TextReader.UntilEOF c) in
  TextReader.pending c' = [] /\
  (io.fail (bufio.rd (TextReader.r c)) = io_EOF ->
   res = (TextReader.pending c, true) /\
   TextReader.Err c' = None /\
   TextReader.N c' = TextReader.N c + len (TextReader.pending c) /\
   TextReader.UntilEOF c' = (([], true), c')) /\
  (io.fail (bufio.rd (TextReader.r c)) <> io_EOF ->
   res = ([], false) /\
   TextReader.Err c' = Some (io.fail (bufio.rd (TextReader.r c))) /\
   TextReader.N c' = TextReader.N c).
Proof.
  intros Hc Hlo Hhi.
  unfold TextReader.N, TextReader.Err, TextReader.pending, bufio.pending
    in *.
  assert (TextReader.UntilEOF c
          = if is_EOF (io.fail (bufio.rd (TextReader.r c)))
            then ((io.data (bufio.rd (TextReader.r c)), true),
                  TextReader.mk
                    (bufio.mkReader
                       (io.mkReader [] (io.fail (bufio.rd (TextReader.r c))))
                       (bufio.size (TextReader.r c)) [])
                    (TextReader.buf c)
                    (TextReader.n c
                     + len (io.data (bufio.rd (TextReader.r c))))
                    None)
            else (([], false),
                  TextReader.mk
                    (bufio.mkReader
                       (io.mkReader [] (io.fail (bufio.rd (TextReader.r c))))
                       (bufio.size (TextReader.r c)) [])
                    (TextReader.buf c) (TextReader.n c)
                    (Some (io.fail (bufio.rd (TextReader.r c)))))) as Hu.
  { unfold TextReader.UntilEOF, io.ReadAll. rewrite Hc.
    destruct (is_EOF (io.fail (bufio.rd (TextReader.r c))));
      cbn [TextReader.err TextReader.r TextReader.n TextReader.buf];
      [|reflexivity].
    rewrite int64_count, int64_small by (unfold len in *; lia).
    reflexivity. }
  rewrite Hu.
  destruct (io.fail (bufio.rd (TextReader.r c))) eqn:He;
    cbn [is_EOF fst snd TextReader.err TextReader.r TextReader.n
         TextReader.buf bufio.rd io.data];
    (split; [reflexivity|]);
    (split; [intros H1; try discriminate H1
            |intros H1; try (exfalso; apply H1; reflexivity);
             repeat split]).
  repeat split.
  unfold TextReader.UntilEOF, io.ReadAll.
  cbn [is_EOF TextReader.err TextReader.r TextReader.n TextReader.buf
       fst snd bufio.rd bufio.size io.data io.fail].
  change (int64 (len (@nil byte))) with 0.
  rewrite Z.add_0_r, int64_small by (unfold len in *; lia). reflexivity.
Qed.

(** The rest of a line, and a source that fails after two bytes. *)
Lemma UntilEOF_spec_witness :
  (fst (TextReader.UntilEOF (text "rest")) = (bytes "rest", true) /\
   TextReader.N (snd (TextReader.UntilEOF (text "rest"))) = 0 + 4) /\
  (let c := TextReader.NewTextReader (inl (broken "ab" "reset")) in
   fst (TextReader.UntilEOF c) = ([], false) /\
   TextReader.pending (snd (TextReader.UntilEOF c)) = [] /\
   TextReader.N (snd (TextReader.UntilEOF c)) = TextReader.N c).
Proof.
  split.
  - destruct (UntilEOF_spec (text "rest") eq_refl) as (_ & H & _);
      [vm_compute; discriminate | vm_compute; reflexivity | ].
    destruct (H eq_refl) as (H1 & _ & H3 & _). split; [exact H1 | exact H3].
  - intros c.
    destruct (UntilEOF_spec c eq_refl) as (H0 & _ & H);
      [vm_compute; discriminate | vm_compute; reflexivity | ].
    destruct H as (H1 & _ & H3); [discriminate|].
    split; [exact H1 | split; [exact H0 | exact H3]].
Defined.

(** ** Until and UntilAny, with the count *)

(** The count after the runes [pre] of a stream, and what is left of it. *)
Lemma reads_counted (p : list byte) (pre : list (rune * Z))
      (rest : list byte) :
  reads p pre rest ->
  forall n : Z,
    - 2 ^ 63 <= n -> n + len p < 2 ^ 63 ->
    counted n pre + len rest = n + len p /\ n <= counted n pre.
Proof.
  intros Hr. induction Hr as [p|p x w xs rest Hp Hd Hr IH]; intros n Hlo Hhi.
  - cbn [counted fold_left]. lia.
  - pose proof (DecodeRune_width p x w Hp Hd) as Hw.
    unfold counted in *. cbn [fold_left snd].
    rewrite int64_count, int64_small by lia.
    unfold len in *.
    assert (Z.of_nat (List.length (skipn (Z.to_nat w) p))
            = Z.of_nat (List.length p) - w) as Hs
        by (rewrite length_skipn; lia).
    destruct (IH (n + w)) as [IH1 IH2]; [lia | lia | ].
    rewrite Hs in IH1. lia.
Qed.

(** X18.  [Until(v)] is [UntilAny] with the test [c == v]: same result,
    same cursor, for every cursor and rune. *)
Theorem Until_is_UntilAny (c : TextReader.t) (v : rune) :
  TextReader.Until c v = TextReader.UntilAny c (fun x => x =? v).
Proof.
  unfold TextReader.Until, TextReader.UntilAny.
  destruct (TextReader.err c); [reflexivity|].
  apply Until_loop_UntilAny_loop.
Qed.

(** X19.  [UntilAny(f)] on a stream that holds a rune [m] satisfying [f]
    after runes [pre] that do not: the call returns the spelling of [pre]
    and success and latches nothing; the count has grown by the bytes of
    [pre] only, while the stream has lost the bytes of [m] as well, so the
    count falls short of the position in the stream by the width of [m]
    (one to four bytes). *)
Theorem UntilAny_count_lags (c : TextReader.t) (f : rune -> bool)
        (pre : list (rune * Z)) (mid : list byte) (m : rune) (w : Z) :
  TextReader.err c = None ->
  - 2 ^ 63 <= TextReader.N c ->
  TextReader.N c + len (TextReader.pending c) < 2 ^ 63 ->
  reads (TextReader.pending c) pre mid ->
  none_satisfies f pre ->
  mid <> [] -> utf8.DecodeRune mid = (m, w) -> f m = true ->
  exists c' : TextReader.t,
    TextReader.UntilAny c f = Some ((spelled pre, true), c') /\
    TextReader.Err c' = None /\
    1 <= w <= 4 /\
    TextReader.N c' + w + len (TextReader.pending c')
    = TextReader.N c + len (TextReader.pending c).
Proof.
  intros Hc Hlo Hhi Hr Hn Hm Hd Hf. unfold TextReader.UntilAny.
  rewrite Hc. erewrite UntilAny_loop_found; try eassumption.
  - eexists. split; [reflexivity|]. split; [reflexivity|].
    pose proof (DecodeRune_width mid m w Hm Hd) as Hw.
    pose proof (DecodeRune_width4 mid) as Hw4. rewrite Hd in Hw4.
    cbn [snd] in Hw4. split; [lia|].
    destruct (reads_counted _ _ _ Hr (TextReader.N c) Hlo Hhi) as [Hcnt _].
    unfold TextReader.N, TextReader.pending, bufio.pending in *.
    cbn [TextReader.n TextReader.r bufio.rd io.data].
    unfold len in *. rewrite length_skipn. lia.
  - reflexivity.
  - unfold TextReader.enough, TextReader.pending. cbn [TextReader.r]. lia.
Qed.

(** A field up to its separator: five bytes are gone, four are counted. *)
Lemma UntilAny_count_lags_witness :
  exists c' : TextReader.t,
    TextReader.UntilAny (text "name=x") (fun x => x =? 61)
    = Some ((spelled [(110, 1); (97, 1); (109, 1); (101, 1)], true), c') /\
    TextReader.Err c' = None /\
    1 <= 1 <= 4 /\
    TextReader.N c' + 1 + len (TextReader.pending c')
    = TextReader.N (text "name=x") + len (TextReader.pending (text "name=x")).
Proof.
  apply (UntilAny_count_lags
           (text "name=x") (fun x => x =? 61)
           [(110, 1); (97, 1); (109, 1); (101, 1)] (bytes "=x") 61 1).
  - reflexivity.
  - vm_compute. discriminate.
  - vm_compute. reflexivity.
  - repeat (apply reads_rune; [discriminate | reflexivity | ]).
    apply reads_done.
  - repeat constructor.
  - discriminate.
  - reflexivity.
  - reflexivity.
Defined.

(** X20.  [UntilAny(f)] on a stream without a rune that satisfies [f]
    returns the empty string and failure, whatever it has read.  The whole
    stream has been taken and counted, and the fault latched is
    [io.ErrUnexpectedEOF] when the source ended cleanly and the source's
    own error otherwise: never [io.EOF], so [IsEOF] is false afterwards
    although the stream is at its end. *)
Theorem UntilAny_no_match (c : TextReader.t) (f : rune -> bool)
        (pre : list (rune * Z)) :
  TextReader.err c = None ->
  - 2 ^ 63 <= TextReader.N c ->
  TextReader.N c + len (TextReader.pending c) < 2 ^ 63 ->
  reads (TextReader.pending c) pre [] ->
  none_satisfies f pre ->
  exists c' : TextReader.t,
    TextReader.UntilAny c f = Some (([], false), c') /\
    TextReader.Err c'
    = Some (if is_EOF (io.fail (bufio.rd (TextReader.r c)))
            then io_ErrUnexpectedEOF
            else io.fail (bufio.rd (TextReader.r c))) /\
    TextReader.Err c' <> Some io_EOF /\
    fst (TextReader.IsEOF c') = false /\
    TextReader.pending c' = [] /\
    TextReader.N c' = TextReader.N c + len (TextReader.pending c).
Proof.
  intros Hc Hlo Hhi Hr Hn. unfold TextReader.UntilAny. rewrite Hc.
  erewrite UntilAny_loop_eof; try eassumption.
  - eexists. split; [reflexivity|]. split; [reflexivity|].
    destruct (reads_counted _ _ _ Hr (TextReader.N c) Hlo Hhi) as [Hcnt _].
    unfold TextReader.IsEOF, TextReader.Err, TextReader.N,
      TextReader.pending, bufio.pending in *.
    cbn [TextReader.err TextReader.n TextReader.r bufio.rd io.data fst].
    change (len (@nil byte)) with 0 in Hcnt.
    destruct (io.fail (bufio.rd (TextReader.r c)));
      cbn [is_EOF]; repeat split; try discriminate; lia.
  - reflexivity.
  - reflexivity.
  - unfold TextReader.enough, TextReader.pending. cbn [TextReader.r]. lia.
Qed.

(** A quoted string that is never closed. *)
Lemma UntilAny_no_match_witness :
  exists c' : TextReader.t,
    TextReader.UntilAny (text "abc") (fun x => x =? 34)
    = Some (([], false), c') /\
    TextReader.Err c' = Some io_ErrUnexpectedEOF /\
    TextReader.Err c' <> Some io_EOF /\
    fst (TextReader.IsEOF c') = false /\
    TextReader.pending c' = [] /\
    TextReader.N c' = 0 + 3.
Proof.
  apply (UntilAny_no_match (text "abc") (fun x => x =? 34)
                           [(97, 1); (98, 1); (99, 1)]).
  - reflexivity.
  - vm_compute. discriminate.
  - vm_compute. reflexivity.
  - repeat (apply reads_rune; [discriminate | reflexivity | ]).
    apply reads_done.
  - repeat constructor.
Defined.

(** ** All on a source that fails *)

(** X21.  [All] on a reader without a fault empties the source and adds to
    the count every byte it has read, whether it succeeds or not.  When the
    source ends cleanly the bytes are returned and nothing is latched; when
    the source fails the call returns no data and failure and latches the
    source's error, the bytes read before the error being counted all the
    same. *)
Theorem All_counts_what_it_read (c : BinaryReader.t) :
  BinaryReader.err c = None ->
  let res := fst (BinaryReader.All c) in
  let c' := snd (BinaryReader.All c) in
  io.data (BinaryReader.r c') = [] /\
  BinaryReader.N c'
  = int64 (BinaryReader.N c + len (io.data (BinaryReader.r c))) /\
  (io.fail (BinaryReader.r c) = io_EOF ->
   res = (Some (io.data (BinaryReader.r c)), false) /\
   BinaryReader.Err c' = None) /\
  (io.fail (BinaryReader.r c) <> io_EOF ->
   res = (None, true) /\
   BinaryReader.Err c' = Some (io.fail (BinaryReader.r c))).
Proof.
  intros Hc. unfold BinaryReader.All, io.ReadAll, BinaryReader.N,
               BinaryReader.Err.
  rewrite Hc.
  destruct (io.fail (BinaryReader.r c)) eqn:He;
    cbn [is_EOF fst snd BinaryReader.err BinaryReader.r BinaryReader.n
         io.data];
    rewrite int64_count;
    (split; [reflexivity|]); (split; [reflexivity|]);
    (split; [intros H1; try discriminate H1
            |intros H1; try (exfalso; apply H1; reflexivity)]);
    split; reflexivity.
Qed.

(** Two bytes and then a connection reset. *)
Lemma All_counts_what_it_read_witness :
  let c := BinaryReader.NewBinaryReader (broken "ab" "reset") in
  fst (BinaryReader.All c) = (None, true) /\
  BinaryReader.N (snd (BinaryReader.All c)) = 2 /\
  BinaryReader.Err (snd (BinaryReader.All c)) = Some (errors_New "reset").
Proof.
  intros c.
  destruct (All_counts_what_it_read c eq_refl) as (_ & Hn & _ & H).
  destruct H as [H1 H2]; [discriminate|].
  split; [exact H1 | split; [exact Hn | exact H2]].
Defined.
